(** * The crawl orchestration engine of [crawler.ts]

    A shallow embedding of [src/crawler/src/crawler.ts]: the loading of
    the crawl list (lines 95-173), the run state machine ([crawl], lines
    175-245, with [createCrawlEntry] and [getPublicIp]), the driver loop
    (lines 275-398), the page pipeline [loadAndHandlePage] with its request
    filter [captureThirdPartyRequests], [scrollDownPage] and [randrange].

    The program is asynchronous JavaScript that talks to a browser, a
    database and the Node runtime.  It is embedded in a state-and-exception
    monad [M]: the state carries the external world (browser, sites, clock),
    the database tables, the process globals and the chronological list of
    observable effects; an outcome is a value, a thrown exception,
    [process.exit], or the abandonment of a task that lost its race against
    a timer.

    Time is the clock of the world, read when a call to the world
    returns.  Three things the JavaScript runtime does beside the driver
    are cut short.  A task that loses its race is cut where it stands: what
    the runtime still does for it in the background, after the driver has
    moved on, is outside the embedding.  A promise that is rejected and
    that nothing awaits ends the process where the operation was started;
    the runtime ends it a little later, when the program next yields to
    it.  The request filter is followed on the tab it was installed on
    last: a tab visited earlier keeps its handler in the browser, but the
    requests intercepted on it after another tab has been visited are not
    followed.  Numbers of the page (scroll positions, random draws) are
    exact rationals. *)

From Stdlib Require Import String Ascii List ZArith QArith Bool Arith Lia.
From Stdlib Require Import DecimalString Lqa.
From ExtLib Require Import Structures.Monad Structures.MonadExc.
Import ListNotations.
Import MonadNotation.

Local Close Scope Q_scope.
Local Open Scope string_scope.
Local Open Scope monad_scope.

Set Implicit Arguments.

(** ** JavaScript values that the crawler handles *)

(** What a [catch (e)] clause receives: an [Error] object, or any other
    thrown value (the source casts it with [e as string]). *)
Inductive exn : Type :=
| JsError (message : string)
| JsThrown (value : string).

(** [e instanceof Error ? e.message : (e as string)] (lines 543-547). *)
Definition exn_message (e : exn) : string :=
  match e with
  | JsError message => message
  | JsThrown value => value
  end.

(** Truthiness of a string that may be [undefined]: [undefined] and the
    empty string are falsy. *)
Definition truthy (s : string) : bool :=
  negb (s =? "").

Definition truthy_opt (o : option string) : bool :=
  match o with
  | Some s => truthy s
  | None => false
  end.

(** Template-literal rendering of numbers. *)
Definition show_nat (n : nat) : string :=
  NilZero.string_of_uint (Nat.to_uint n).

Definition show_Z (z : Z) : string :=
  NilZero.string_of_int (Z.to_int z).

(** ** Flags (lines 21-56) *)

Record ChromeOptions : Type := {
  profileDir : option string;
  headless : bool;
  executablePath : option string;
  proxyServer : option string
}.

Record CrawlOptions : Type := {
  shuffleCrawlList : bool;
  findAndCrawlPageWithAds : Z;
  findAndCrawlArticlePage : bool;
  refreshPage : bool
}.

Record ScrapeOptions : Type := {
  scrapeSite : bool;
  scrapeAds : bool;
  screenshotAdsWithContext : bool;
  captureThirdPartyRequests_enabled : bool
}.

Record CrawlerFlags : Type := {
  jobId : option Z;
  crawlName : option string;
  resumeIfAble : bool;
  profileId : option string;
  url_flag : option string;
  chromeOptions : ChromeOptions;
  crawlOptions : CrawlOptions;
  scrapeOptions : ScrapeOptions
}.

(** The crawl list as lines 120-173 leave it: the list file (empty for a
    single url), the urls, the ad ids, and whether the urls are ad urls. *)
Record CrawlInputs : Type := {
  crawlListFile : string;
  crawlList : list string;
  crawlListAdIds : list Z;
  isAdUrlCrawl : bool
}.

(** Process-wide tunables set by [setupGlobals] (lines 73-93), in ms. *)
Definition CLICKTHROUGH_TIMEOUT : Z := 60 * 1000.
Definition AD_CLICK_TIMEOUT : Z := 10 * 1000.
Definition PAGE_NAVIGATION_TIMEOUT : Z := 3 * 60 * 1000.
Definition PAGE_SCRAPE_TIMEOUT : Z := 2 * 60 * 1000.
Definition AD_SCRAPE_TIMEOUT : Z := 20 * 1000.
Definition AD_SLEEP_TIME : Z := 5 * 1000.
Definition PAGE_SLEEP_TIME : Z := 10 * 1000.

(** ** Browser objects *)

(** A tab ([Page] of puppeteer) and a frame are handles. *)
Definition Page : Type := nat.
Definition Frame : Type := nat.

(** Modelled from the spec: the page-role tag of a page visit ([PageType]
    of [pages/page-scraper.js], a file that is not part of the sources at
    hand), with the three roles [crawler.ts] uses: seed, landing page of
    an ad, and subpage. *)
Inductive PageType : Type :=
| MAIN
| LANDING
| SUBPAGE.

(** [LoadPageMetadata] (lines 408-414). *)
Record LoadPageMetadata : Type := {
  pageType : PageType;
  referrerPageId : option Z;
  referrerPageUrl : option string;
  referrerAd : option Z;
  reload : Z
}.

(** What the filter reads of an intercepted [HTTPRequest]. *)
Record HTTPRequest : Type := {
  request_url : string;
  resourceType : string;
  isNavigationRequest : bool;
  request_frame : option Frame
}.

(** What the filter reads of its tab at the moment a request is
    intercepted: [page.url()] and [page.mainFrame()]. *)
Record PageView : Type := {
  view_url : string;
  mainFrame : Frame
}.

(** [WebRequest] of [util/db.js], as built on lines 468-476. *)
Record WebRequest : Type := {
  wr_timestamp : Z;
  wr_job_id : option Z;
  wr_crawl_id : Z;
  parent_page : Z;
  initiator : string;
  target_url : string;
  resource_type : string
}.

(** Awaited operations on a tab, the timer [sleep] and the extraction
    collaborators; all of them return nothing. *)
Inductive action : Type :=
| SetRequestInterception (on : bool)
| Goto (url : string) (timeout : Z)
| Sleep (ms : Z)
| RemoveCookieBanners
| KeyboardPress (key : string)
| MouseMove (x y : Q)
| MouseWheel (deltaY : Q)
| ScrapePage (pageId : Z) (pt : PageType) (ad : option Z)
| ScrapeAdsOnPage (originalUrl : string) (pt : PageType) (parentPageId : Z)
| Close.

(** The three [page.evaluate] probes of [scrollDownPage]. *)
Inductive probe : Type :=
| InnerHeight
| ScrollY
| ScrollHeight.

(** The two discovery calls of [SubpageExplorer]. *)
Inductive finder : Type :=
| FindArticle
| FindHealthRelatedPagesWithAds.

(** ** The run state store *)

(** A row of table [crawl], with the columns the engine reads back.  The
    columns [start_time], [completed_time], [crawler_hostname] and
    [crawler_ip] are written once and never read by the engine; they are
    left out. *)
Record crawl_row : Type := {
  id : Z;
  job_id : option Z;
  name : option string;
  completed : bool;
  crawl_list : option string;
  crawl_list_current_index : nat;
  crawl_list_length : nat;
  profile_id : option string;
  profile_dir : option string
}.

(** A row of table [page]: the fields of [archivePage] (lines 432-442) and
    the two fields [updatePage] sets, [url] and [error]. *)
Record page_row : Type := {
  page_id : Z;
  page_timestamp : Z;
  page_job_id : option Z;
  page_crawl_id : Z;
  original_url : string;
  page_type : PageType;
  referrer_page : option Z;
  referrer_page_url : option string;
  referrer_ad : option Z;
  page_reload : Z;
  page_url : option string;
  page_error : option string
}.

Record Db : Type := {
  crawl_table : list crawl_row;
  page_table : list page_row;
  request_table : list WebRequest
}.

(** The update argument of [db.updatePage]. *)
Inductive page_update : Type :=
| SetUrl (timestamp : Z) (url : string)
| SetError (message : string).

(** Statements sent to the store. *)
Inductive statement : Type :=
| SelectCrawlByName (name : string)
| InsertCrawl (row : crawl_row)
| UpdateCrawlIndex (index : nat) (crawl_id : Z)
| UpdateCrawlCompleted (time : Z) (crawl_id : Z)
| ArchivePage (row : page_row)
| UpdatePage (page_id : Z) (u : page_update)
| ArchiveRequest (r : WebRequest).

(** ** Observable effects *)

Inductive logger : Type :=
| console_log
| console_error
| log_info
| log_warning
| log_strError.

Inductive event : Type :=
| EvLog (f : logger) (msg : string)
| EvLogError (e : exn) (context : string)
| EvDb (q : statement)
| EvLaunch (args : list string)
| EvNewPage (p : Page)
| EvPage (p : Page) (a : action)
| EvEvaluate (p : Page) (q : probe)
| EvFind (f : finder) (p : Page)
| EvOn (p : Page)
| EvContinue (r : HTTPRequest)
| EvSetTimeout (msg : string) (ms : Z) (now : Z)
| EvClearTimeout (msg : string)
| EvTimeout (msg : string) (now : Z).

(** ** The runtime and the browser, as interfaces *)

(** The WHATWG [URL] object, reduced to the field the crawler reads. *)
Record URL : Type := {
  origin : string
}.

(** Node library functions: [new URL(s)] ([None] when the constructor
    throws) and [path.basename]. *)
Class Runtime : Type := {
  new_URL : string -> option URL;
  basename : string -> string
}.

(** What an awaited tab operation gives back: the requests intercepted on
    the tab while it ran, each with the tab as it was at that moment, and
    the result. *)
Record Completion : Type := {
  intercepted : list (HTTPRequest * PageView);
  result : exn + unit
}.

(** The browser driver and the sites behind it, over a world [W], with
    the collaborators whose code is in other modules ([scrapePage],
    [scrapeAdsOnPage], [removeCookieBanners], [SubpageExplorer], [sleep]):
    any behaviour of theirs is a [Driver].  Every call may throw;
    [Date_now] is the wall clock in ms. *)
Class Driver (W : Type) : Type := {
  Date_now : W -> Z;
  Math_random : W -> W * Q;
  launch : list string -> W -> W * (exn + unit);
  version : W -> W * (exn + string);
  newPage : W -> W * (exn + Page);
  url_of : Page -> W -> string;
  perform : Page -> action -> W -> W * Completion;
  evaluate : Page -> probe -> W -> W * (exn + Q);
  explore : finder -> Page -> W -> W * (exn + option string)
}.

(** ** The monad of the crawler *)

(** The result of running a piece of the program.  [Abandoned] is a task
    that lost [Promise.race] against its timer: no [catch] or [finally]
    inside the task runs at that point, the awaiting caller goes on. *)
Inductive outcome (A : Type) : Type :=
| Ok (a : A)
| Throw (e : exn)
| Exit (code : Z)
| Abandoned.

Arguments Ok {A} a.
Arguments Throw {A} e.
Arguments Exit {A} code.
Arguments Abandoned {A}.

(** The timer returned by [createAsyncTimeout]: the message of its
    rejection and the clock value at which it fires. *)
Record Timer : Type := {
  timer_message : string;
  fires_at : Z
}.

Section Machine.

Context {W : Type}.

(** The state of the process: the world, the store, the chronological
    effects, the global [CRAWL_ID], the local [seedPage] of the driver loop
    (assigned inside the closure [_crawl], so shared), the request buffer
    [requests] of the visit in progress with the tab its handler listens
    on, and the timer the running task is raced against. *)
Record State : Type := {
  world : W;
  db : Db;
  trace : list event;
  CRAWL_ID : Z;
  seedPage : Page;
  requests : list WebRequest;
  listening : option Page;
  racing : option Timer
}.

Definition M (A : Type) : Type := State -> State * outcome A.

Definition set_world (w : W) (s : State) : State :=
  {| world := w; db := db s; trace := trace s; CRAWL_ID := CRAWL_ID s;
     seedPage := seedPage s; requests := requests s;
     listening := listening s; racing := racing s |}.

Definition set_db (d : Db) (s : State) : State :=
  {| world := world s; db := d; trace := trace s; CRAWL_ID := CRAWL_ID s;
     seedPage := seedPage s; requests := requests s;
     listening := listening s; racing := racing s |}.

Definition set_trace (t : list event) (s : State) : State :=
  {| world := world s; db := db s; trace := t; CRAWL_ID := CRAWL_ID s;
     seedPage := seedPage s; requests := requests s;
     listening := listening s; racing := racing s |}.

Definition set_CRAWL_ID (c : Z) (s : State) : State :=
  {| world := world s; db := db s; trace := trace s; CRAWL_ID := c;
     seedPage := seedPage s; requests := requests s;
     listening := listening s; racing := racing s |}.

Definition set_seedPage (p : Page) (s : State) : State :=
  {| world := world s; db := db s; trace := trace s; CRAWL_ID := CRAWL_ID s;
     seedPage := p; requests := requests s;
     listening := listening s; racing := racing s |}.

Definition set_requests (r : list WebRequest) (s : State) : State :=
  {| world := world s; db := db s; trace := trace s; CRAWL_ID := CRAWL_ID s;
     seedPage := seedPage s; requests := r;
     listening := listening s; racing := racing s |}.

Definition set_listening (l : option Page) (s : State) : State :=
  {| world := world s; db := db s; trace := trace s; CRAWL_ID := CRAWL_ID s;
     seedPage := seedPage s; requests := requests s;
     listening := l; racing := racing s |}.

Definition set_racing (t : option Timer) (s : State) : State :=
  {| world := world s; db := db s; trace := trace s; CRAWL_ID := CRAWL_ID s;
     seedPage := seedPage s; requests := requests s;
     listening := listening s; racing := t |}.

#[export] Instance Monad_M : Monad M := {|
  ret := fun _ a s => (s, Ok a);
  bind := fun _ _ c k s =>
    match c s with
    | (s', Ok a) => k a s'
    | (s', Throw e) => (s', Throw e)
    | (s', Exit code) => (s', Exit code)
    | (s', Abandoned) => (s', Abandoned)
    end
|}.

(** [throw e] and [try { c } catch (e) { h e }]. *)
#[export] Instance Exc_M : MonadExc exn M := {|
  raise := fun _ e s => (s, Throw e);
  catch := fun _ c h s =>
    match c s with
    | (s', Throw e) => h e s'
    | r => r
    end
|}.

(** [try { c } finally { f }]: [f] runs after a value and after a throw,
    and its own failure replaces the result of [c]; [process.exit] and the
    abandonment of the task skip it. *)
Definition finally {A : Type} (c : M A) (f : M unit) : M A :=
  fun s =>
    match c s with
    | (s', Ok a) =>
        match f s' with
        | (s'', Ok _) => (s'', Ok a)
        | (s'', Throw e) => (s'', Throw e)
        | (s'', Exit code) => (s'', Exit code)
        | (s'', Abandoned) => (s'', Abandoned)
        end
    | (s', Throw e) =>
        match f s' with
        | (s'', Ok _) => (s'', Throw e)
        | (s'', Throw e') => (s'', Throw e')
        | (s'', Exit code) => (s'', Exit code)
        | (s'', Abandoned) => (s'', Abandoned)
        end
    | (s', Exit code) => (s', Exit code)
    | (s', Abandoned) => (s', Abandoned)
    end.

Definition get {A : Type} (f : State -> A) : M A :=
  fun s => (s, Ok (f s)).

Definition modify (f : State -> State) : M unit :=
  fun s => (f s, Ok tt).

Definition emit (e : event) : M unit :=
  modify (fun s => set_trace (trace s ++ [e]) s).

Definition process_exit {A : Type} (code : Z) : M A :=
  fun s => (s, Exit code).

Definition log (f : logger) (msg : string) : M unit :=
  emit (EvLog f msg).

(** [log.error(e, url)]. *)
Definition log_error (e : exn) (context : string) : M unit :=
  emit (EvLogError e context).

(** [if (b) { c }]. *)
Definition when (b : bool) (c : M unit) : M unit :=
  if b then c else ret tt.

(** [for (let x of l) { body x }]. *)
Fixpoint for_of {A : Type} (l : list A) (body : A -> M unit) : M unit :=
  match l with
  | [] => ret tt
  | x :: l' => body x ;; for_of l' body
  end.

(** [for (let i = lo; i < lo + n; i++) { body i }], by recursion on the
    number [n] of iterations left. *)
Fixpoint for_from (n : nat) (i : nat) (body : nat -> M unit) : M unit :=
  match n with
  | O => ret tt
  | S n' => body i ;; for_from n' (S i) body
  end.

(** The same loop with [break]: the body answers whether to go on. *)
Fixpoint for_break (n : nat) (body : M bool) : M unit :=
  match n with
  | O => ret tt
  | S n' => go_on <- body ;; if go_on : bool then for_break n' body else ret tt
  end.

End Machine.

Arguments State W : clear implicits.
Arguments M W A : clear implicits.

(** ** The store operations *)

Section Store.

Context {W : Type} {driver : Driver W}.

(** Modelled from the spec: the [SERIAL] identity that [db.insert] and
    [db.archivePage] of [util/db.js] return (that file is not part of the
    sources at hand; section 6 of the specification gives
    [create_run(...) -> run_id] and [create_page_visit(fields) -> page_id]).
    The identity is one that no row of the table has. *)
Definition fresh_id (ids : list Z) : Z :=
  (1 + fold_right Z.max 0 ids)%Z.

(** Modelled from the spec: [db.insert({table: 'crawl', returning: 'id',
    data})] of [util/db.js]; it appends the row and returns its identity. *)
Definition db_insert_crawl (data : Z -> crawl_row) : M W Z :=
  rows <- get (fun s => crawl_table (db s)) ;;
  let row := data (fresh_id (map id rows)) in
  emit (EvDb (InsertCrawl row)) ;;
  modify (fun s => set_db {| crawl_table := crawl_table (db s) ++ [row];
                             page_table := page_table (db s);
                             request_table := request_table (db s) |} s) ;;
  ret (id row).

Definition name_is (n : string) (r : crawl_row) : bool :=
  match name r with
  | Some m => m =? n
  | None => false
  end.

(** [db.postgres.query('SELECT * FROM crawl WHERE name=$1', [n])]: the
    rows, in table order. *)
Definition select_crawl_by_name (n : string) : M W (list crawl_row) :=
  emit (EvDb (SelectCrawlByName n)) ;;
  get (fun s => filter (name_is n) (crawl_table (db s))).

Definition set_index (i : nat) (r : crawl_row) : crawl_row :=
  {| id := id r; job_id := job_id r; name := name r;
     completed := completed r; crawl_list := crawl_list r;
     crawl_list_current_index := i;
     crawl_list_length := crawl_list_length r;
     profile_id := profile_id r; profile_dir := profile_dir r |}.

Definition set_completed (r : crawl_row) : crawl_row :=
  {| id := id r; job_id := job_id r; name := name r;
     completed := true; crawl_list := crawl_list r;
     crawl_list_current_index := crawl_list_current_index r;
     crawl_list_length := crawl_list_length r;
     profile_id := profile_id r; profile_dir := profile_dir r |}.

Definition update_where (c : Z) (f : crawl_row -> crawl_row)
  (rows : list crawl_row) : list crawl_row :=
  map (fun r => if id r =? c then f r else r)%Z rows.

Definition update_crawl (c : Z) (f : crawl_row -> crawl_row) : M W unit :=
  modify (fun s => set_db {| crawl_table := update_where c f (crawl_table (db s));
                             page_table := page_table (db s);
                             request_table := request_table (db s) |} s).

(** [UPDATE crawl SET crawl_list_current_index=$1 WHERE id=$2]. *)
Definition update_crawl_index (i : nat) (c : Z) : M W unit :=
  emit (EvDb (UpdateCrawlIndex i c)) ;;
  update_crawl c (set_index i).

(** [UPDATE crawl SET completed=TRUE, completed_time=$1 WHERE id=$2]. *)
Definition update_crawl_completed (time : Z) (c : Z) : M W unit :=
  emit (EvDb (UpdateCrawlCompleted time c)) ;;
  update_crawl c set_completed.

(** Modelled from the spec: [db.archivePage] of [util/db.js]; it appends
    the page visit, with neither a resolved url nor an error yet, and
    returns its identity. *)
Definition archivePage (data : Z -> page_row) : M W Z :=
  rows <- get (fun s => page_table (db s)) ;;
  let row := data (fresh_id (map page_id rows)) in
  emit (EvDb (ArchivePage row)) ;;
  modify (fun s => set_db {| crawl_table := crawl_table (db s);
                             page_table := page_table (db s) ++ [row];
                             request_table := request_table (db s) |} s) ;;
  ret (page_id row).

Definition apply_update (u : page_update) (r : page_row) : page_row :=
  {| page_id := page_id r;
     page_timestamp := match u with SetUrl t _ => t | SetError _ => page_timestamp r end;
     page_job_id := page_job_id r; page_crawl_id := page_crawl_id r;
     original_url := original_url r; page_type := page_type r;
     referrer_page := referrer_page r;
     referrer_page_url := referrer_page_url r;
     referrer_ad := referrer_ad r; page_reload := page_reload r;
     page_url := match u with SetUrl _ v => Some v | SetError _ => page_url r end;
     page_error := match u with SetUrl _ _ => page_error r | SetError m => Some m end |}.

(** Modelled from the spec: [db.updatePage(pageId, fields)] of
    [util/db.js]; it sets the given fields of the visit [pageId]. *)
Definition updatePage (pageId : Z) (u : page_update) : M W unit :=
  emit (EvDb (UpdatePage pageId u)) ;;
  modify (fun s => set_db {| crawl_table := crawl_table (db s);
                             page_table := map (fun r => if (page_id r =? pageId)%Z
                                                         then apply_update u r else r)
                                               (page_table (db s));
                             request_table := request_table (db s) |} s).

(** Modelled from the spec: [db.archiveRequest(request)] of [util/db.js];
    it appends the captured request. *)
Definition archiveRequest (r : WebRequest) : M W unit :=
  emit (EvDb (ArchiveRequest r)) ;;
  modify (fun s => set_db {| crawl_table := crawl_table (db s);
                             page_table := page_table (db s);
                             request_table := request_table (db s) ++ [r] |} s).

(** ** Timers and awaited calls *)

(** [new Date()]. *)
Definition now : M W Z :=
  get (fun s => Date_now (world s)).

(** The delay [setTimeout] of the runtime applies: a delay below 1 or
    above 2147483647 (the largest signed 32-bit integer) is set to 1. *)
Definition setTimeout_delay (ms : Z) : Z :=
  if (ms <? 1)%Z || (2147483647 <? ms)%Z then 1%Z else ms.

(** Modelled from the spec: [createAsyncTimeout(message, ms)] of
    [util/timeout.js] (not part of the sources at hand; section 4.2 has the
    driver race each target's work against the timer).  The timer is armed
    by the call, with [setTimeout], and fires after the delay [setTimeout]
    applies for [ms]. *)
Definition createAsyncTimeout (message : string) (ms : Z) : M W Timer :=
  t <- now ;;
  emit (EvSetTimeout message ms t) ;;
  ret {| timer_message := message; fires_at := (t + setTimeout_delay ms)%Z |}.

Definition clearTimeout (t : Timer) : M W unit :=
  emit (EvClearTimeout (timer_message t)).

(** Whether the timer the running task is raced against has fired: the
    task is then abandoned where it stands. *)
Definition expired : M W unit :=
  fun s =>
    match racing s with
    | Some t => if (fires_at t <=? Date_now (world s))%Z
                then (s, Abandoned) else (s, Ok tt)
    | None => (s, Ok tt)
    end.

(** [await Promise.race([task, timer])]: the task runs against the timer;
    when the timer wins, the race rejects with the timer's error. *)
Definition race {A : Type} (task : M W A) (t : Timer) : M W A :=
  fun s =>
    match task (set_racing (Some t) s) with
    | (s', Abandoned) =>
        (set_trace (trace s' ++ [EvTimeout (timer_message t) (Date_now (world s'))])
                   (set_racing (racing s) s'),
         Throw (JsError (timer_message t)))
    | (s', o) => (set_racing (racing s) s', o)
    end.

(** [await call]: the world answers, the clock has moved; a task whose
    timer fired meanwhile is abandoned, otherwise the call returns or
    throws. *)
Definition await {A : Type} (call : W -> W * (exn + A)) : M W A :=
  r <- (fun s => let (w, r) := call (world s) in (set_world w s, Ok r)) ;;
  expired ;;
  match r with
  | inl e => raise e
  | inr a => ret a
  end.

(** [Math.random()]. *)
Definition random : M W Q :=
  fun s => let (w, r) := Math_random (world s) in (set_world w s, Ok r).

(** [randrange] (lines 578-580). *)
Definition randrange (low high : Q) : M W Q :=
  r <- random ;;
  ret (r * (high - low) + low)%Q.

End Store.

(** ** The public address of the crawler *)

(** The lookups of package [public-ip]: each answers an address or
    throws. *)
Class Network (W : Type) : Type := {
  publicIpv4 : W -> W * (exn + string);
  publicIpv6 : W -> W * (exn + string)
}.

(** What [getPublicIp] resolves to: an address, [null], or [undefined]
    when the function ends without a [return]. *)
Inductive PublicIp : Type :=
| Ip (address : string)
| Ip_null
| Ip_undefined.

Section Public_ip.

Context {W : Type} {driver : Driver W} {network : Network W}.

(** [console.log(e)] of a caught exception, recorded by its message. *)
Definition console_log_exn (e : exn) : M W unit :=
  emit (EvLog console_log (exn_message e)).

(** [getPublicIp] (lines 582-600). *)
Definition getPublicIp : M W PublicIp :=
  catch
    (v4 <- await publicIpv4 ;;
     if truthy v4 then ret (Ip v4) else ret Ip_undefined)
    (fun e =>
       console_log_exn e ;;
       catch
         (v6 <- await publicIpv6 ;;
          if truthy v6 then ret (Ip v6) else ret Ip_undefined)
         (fun e' =>
            console_log_exn e' ;;
            ret Ip_null)).

End Public_ip.

(** ** The crawler *)

Section Crawler.

Context {W : Type} {driver : Driver W} {runtime : Runtime}
        {network : Network W}.

(** [globalThis.FLAGS], set once by [setupGlobals]. *)
Variable FLAGS : CrawlerFlags.

(** [page.url()]. *)
Definition page_url_now (page : Page) : M W string :=
  get (fun s => url_of page (world s)).

(** [request.continue(undefined, 0)]. *)
Definition request_continue (request : HTTPRequest) : M W unit :=
  emit (EvContinue request).

(** [new URL(s)], which throws a [TypeError] on a string that is not an
    absolute url. *)
Definition URL_new (s : string) : M W URL :=
  match new_URL s with
  | Some u => ret u
  | None => raise (JsError "Invalid URL")
  end.

(** [request.frame() === page.mainFrame()]. *)
Definition same_frame (f : option Frame) (g : Frame) : bool :=
  match f with
  | Some f' => Nat.eqb f' g
  | None => false
  end.

(** [(e as Error).message] in a template literal. *)
Definition message_of (e : exn) : string :=
  match e with
  | JsError message => message
  | JsThrown _ => "undefined"
  end.

(** The request filter (lines 448-482), a closure over [page] and
    [requests]: [page] is the tab as the handler finds it when called. *)
Definition captureThirdPartyRequests (page : PageView) (request : HTTPRequest)
  : M W unit :=
  catch
    (if negb (captureThirdPartyRequests_enabled (scrapeOptions FLAGS)) then
       (* Exit if request capture is disabled *)
       request_continue request
     else if isNavigationRequest request
             && same_frame (request_frame request) (mainFrame page) then
       (* Exit if request is navigating this tab *)
       request_continue request
     else
       target <- URL_new (request_url request) ;;
       current <- URL_new (view_url page) ;;
       if origin target =? origin current then
         (* Exclude same origin requests *)
         request_continue request
       else
         timestamp <- now ;;
         crawl_id <- get (@CRAWL_ID W) ;;
         modify (fun s => set_requests
           (requests s ++ [{| wr_timestamp := timestamp;
                              wr_job_id := jobId FLAGS;
                              wr_crawl_id := crawl_id;
                              parent_page := (-1)%Z;
                              initiator := view_url page;
                              target_url := request_url request;
                              resource_type := resourceType request |}]) s) ;;
         request_continue request)
    (fun e =>
       log log_warning (view_url page ++ ": Error handling intercepted request: "
                        ++ message_of e) ;;
       request_continue request).

(** [page.on('request', captureThirdPartyRequests)], after
    [let requests = []] (lines 447 and 483): from now on the requests
    intercepted on [page] go through the filter into the new buffer. *)
Definition page_on_request (page : Page) : M W unit :=
  modify (set_requests []) ;;
  emit (EvOn page) ;;
  modify (set_listening (Some page)).

Definition is_listening (page : Page) (l : option Page) : bool :=
  match l with
  | Some p => Nat.eqb p page
  | None => false
  end.

(** The requests intercepted on [page] while an operation ran are handed
    to the filter, if one is installed on that tab. *)
Definition dispatch (page : Page) (c : Completion) : M W unit :=
  l <- get (@listening W) ;;
  when (is_listening page l)
       (for_of (intercepted c)
               (fun rv => captureThirdPartyRequests (snd rv) (fst rv))).

(** The operation runs: the world moves, the requests intercepted
    meanwhile go through the filter; then the [await] returns or throws,
    unless the task has been abandoned. *)
Definition settle (page : Page) (a : action) : M W unit :=
  c <- (fun s => let (w, c) := perform page a (world s) in (set_world w s, Ok c)) ;;
  dispatch page c ;;
  expired ;;
  match result c with
  | inl e => raise e
  | inr _ => ret tt
  end.

(** [await] of an operation on a tab (or of [sleep] while the tab is
    open). *)
Definition page_await (page : Page) (a : action) : M W unit :=
  emit (EvPage page a) ;;
  settle page a.

(** A promise that is rejected and that nothing awaits or handles: the
    runtime raises the rejection as an uncaught exception, and the handler
    that [sourceMapSupport.install()] (line 19) has installed prints the
    error and ends the process with code 1. *)
Definition unhandled_rejection {A : Type} (e : exn) : M W A :=
  log console_error (exn_message e) ;;
  process_exit 1.

(** An operation on a tab that is started and not awaited
    ([seedPage.close()], line 389).  When the operation succeeds its result
    is dropped; when it is rejected, the rejection is unhandled.  The
    runtime raises it once the rejection has arrived, while the program is
    at a later [await]; the embedding ends the process where the operation
    is started. *)
Definition page_start (page : Page) (a : action) : M W unit :=
  emit (EvPage page a) ;;
  c <- (fun s => let (w, c) := perform page a (world s) in (set_world w s, Ok c)) ;;
  dispatch page c ;;
  match result c with
  | inl e => unhandled_rejection e
  | inr _ => ret tt
  end.

(** [await page.evaluate(() => ...)]. *)
Definition page_evaluate (page : Page) (q : probe) : M W Q :=
  emit (EvEvaluate page q) ;;
  await (evaluate page q).

(** [await BROWSER.newPage()]. *)
Definition BROWSER_newPage : M W Page :=
  p <- await newPage ;;
  emit (EvNewPage p) ;;
  ret p.

(** [await subpageExplorer.findArticle(page)] and
    [await subpageExplorer.findHealthRelatedPagesWithAds(page)]. *)
Definition subpageExplorer (f : finder) (page : Page) : M W (option string) :=
  emit (EvFind f page) ;;
  await (explore f page).

Definition Qlt_bool (a b : Q) : bool :=
  negb (Qle_bool b a).

(** The loop of [scrollDownPage] (lines 559-575), by recursion on the
    iterations left, [30 - i]. *)
Fixpoint scroll_loop (left : nat) (page : Page)
  (innerHeight scrollY scrollHeight : Q) : M W unit :=
  match left with
  | O => ret tt
  | S left' =>
      if Qlt_bool (scrollY + innerHeight)%Q scrollHeight then
        (* set a screen position to scroll from *)
        xloc <- randrange (50 # 1) (100 # 1) ;;
        yloc <- randrange (50 # 1) (100 # 1) ;;
        (* Scroll a random amount *)
        ydelta <- randrange (200 # 1) (400 # 1) ;;
        page_await page (MouseMove xloc yloc) ;;
        page_await page (MouseWheel ydelta) ;;
        page_await page (Sleep 1000) ;;
        scrollY' <- page_evaluate page ScrollY ;;
        scroll_loop left' page innerHeight scrollY' scrollHeight
      else ret tt
  end.

(** [scrollDownPage] (lines 552-576). *)
Definition scrollDownPage (page : Page) : M W unit :=
  u <- page_url_now page ;;
  log log_info (u ++ ": Scrolling page from top to bottom") ;;
  innerHeight <- page_evaluate page InnerHeight ;;
  scrollY <- page_evaluate page ScrollY ;;
  scrollHeight <- page_evaluate page ScrollHeight ;;
  scroll_loop 30 page innerHeight scrollY scrollHeight.

Definition with_parent_page (pageId : Z) (r : WebRequest) : WebRequest :=
  {| wr_timestamp := wr_timestamp r; wr_job_id := wr_job_id r;
     wr_crawl_id := wr_crawl_id r; parent_page := pageId;
     initiator := initiator r; target_url := target_url r;
     resource_type := resource_type r |}.

(** The part of [loadAndHandlePage] inside its [try] (lines 445-541). *)
Definition visit (url : string) (page : Page) (metadata : LoadPageMetadata)
  (pageId : Z) : M W Z :=
  (* Set up request interception for capturing third party requests *)
  page_await page (SetRequestInterception true) ;;
  page_on_request page ;;
  page_await page (Goto url PAGE_NAVIGATION_TIMEOUT) ;;
  page_await page (Sleep PAGE_SLEEP_TIME) ;;
  log log_info (url ++ ": Page finished loading") ;;
  (* Try to remove all cookie banners that may block content on the page *)
  page_await page RemoveCookieBanners ;;
  (* Hit "ESC" to try and dismiss any modal popups *)
  page_await page (KeyboardPress "Escape") ;;
  (* Scroll down the page to trigger lazy loading *)
  scrollDownPage page ;;
  (* Scrape the page *)
  (if scrapeSite (scrapeOptions FLAGS) then
     page_await page (ScrapePage pageId (pageType metadata) (referrerAd metadata))
   else
     (* If not scraping the page, update the contents with the real URL. *)
     timestamp <- now ;;
     u <- page_url_now page ;;
     updatePage pageId (SetUrl timestamp u)) ;;
  (* Scrape ads *)
  when (scrapeAds (scrapeOptions FLAGS))
       (page_await page (ScrapeAdsOnPage url (pageType metadata) pageId)) ;;
  (* Save third party requests *)
  when (captureThirdPartyRequests_enabled (scrapeOptions FLAGS))
       (buffered <- get (@requests W) ;;
        log log_info (url ++ ": Saving " ++ show_nat (length buffered)
                      ++ " same-site and cross-site requests") ;;
        for_of buffered (fun request => archiveRequest (with_parent_page pageId request))) ;;
  ret pageId.

(** [loadAndHandlePage] (lines 423-550). *)
Definition loadAndHandlePage (url : string) (page : Page)
  (metadata : LoadPageMetadata) : M W Z :=
  log log_info (url ++ ": Loading page") ;;
  (* Create an initial entry for the page in the database, to be updated
     later with the page contents (or any errors encountered) *)
  timestamp <- now ;;
  crawl_id <- get (@CRAWL_ID W) ;;
  pageId <- archivePage (fun i =>
    {| page_id := i;
       page_timestamp := timestamp;
       page_job_id := jobId FLAGS;
       page_crawl_id := crawl_id;
       original_url := url;
       page_type := pageType metadata;
       referrer_page := referrerPageId metadata;
       referrer_page_url := referrerPageUrl metadata;
       referrer_ad := referrerAd metadata;
       page_reload := reload metadata;
       page_url := None;
       page_error := None |}) ;;
  catch (visit url page metadata pageId)
        (fun e => updatePage pageId (SetError (exn_message e)) ;; raise e).

(** The crawl list, as loaded. *)
Variable inputs : CrawlInputs.

(** Validate crawl list urls (lines 175-184).  The counter [i] is declared
    before the loop and the loop never assigns it. *)
Definition validate : M W unit :=
  let i := 1 in
  for_of (crawlList inputs) (fun url =>
    match new_URL url with
    | Some _ => ret tt
    | None =>
        log log_strError ("Invalid URL in crawl list " ++ crawlListFile inputs
                          ++ " at line " ++ show_nat i ++ ": " ++ url) ;;
        process_exit 1
    end).

(** Line 187, in ms. *)
Definition OVERALL_TIMEOUT : Z :=
  (Z.of_nat (length (crawlList inputs)) * 15 * 60 * 1000)%Z.

(** [createCrawlEntry] (lines 191-209).  The argument of [db.insert] is
    evaluated first, and with it [await getPublicIp()] (line 206): the
    address is looked up, and what the lookups print is printed, before the
    row is inserted.  The address goes to column [crawler_ip], one of the
    columns left out. *)
Definition createCrawlEntry : M W Z :=
  crawler_ip <- getPublicIp ;;
  db_insert_crawl (fun i =>
    {| id := i;
       job_id := jobId FLAGS;
       name := crawlName FLAGS;
       completed := false;
       crawl_list := if truthy (crawlListFile inputs)
                     then Some (crawlListFile inputs) else url_flag FLAGS;
       crawl_list_current_index := 0;
       crawl_list_length := length (crawlList inputs);
       profile_id := profileId FLAGS;
       profile_dir := profileDir (chromeOptions FLAGS) |}).

(** [path.basename] of a column that may be [NULL]: the call throws a
    [TypeError] on a value that is not a string. *)
Definition path_basename (p : option string) : M W string :=
  match p with
  | Some f => ret (basename f)
  | None => raise (JsError "The path argument must be of type string")
  end.

(** The decision to resume or to create the run (lines 211-245); the
    result is [crawlListStartingIndex]. *)
Definition resume_or_create : M W nat :=
  match crawlName FLAGS with
  | Some crawlName =>
      if truthy crawlName then
        (* First, check if crawl with that name exists *)
        prevCrawl <- select_crawl_by_name crawlName ;;
        match prevCrawl with
        | row0 :: _ =>
            if resumeIfAble FLAGS then
              (* Check that the crawl list name is the same *)
              expected <- path_basename (crawl_list row0) ;;
              when (negb (expected =? basename (crawlListFile inputs)))
                   (log console_log
                      ("Crawl list file provided does not the have same name as the original crawl. Expected: "
                       ++ expected ++ ", actual: " ++ basename (crawlListFile inputs)) ;;
                    process_exit 1) ;;
              (* Check that the crawl list length is the same *)
              when (negb (Nat.eqb (crawl_list_length row0) (length (crawlList inputs))))
                   (log console_log
                      ("Crawl list file provided does not the have same number of URLs as the original crawl. Expected: "
                       ++ show_nat (crawl_list_length row0) ++ ", actual: "
                       ++ show_nat (length (crawlList inputs))) ;;
                    process_exit 1) ;;
              (* Check if the crawl is already completed *)
              when (completed row0)
                   (log console_log
                      ("Crawl with name " ++ crawlName ++ " is already completed") ;;
                    process_exit 1) ;;
              (* Then assign the crawl id and starting index *)
              modify (set_CRAWL_ID (id row0)) ;;
              ret (crawl_list_current_index row0)
            else
              c <- createCrawlEntry ;;
              modify (set_CRAWL_ID c) ;;
              ret 0
        | [] =>
            (* If it doesn't exist, then create a new crawl entry with the
               given name *)
            c <- createCrawlEntry ;;
            modify (set_CRAWL_ID c) ;;
            ret 0
        end
      else
        c <- createCrawlEntry ;;
        modify (set_CRAWL_ID c) ;;
        ret 0
  | None =>
      (* If no crawl name is passed, then create a new crawl entry *)
      c <- createCrawlEntry ;;
      modify (set_CRAWL_ID c) ;;
      ret 0
  end.

(** One subpage, visited in a fresh tab, and once more after a reload when
    [refreshPage] is set (lines 329-346 and 355-372). *)
Definition visit_subpage (subpageUrl : string) (pageId : Z) : M W unit :=
  subpage <- BROWSER_newPage ;;
  seed <- get (@seedPage W) ;;
  referrer <- page_url_now seed ;;
  loadAndHandlePage subpageUrl subpage
    {| pageType := SUBPAGE; referrerPageId := Some pageId;
       referrerPageUrl := Some referrer; referrerAd := None; reload := 0 |} ;;
  page_await subpage Close ;;
  when (refreshPage (crawlOptions FLAGS))
       (subpage' <- BROWSER_newPage ;;
        seed' <- get (@seedPage W) ;;
        referrer' <- page_url_now seed' ;;
        loadAndHandlePage subpageUrl subpage'
          {| pageType := SUBPAGE; referrerPageId := Some pageId;
             referrerPageUrl := Some referrer'; referrerAd := None; reload := 1 |} ;;
        page_await subpage' Close).

(** The seed visit (lines 294-305 and 310-320). *)
Definition visit_seed (url : string) (prevAdId : option Z) (reload : Z) : M W Z :=
  seed <- get (@seedPage W) ;;
  if isAdUrlCrawl inputs then
    loadAndHandlePage url seed
      {| pageType := LANDING; referrerPageId := None; referrerPageUrl := None;
         referrerAd := prevAdId; reload := reload |}
  else
    loadAndHandlePage url seed
      {| pageType := MAIN; referrerPageId := None; referrerPageUrl := None;
         referrerAd := None; reload := reload |}.

(** One turn of the loop over pages with ads (lines 353-376); the answer
    is [false] on [break]. *)
Definition find_page_with_ads (url : string) (pageId : Z) : M W bool :=
  seed <- get (@seedPage W) ;;
  urlWithAds <- subpageExplorer FindHealthRelatedPagesWithAds seed ;;
  match urlWithAds with
  | Some found =>
      if truthy found then
        visit_subpage found pageId ;; ret true
      else
        log log_strError (url ++ ": Couldn't find page with ads") ;; ret false
  | None =>
      log log_strError (url ++ ": Couldn't find page with ads") ;; ret false
  end.

(** The work on one crawl list item, inside the inner [try] (lines
    292-377). *)
Definition crawl_work (url : string) (prevAdId : option Z) : M W unit :=
  (* Open the URL and scrape it (if specified) *)
  pageId0 <- visit_seed url prevAdId 0 ;;
  pageId <- (if refreshPage (crawlOptions FLAGS) then
               seed <- get (@seedPage W) ;;
               page_await seed Close ;;
               fresh <- BROWSER_newPage ;;
               modify (set_seedPage fresh) ;;
               visit_seed url prevAdId 1
             else ret pageId0) ;;
  (* Open additional pages (if specified) and scrape them (if specified) *)
  when (findAndCrawlArticlePage (crawlOptions FLAGS))
       (seed <- get (@seedPage W) ;;
        articleUrl <- subpageExplorer FindArticle seed ;;
        match articleUrl with
        | Some found =>
            if truthy found then visit_subpage found pageId
            else log log_strError (url ++ ": Couldn't find article")
        | None => log log_strError (url ++ ": Couldn't find article")
        end) ;;
  for_break (Z.to_nat (findAndCrawlPageWithAds (crawlOptions FLAGS)))
            (find_page_with_ads url pageId).

(** [catch (e: any) { log.error(e, seedPage.url()); }] (lines 378-379 and
    385-386). *)
Definition log_failure (e : exn) : M W unit :=
  seed <- get (@seedPage W) ;;
  context <- page_url_now seed ;;
  log_error e context.

(** The async closure [_crawl] (lines 289-383). *)
Definition _crawl (url : string) (prevAdId : option Z) (urlTimeout : Timer)
  : M W unit :=
  finally
    (catch (crawl_work url prevAdId) log_failure)
    (clearTimeout urlTimeout).

(** The [finally] clause of a turn of the main loop (lines 387-390). *)
Definition persist_and_close (i : nat) : M W unit :=
  crawl_id <- get (@CRAWL_ID W) ;;
  update_crawl_index (i + 1) crawl_id ;;
  seed <- get (@seedPage W) ;;
  page_start seed Close.

(** The body of the main loop, for the item at index [i] (lines 278-390). *)
Definition crawl_item (i : nat) : M W unit :=
  let url := nth i (crawlList inputs) "undefined" in
  let prevAdId := if isAdUrlCrawl inputs
                  then nth_error (crawlListAdIds inputs) i else None in
  (* Set overall timeout for this crawl list item *)
  urlTimeout <- createAsyncTimeout (url ++ ": overall site timeout reached")
                                   OVERALL_TIMEOUT ;;
  fresh <- BROWSER_newPage ;;
  modify (set_seedPage fresh) ;;
  finally
    (catch (race (_crawl url prevAdId urlTimeout) urlTimeout) log_failure)
    (persist_and_close i).

(** Main loop through crawl list, and the completion of the run (lines
    277-392). *)
Definition main_loop (crawlListStartingIndex : nat) : M W unit :=
  for_from (length (crawlList inputs) - crawlListStartingIndex)
           crawlListStartingIndex crawl_item ;;
  time <- now ;;
  crawl_id <- get (@CRAWL_ID W) ;;
  update_crawl_completed time crawl_id.

(** [puppeteerExtra.default.launch] and [BROWSER.version()] (lines
    247-273).  The [SIGINT] handler installed there runs only on an
    external interrupt, which ends the process. *)
Definition launch_browser : M W unit :=
  log log_info "Launching browser..." ;;
  let chromeArgs :=
    "--disable-dev-shm-usage" ::
    match proxyServer (chromeOptions FLAGS) with
    | Some proxy => if truthy proxy then ["--proxy-server=" ++ proxy] else []
    | None => []
    end in
  emit (EvLaunch chromeArgs) ;;
  await (launch chromeArgs) ;;
  v <- await version ;;
  log log_info ("Running " ++ v).

(** [crawl], from the validation of the loaded crawl list on (lines
    175-398).  Lines 95-173 before it check the output directory and read
    the crawl list; they reach neither the store nor the browser. *)
Definition crawl : M W unit :=
  validate ;;
  crawlListStartingIndex <- resume_or_create ;;
  launch_browser ;;
  main_loop crawlListStartingIndex.

End Crawler.

Arguments OVERALL_TIMEOUT inputs : clear implicits.

(** ** Reading the effects *)

(** The seed urls for which a first page visit was recorded: the page
    visits of role seed or landing with reload counter 0. *)
Definition first_visit (e : event) : option string :=
  match e with
  | EvDb (ArchivePage r) =>
      match page_type r with
      | SUBPAGE => None
      | _ => if (page_reload r =? 0)%Z then Some (original_url r) else None
      end
  | _ => None
  end.

Fixpoint pick {A B : Type} (f : A -> option B) (l : list A) : list B :=
  match l with
  | [] => []
  | x :: l' =>
      match f x with
      | Some y => y :: pick f l'
      | None => pick f l'
      end
  end.

Definition attempted (t : list event) : list string :=
  pick first_visit t.

(** The progress writes, [(index, crawl id)], in order. *)
Definition index_update (e : event) : option (nat * Z) :=
  match e with
  | EvDb (UpdateCrawlIndex i c) => Some (i, c)
  | _ => None
  end.

Definition persisted (t : list event) : list (nat * Z) :=
  pick index_update t.

(** The timers armed, [(message, duration)], in order. *)
Definition timer_armed (e : event) : option (string * Z) :=
  match e with
  | EvSetTimeout msg ms _ => Some (msg, ms)
  | _ => None
  end.

Definition armed (t : list event) : list (string * Z) :=
  pick timer_armed t.

(** The timers that fired, by message, in order. *)
Definition timer_fired (e : event) : option string :=
  match e with
  | EvTimeout msg _ => Some msg
  | _ => None
  end.

Definition fired (t : list event) : list string :=
  pick timer_fired t.

(** The discovery attempts for a page with ads. *)
Definition ads_attempt (e : event) : option Page :=
  match e with
  | EvFind FindHealthRelatedPagesWithAds p => Some p
  | _ => None
  end.

Definition ads_attempts (t : list event) : nat :=
  length (pick ads_attempt t).

(** The wheel scrolls issued, by magnitude. *)
Definition wheel (e : event) : option Q :=
  match e with
  | EvPage _ (MouseWheel deltaY) => Some deltaY
  | _ => None
  end.

Definition wheels (t : list event) : list Q :=
  pick wheel t.

(** The requests allowed to proceed. *)
Definition continued (e : event) : option HTTPRequest :=
  match e with
  | EvContinue r => Some r
  | _ => None
  end.

Definition continues (t : list event) : list HTTPRequest :=
  pick continued t.

(** Statements that write to the store, launches of the browser and
    operations on tabs: what must not happen before a pre-flight abort. *)
Definition touches (e : event) : bool :=
  match e with
  | EvDb (SelectCrawlByName _) => false
  | EvDb _ => true
  | EvLaunch _ | EvNewPage _ | EvPage _ _ | EvEvaluate _ _ | EvFind _ _
  | EvOn _ | EvContinue _ => true
  | _ => false
  end.

(** The diagnostics printed. *)
Definition diagnostic (e : event) : option string :=
  match e with
  | EvLog _ msg => Some msg
  | _ => None
  end.

Definition diagnostics (t : list event) : list string :=
  pick diagnostic t.

(** ** A simulated browser and runtime, to run the crawler on *)

Module Sim.

(** Text up to the first slash, and what follows it. *)
Fixpoint until_slash (s : string) : string :=
  match s with
  | EmptyString => EmptyString
  | String c s' => if Ascii.eqb c "/" then EmptyString else String c (until_slash s')
  end.

Definition drop (n : nat) (s : string) : string :=
  substring n (String.length s - n) s.

(** A reading of [new URL]: the schemes [http] and [https] followed by a
    host; the origin is the scheme and the host. *)
Definition parse (s : string) : option URL :=
  if prefix "https://" s then
    match until_slash (drop 8 s) with
    | EmptyString => None
    | host => Some {| origin := "https://" ++ host |}
    end
  else if prefix "http://" s then
    match until_slash (drop 7 s) with
    | EmptyString => None
    | host => Some {| origin := "http://" ++ host |}
    end
  else None.

(** [path.posix.basename]: trailing slashes are dropped, then what
    follows the last slash is kept.  [last_segment acc s] reads [s] with
    the segment under way in [acc]. *)
Fixpoint last_segment (seen current : string) (s : string) : string :=
  match s with
  | EmptyString => match current with EmptyString => seen | _ => current end
  | String c s' =>
      if Ascii.eqb c "/" then
        last_segment (match current with EmptyString => seen | _ => current end)
                     EmptyString s'
      else last_segment seen (current ++ String c EmptyString) s'
  end.

Definition posix_basename (p : string) : string :=
  last_segment "" "" p.

#[export] Instance runtime : Runtime := {|
  new_URL := parse;
  basename := posix_basename
|}.

(** The world: a clock, the tabs opened so far and where each is, the
    urls whose navigation fails, the urls whose navigation is slow (with
    the time it takes), what the next discovery calls answer, the scroll
    position and content height of the documents, the requests every
    navigation triggers, and the state of the random generator. *)
Record World : Type := {
  clock : Z;
  tabs : nat;
  location : list (Page * string);
  broken : list string;
  slow : list (string * Z);
  answers : list (option string);
  scrollY : Q;
  scrollHeight : Q;
  traffic : list HTTPRequest;
  seed : nat
}.

Definition tick (ms : Z) (w : World) : World :=
  {| clock := (clock w + ms)%Z; tabs := tabs w; location := location w;
     broken := broken w; slow := slow w; answers := answers w;
     scrollY := scrollY w; scrollHeight := scrollHeight w;
     traffic := traffic w; seed := seed w |}.

Definition move (p : Page) (url : string) (w : World) : World :=
  {| clock := clock w; tabs := tabs w; location := (p, url) :: location w;
     broken := broken w; slow := slow w; answers := answers w;
     scrollY := 0%Q; scrollHeight := scrollHeight w;
     traffic := traffic w; seed := seed w |}.

Definition scroll (dy : Q) (w : World) : World :=
  {| clock := clock w; tabs := tabs w; location := location w;
     broken := broken w; slow := slow w; answers := answers w;
     scrollY := (scrollY w + dy)%Q; scrollHeight := scrollHeight w;
     traffic := traffic w; seed := seed w |}.

Fixpoint lookup {A : Type} (eq : A -> A -> bool) {B : Type} (k : A)
  (l : list (A * B)) : option B :=
  match l with
  | [] => None
  | (k', v) :: l' => if eq k k' then Some v else lookup eq k l'
  end.

Definition where_is (p : Page) (w : World) : string :=
  match lookup Nat.eqb p (location w) with
  | Some u => u
  | None => "about:blank"
  end.

Definition nothing : Completion :=
  {| intercepted := []; result := inr tt |}.

Definition run_action (p : Page) (a : action) (w : World) : World * Completion :=
  match a with
  | Goto url _ =>
      if existsb (String.eqb url) (broken w) then
        (tick 1000 w,
         {| intercepted := []; result := inl (JsError ("net::ERR_FAILED at " ++ url)) |})
      else
        let took := match lookup String.eqb url (slow w) with
                    | Some ms => ms
                    | None => 1000%Z
                    end in
        (tick took (move p url w),
         {| intercepted :=
              map (fun r => (r, {| view_url := url; mainFrame := p |})) (traffic w);
            result := inr tt |})
  | Sleep ms => (tick ms w, nothing)
  | MouseWheel dy => (scroll dy w, nothing)
  | _ => (w, nothing)
  end.

Definition run_probe (p : Page) (q : probe) (w : World) : World * (exn + Q) :=
  match q with
  | InnerHeight => (w, inr (768 # 1)%Q)
  | ScrollY => (w, inr (scrollY w))
  | ScrollHeight => (w, inr (scrollHeight w))
  end.

Definition discover (f : finder) (p : Page) (w : World)
  : World * (exn + option string) :=
  match answers w with
  | [] => (w, inr None)
  | a :: rest =>
      ({| clock := clock w; tabs := tabs w; location := location w;
          broken := broken w; slow := slow w; answers := rest;
          scrollY := scrollY w; scrollHeight := scrollHeight w;
          traffic := traffic w; seed := seed w |}, inr a)
  end.

Definition open_tab (w : World) : World * (exn + Page) :=
  ({| clock := clock w; tabs := S (tabs w); location := location w;
      broken := broken w; slow := slow w; answers := answers w;
      scrollY := scrollY w; scrollHeight := scrollHeight w;
      traffic := traffic w; seed := seed w |}, inr (tabs w)).

(** A generator that walks through the tenths 0.0, 0.1, ..., 0.9. *)
Definition next_random (w : World) : World * Q :=
  ({| clock := clock w; tabs := tabs w; location := location w;
      broken := broken w; slow := slow w; answers := answers w;
      scrollY := scrollY w; scrollHeight := scrollHeight w;
      traffic := traffic w; seed := S (seed w) |},
   (Z.of_nat (seed w mod 10) # 10)%Q).

#[export] Instance driver : Driver World := {|
  Date_now := clock;
  Math_random := next_random;
  launch := fun _ w => (w, inr tt);
  version := fun w => (w, inr "HeadlessChrome/119.0");
  newPage := open_tab;
  url_of := where_is;
  perform := run_action;
  evaluate := run_probe;
  explore := discover
|}.

(** A world at time 0 with no tab open. *)
Definition world0 : World :=
  {| clock := 0%Z; tabs := 0; location := []; broken := []; slow := [];
     answers := []; scrollY := 0%Q; scrollHeight := (768 # 1)%Q; traffic := [];
     seed := 0 |}.

Definition flags0 : CrawlerFlags :=
  {| jobId := None; crawlName := None; resumeIfAble := false;
     profileId := None; url_flag := None;
     chromeOptions := {| profileDir := None; headless := true;
                         executablePath := None; proxyServer := None |};
     crawlOptions := {| shuffleCrawlList := false; findAndCrawlPageWithAds := 0;
                        findAndCrawlArticlePage := false; refreshPage := false |};
     scrapeOptions := {| scrapeSite := false; scrapeAds := false;
                         screenshotAdsWithContext := false;
                         captureThirdPartyRequests_enabled := true |} |}.

Definition named (n : string) (resume : bool) (f : CrawlerFlags) : CrawlerFlags :=
  {| jobId := jobId f; crawlName := Some n; resumeIfAble := resume;
     profileId := profileId f; url_flag := url_flag f;
     chromeOptions := chromeOptions f; crawlOptions := crawlOptions f;
     scrapeOptions := scrapeOptions f |}.

Definition with_ads (n : Z) (f : CrawlerFlags) : CrawlerFlags :=
  {| jobId := jobId f; crawlName := crawlName f; resumeIfAble := resumeIfAble f;
     profileId := profileId f; url_flag := url_flag f;
     chromeOptions := chromeOptions f;
     crawlOptions := {| shuffleCrawlList := false; findAndCrawlPageWithAds := n;
                        findAndCrawlArticlePage := false; refreshPage := false |};
     scrapeOptions := scrapeOptions f |}.

Definition empty_db : Db :=
  {| crawl_table := []; page_table := []; request_table := [] |}.

(** The process as it starts: nothing logged, no timer pending. *)
Definition start (w : World) (d : Db) : State World :=
  {| world := w; db := d; trace := []; CRAWL_ID := 0%Z; seedPage := 0;
     requests := []; listening := None; racing := None |}.

Definition list_of (file : string) (urls : list string) : CrawlInputs :=
  {| crawlListFile := file; crawlList := urls; crawlListAdIds := [];
     isAdUrlCrawl := false |}.

(** The process once run [c] is created or resumed. *)
Definition running (c : Z) (w : World) (d : Db) : State World :=
  {| world := w; db := d; trace := []; CRAWL_ID := c; seedPage := 0;
     requests := []; listening := None; racing := None |}.

(** A run record as [createCrawlEntry] writes it, at a later index. *)
Definition run_row (c : Z) (n : option string) (file : string)
  (index length : nat) (done : bool) : crawl_row :=
  {| id := c; job_id := None; name := n; completed := done;
     crawl_list := Some file; crawl_list_current_index := index;
     crawl_list_length := length; profile_id := None; profile_dir := None |}.

Definition runs (rows : list crawl_row) : Db :=
  {| crawl_table := rows; page_table := []; request_table := [] |}.

(** Five targets, the second of which cannot be reached. *)
Definition five : CrawlInputs :=
  list_of "/data/list.txt"
    ["https://a.example/"; "https://b.example/"; "https://c.example/";
     "https://d.example/"; "https://e.example/"].

Definition b_down : World :=
  {| clock := 0%Z; tabs := 0; location := []; broken := ["https://b.example/"];
     slow := []; answers := []; scrollY := 0%Q; scrollHeight := (768 # 1)%Q;
     traffic := []; seed := 0 |}.

(** Two targets; loading the first takes longer than the whole budget of
    2 x 15 minutes. *)
Definition two : CrawlInputs :=
  list_of "/data/list.txt" ["https://slow.example/"; "https://fast.example/"].

Definition first_hangs : World :=
  {| clock := 0%Z; tabs := 0; location := []; broken := [];
     slow := [("https://slow.example/", 2000000%Z)]; answers := [];
     scrollY := 0%Q; scrollHeight := (768 # 1)%Q; traffic := []; seed := 0 |}.

(** Three entries, the third of which is not a url. *)
Definition third_invalid : CrawlInputs :=
  list_of "/data/list.txt" ["https://a.example/"; "https://b.example/"; "not a url"].

(** One target, [https://a.example/]. *)
Definition one : CrawlInputs :=
  list_of "/data/list.txt" ["https://a.example/"].

(** A page that never ends: its content is far higher than 30 scrolls. *)
Definition endless : World :=
  {| clock := 0%Z; tabs := 0; location := []; broken := []; slow := [];
     answers := []; scrollY := 0%Q; scrollHeight := (1000000 # 1)%Q;
     traffic := []; seed := 0 |}.

(** Every navigation of tab 0 triggers its own navigation request, a
    script of the same origin and a script of another origin. *)
Definition three_requests : World :=
  {| clock := 0%Z; tabs := 0; location := []; broken := []; slow := [];
     answers := []; scrollY := 0%Q; scrollHeight := (768 # 1)%Q;
     traffic :=
       [{| request_url := "https://a.example/"; resourceType := "document";
           isNavigationRequest := true; request_frame := Some 0 |};
        {| request_url := "https://a.example/x.js"; resourceType := "script";
           isNavigationRequest := false; request_frame := Some 0 |};
        {| request_url := "https://cdn.example/y.js"; resourceType := "script";
           isNavigationRequest := false; request_frame := Some 0 |}];
     seed := 0 |}.

(** The explorer finds a page, then none, then would find another. *)
Definition second_search_empty : World :=
  {| clock := 0%Z; tabs := 0; location := []; broken := []; slow := [];
     answers := [Some "https://a.example/health"; None;
                 Some "https://a.example/more"];
     scrollY := 0%Q; scrollHeight := (768 # 1)%Q; traffic := []; seed := 0 |}.

End Sim.

(** ** Kinds of effects *)

(** What the request filter does: it lets the request through, and logs
    a warning when it failed to classify it. *)
Definition filtering (e : event) : Prop :=
  match e with
  | EvContinue _ | EvLog log_warning _ => True
  | _ => False
  end.

(** What the page pipeline does once the page visit is recorded: logs,
    operations on the tab, the filter letting requests through, and the
    updates of the visit and of its captured requests. *)
Definition pipeline (e : event) : Prop :=
  match e with
  | EvLog log_info _ | EvLog log_warning _ => True
  | EvPage _ _ | EvEvaluate _ _ | EvOn _ | EvContinue _ => True
  | EvDb (UpdatePage _ _) | EvDb (ArchiveRequest _) => True
  | _ => False
  end.

(** The effects of one call of [loadAndHandlePage]: the pipeline, and the
    record of a visit of [url] in the role and with the reload counter of
    the call. *)
Definition visiting (url : string) (metadata : LoadPageMetadata) (e : event) : Prop :=
  match e with
  | EvDb (ArchivePage r) =>
      original_url r = url /\ page_type r = pageType metadata
      /\ page_reload r = reload metadata
  | _ => pipeline e
  end.

(** The effects of the work on one target: anything but arming a timer,
    a timer firing, launching the browser, and statements on table
    [crawl]. *)
Definition quiet (e : event) : Prop :=
  match e with
  | EvSetTimeout _ _ _ | EvTimeout _ _ | EvLaunch _ => False
  | EvDb (SelectCrawlByName _) | EvDb (InsertCrawl _)
  | EvDb (UpdateCrawlIndex _ _) | EvDb (UpdateCrawlCompleted _ _) => False
  | _ => True
  end.

(** The effects of the work on one target after its first page visit is
    recorded. *)
Definition later (e : event) : Prop :=
  quiet e /\ first_visit e = None.

(** The effects of one turn of the main loop after its timer is armed: a
    timer that fires is the one with message [msg]; no other timer is
    armed. *)
Definition in_turn (msg : string) (e : event) : Prop :=
  match e with
  | EvSetTimeout _ _ _ => False
  | EvTimeout m _ => m = msg
  | _ => True
  end.

(** ** The page visit of [loadAndHandlePage] *)

Section Recorded.

Context {W : Type} {driver : Driver W}.
Variable FLAGS : CrawlerFlags.

(** The page visit as [loadAndHandlePage] records it before it touches
    the tab (lines 432-442): neither a resolved url nor an error yet. *)
Definition pending_visit (url : string) (metadata : LoadPageMetadata)
  (s : State W) : page_row :=
  {| page_id := fresh_id (map page_id (page_table (db s)));
     page_timestamp := Date_now (world s);
     page_job_id := jobId FLAGS;
     page_crawl_id := CRAWL_ID s;
     original_url := url;
     page_type := pageType metadata;
     referrer_page := referrerPageId metadata;
     referrer_page_url := referrerPageUrl metadata;
     referrer_ad := referrerAd metadata;
     page_reload := reload metadata;
     page_url := None;
     page_error := None |}.

(** The state once the visit is recorded. *)
Definition recorded (url : string) (metadata : LoadPageMetadata)
  (s : State W) : State W :=
  {| world := world s;
     db := {| crawl_table := crawl_table (db s);
              page_table := page_table (db s) ++ [pending_visit url metadata s];
              request_table := request_table (db s) |};
     trace := (trace s ++ [EvLog log_info (url ++ ": Loading page")])
              ++ [EvDb (ArchivePage (pending_visit url metadata s))];
     CRAWL_ID := CRAWL_ID s; seedPage := seedPage s; requests := requests s;
     listening := listening s; racing := racing s |}.

(** The [catch] clause of [loadAndHandlePage] (lines 542-549). *)
Definition record_error (pageId : Z) (e : exn) : M W Z :=
  updatePage pageId (SetError (exn_message e)) ;; raise e.

End Recorded.

(** The effects of the work on one target while it is raced against the
    timer with message [msg] due at [due]. *)
Definition raced (msg : string) (due : Z) (e : event) : Prop :=
  match e with
  | EvTimeout m t => m = msg /\ (due <= t)%Z
  | _ => later e
  end.

(** ** Assumptions on the world *)

(** The browser opens a tab whenever it is asked to. *)
Definition tabs_open (W : Type) {driver : Driver W} : Prop :=
  forall w : W, exists w' p, newPage w = (w', inr p).

Arguments tabs_open W {driver}.

(** [Math.random()] returns a number from 0 up to, not including, 1. *)
Definition random_unit (W : Type) {driver : Driver W} : Prop :=
  forall w : W, (0 <= snd (Math_random w))%Q /\ (snd (Math_random w) < 1)%Q.

Arguments random_unit W {driver}.

(** ** The claim of one timer shared by all targets *)

(** The message of the timer of the target at index [i]. *)
Definition timeout_message (urls : list string) (i : nat) : string :=
  nth i urls "undefined" ++ ": overall site timeout reached".

(** "Once the shared timer has fired for one target, it has already
    elapsed for all subsequent targets too", read on the effects [t] of a
    run over [urls]. *)
Definition fired_for_all_later (urls : list string) (t : list event) : Prop :=
  forall i j, i < j < length urls ->
    In (timeout_message urls i) (fired t) ->
    In (timeout_message urls j) (fired t).

(** ** How the main loop may stop *)

(** The effects at the end of a turn, after the index is persisted: the
    close of the seed tab, the filter letting requests through, and what
    the runtime prints of a rejection nobody handles. *)
Definition closing (e : event) : Prop :=
  match e with
  | EvLog console_error _ => True
  | _ => pipeline e
  end.

(** The effects [evs] end where the seed tab of the target at index [i]
    is asked for: the timer of the target has just been armed, with
    duration [ms]. *)
Definition stopped_at_tab (urls : list string) (ms : Z) (i : nat)
  (evs : list event) : Prop :=
  exists evs0 t, evs = (evs0 ++ [EvSetTimeout (timeout_message urls i) ms t])%list.

(** The effects [evs] end with the error the runtime prints for a
    rejection that nothing handles, after a tab was asked to close. *)
Definition stopped_at_close (evs : list event) : Prop :=
  exists evs0 p evs1 e,
    evs = (evs0 ++ EvPage p Close :: evs1
                ++ [EvLog console_error (exn_message e)])%list.

(** The browser refuses a tab, with exception [e], in some state of the
    world. *)
Definition tab_refused {W : Type} {driver : Driver W} (e : exn) : Prop :=
  exists w w' : W, newPage w = (w', inl e).

(** The close of some tab is rejected in some state of the world. *)
Definition close_rejected (W : Type) {driver : Driver W} : Prop :=
  exists (p : Page) (w : W) (e : exn), result (snd (perform p Close w)) = inl e.

Arguments close_rejected W {driver}.

(** ** The validation of the crawl list, in the words of the specification *)

Section Validation.

Context {runtime : Runtime}.

(** The first entry that is not a well-formed absolute url, with its line
    number, counting from [line]. *)
Fixpoint first_invalid (line : nat) (urls : list string) : option (nat * string) :=
  match urls with
  | [] => None
  | url :: rest =>
      match new_URL url with
      | Some _ => first_invalid (S line) rest
      | None => Some (line, url)
      end
  end.

End Validation.

(** The diagnostic for an invalid entry of [file] at [line]. *)
Definition invalid_url_diagnostic (file : string) (line : nat) (url : string)
  : string :=
  "Invalid URL in crawl list " ++ file ++ " at line " ++ show_nat line
  ++ ": " ++ url.

(** [find_run_by_name(name) -> run_record?] of the specification, section
    6: the prior run the engine looks at, the first row the query by name
    returns. *)
Definition find_run_by_name (n : string) (d : Db) : option crawl_row :=
  hd_error (filter (name_is n) (crawl_table d)).

(** The effects of a subpage visit: opening tabs, recording visits in
    the role of subpage, and the pipeline. *)
Definition subpage_event (e : event) : Prop :=
  match e with
  | EvNewPage _ => True
  | EvDb (ArchivePage r) => page_type r = SUBPAGE
  | _ => pipeline e
  end.

(** ** Counting effects *)

(** Every run of [c] has at most [n] effects picked by [f], each
    satisfying [ok]. *)
Definition at_most {W : Type} {B : Type} (f : event -> option B) (n : nat)
  (ok : B -> Prop) {A : Type} (c : M W A) : Prop :=
  forall s s' o, c s = (s', o) ->
    exists evs, trace s' = (trace s ++ evs)%list
                /\ length (pick f evs) <= n /\ Forall ok (pick f evs).

(** A scroll magnitude within the range of [randrange(200, 400)]. *)
Definition in_scroll_range (deltaY : Q) : Prop :=
  (200 # 1 <= deltaY)%Q /\ (deltaY <= 400 # 1)%Q.

(** An effect that is not a wheel scroll. *)
Definition wheel_free (e : event) : Prop :=
  wheel e = None.

(** ** The pointer while scrolling *)

(** The position of a pointer move. *)
Definition pointer (e : event) : option (Q * Q) :=
  match e with
  | EvPage _ (MouseMove x y) => Some (x, y)
  | _ => None
  end.

(** A position within the range of the two [randrange(50, 100)]. *)
Definition in_pointer_range (xy : Q * Q) : Prop :=
  ((50 # 1 <= fst xy)%Q /\ (fst xy <= 100 # 1)%Q)
  /\ ((50 # 1 <= snd xy)%Q /\ (snd xy <= 100 # 1)%Q).

(** An effect that is not a pointer move. *)
Definition pointer_free (e : event) : Prop :=
  pointer e = None.

(** ** The life of a run record *)

(** Whether the decision of lines 211-245 takes up a prior run: a crawl
    name is given, resume is enabled and the query by name returns a row. *)
Definition resumes (FLAGS : CrawlerFlags) (d : Db) : bool :=
  match crawlName FLAGS with
  | Some n =>
      truthy n && resumeIfAble FLAGS
      && match find_run_by_name n d with
         | Some _ => true
         | None => false
         end
  | None => false
  end.

(** The run record [createCrawlEntry] inserts into store [d]. *)
Definition new_run (FLAGS : CrawlerFlags) (inputs : CrawlInputs) (d : Db)
  : crawl_row :=
  {| id := fresh_id (map id (crawl_table d));
     job_id := jobId FLAGS;
     name := crawlName FLAGS;
     completed := false;
     crawl_list := if truthy (crawlListFile inputs)
                   then Some (crawlListFile inputs) else url_flag FLAGS;
     crawl_list_current_index := 0;
     crawl_list_length := length (crawlList inputs);
     profile_id := profileId FLAGS;
     profile_dir := profileDir (chromeOptions FLAGS) |}.

(** The query by name, sent when a crawl name is given. *)
Definition lookup_events (FLAGS : CrawlerFlags) : list event :=
  match crawlName FLAGS with
  | Some n => if truthy n then [EvDb (SelectCrawlByName n)] else []
  | None => []
  end.

(** ** What the lookup of the public address leaves behind *)

Section Lookup.

Context {W : Type} {network : Network W}.

(** The exceptions thrown by the lookups of [getPublicIp] from world [w]:
    that of the IPv4 lookup if it throws, and then that of the IPv6 lookup
    if it throws too. *)
Definition lookup_failures (w : W) : list exn :=
  match publicIpv4 w with
  | (_, inr _) => []
  | (w1, inl e) =>
      match publicIpv6 w1 with
      | (_, inr _) => [e]
      | (_, inl e') => [e; e']
      end
  end.

(** What [getPublicIp] prints from world [w]: a [console.log] line for
    each lookup that threw. *)
Definition printed_by_lookup (w : W) : list event :=
  map (fun e => EvLog console_log (exn_message e)) (lookup_failures w).

(** The world after the lookups. *)
Definition after_lookup (w : W) : W :=
  match publicIpv4 w with
  | (w1, inr _) => w1
  | (w1, inl _) => fst (publicIpv6 w1)
  end.

End Lookup.

(** [chromeArgs] (lines 252-255). *)
Definition chromeArgs (FLAGS : CrawlerFlags) : list string :=
  "--disable-dev-shm-usage" ::
  match proxyServer (chromeOptions FLAGS) with
  | Some proxy => if truthy proxy then ["--proxy-server=" ++ proxy] else []
  | None => []
  end.

(** The browser launches and tells its version whenever it is asked to. *)
Definition browser_starts (W : Type) {driver : Driver W} : Prop :=
  (forall args (w : W), exists w', launch args w = (w', inr tt))
  /\ (forall w : W, exists w' v, version w = (w', inr v)).

Arguments browser_starts W {driver}.

(** The timer a piece of work is raced against, if any, has not fired
    when the clock is that of world [w]. *)
Definition in_time {W : Type} {driver : Driver W} (r : option Timer) (w : W) : Prop :=
  match r with
  | Some t => (Date_now w < fires_at t)%Z
  | None => True
  end.

(** Two networks for the simulated browser: one without IPv4
    connectivity, and one whose IPv4 lookup answers the empty string. *)
Module Sim_network.

Definition online : Network Sim.World := {|
  publicIpv4 := fun w => (w, inr "203.0.113.7"%string);
  publicIpv6 := fun w => (w, inr "2001:db8::1"%string)
|}.

Definition v6_only : Network Sim.World := {|
  publicIpv4 := fun w => (w, inl (JsError "Query timed out"));
  publicIpv6 := fun w => (w, inr "2001:db8::1"%string)
|}.

Definition offline : Network Sim.World := {|
  publicIpv4 := fun w => (w, inl (JsError "Query timed out"));
  publicIpv6 := fun w => (w, inl (JsError "Query timed out"))
|}.

Definition empty_v4 : Network Sim.World := {|
  publicIpv4 := fun w => (w, inr ""%string);
  publicIpv6 := fun w => (w, inr "2001:db8::1"%string)
|}.

End Sim_network.

(** ** The crawl list, from the flags (lines 100-173) *)

(** [s.split('\n')]. *)
Definition newline : ascii := "010"%char.

Fixpoint split_lines (s : string) : list string :=
  match s with
  | EmptyString => [EmptyString]
  | String c s' =>
      if Ascii.eqb c newline then EmptyString :: split_lines s'
      else match split_lines s' with
           | l :: ls => String c l :: ls
           | [] => [String c EmptyString]
           end
  end.

Fixpoint contains (c : ascii) (s : string) : bool :=
  match s with
  | EmptyString => false
  | String c' s' => Ascii.eqb c' c || contains c s'
  end.

Module Loading.

(** The flags that only lines 100-173 read. *)
Record ListFlags : Type := {
  outputDir : string;
  adId : option Z;
  urlList : option string;
  adUrlList : option string
}.

(** A row as [csv-parser] hands it to the ['data'] handler: a column
    that the file does not have is [undefined]. *)
Record csv_row : Type := {
  csv_ad_id : option string;
  csv_url : option string
}.

(** The file system, the operating system, the csv reader and the store
    client.  [Number_parseInt] answers [None] for [NaN]. *)
Class Host (W : Type) : Type := {
  fs_existsSync : string -> W -> bool;
  fs_accessSync : string -> W -> exn + unit;
  os_userInfo : W -> exn + string;
  fs_statSync : string -> W -> exn + string;
  fs_readFileSync : string -> W -> exn + string;
  String_trimEnd : string -> string;
  csv_rows : string -> W -> list csv_row;
  Number_parseInt : string -> option Z;
  DbClient_initialize : W -> W * (exn + unit)
}.

(** The four variables that lines 121-124 declare and lines 127-173
    assign. *)
Record Loaded : Type := {
  crawlListFile : string;
  crawlList : list string;
  crawlListAdIds : list (option Z);
  isAdUrlCrawl : bool
}.

(** The promise of lines 153-168 while the rows come in: whether it has
    been rejected, and the two lists so far. *)
Record Reading : Type := {
  rejected : option exn;
  urls : list string;
  adIds : list (option Z)
}.

(** [reject(e)]: the first rejection settles the promise. *)
Definition reject (e : exn) (r : Reading) : Reading :=
  match rejected r with
  | Some _ => r
  | None => {| rejected := Some e; urls := urls r; adIds := adIds r |}
  end.

(** The string of a flag that is truthy: [if (flags.x) { ... flags.x ... }]. *)
Definition given (o : option string) : option string :=
  match o with
  | Some s => if truthy s then Some s else None
  | None => None
  end.

(** Truthiness of a number that may be [undefined]. *)
Definition truthy_number (n : option Z) : bool :=
  match n with
  | Some z => negb (z =? 0)%Z
  | None => false
  end.

(** A row with both columns. *)
Definition complete (data : csv_row) : Prop :=
  truthy_opt (csv_ad_id data) = true /\ truthy_opt (csv_url data) = true.

Section Load.

Context {W : Type} {driver : Driver W} {host : Host W}.

Variable FLAGS : CrawlerFlags.
Variable flags : ListFlags.

(** A synchronous call that reads the world and may throw. *)
Definition sync {A : Type} (call : W -> exn + A) : M W A :=
  fun s =>
    match call (world s) with
    | inl e => (s, Throw e)
    | inr a => (s, Ok a)
    end.

(** Validate arguments (lines 100-116). *)
Definition check_outputDir : M W unit :=
  found <- get (fun s => fs_existsSync (outputDir flags) (world s)) ;;
  when (negb found)
       (log console_log (outputDir flags ++ " is not a valid directory") ;;
        process_exit 1) ;;
  (* Check if output directory is writeable *)
  catch (sync (fs_accessSync (outputDir flags)))
        (fun _ =>
           log console_error (outputDir flags ++ " is not writable") ;;
           log console_log "os.userInfo:" ;;
           user <- sync os_userInfo ;;
           log console_log user ;;
           log console_log ("os.stat " ++ outputDir flags ++ ":") ;;
           stat <- sync (fs_statSync (outputDir flags)) ;;
           log console_log stat ;;
           process_exit 1).

(** The ['data'] handler (lines 156-164).  After a rejection the handler
    goes on; what it pushes for a column that is [undefined] is lost with
    the rejected promise. *)
Definition on_data (data : csv_row) (r : Reading) : Reading :=
  let r1 := if negb (truthy_opt (csv_ad_id data))
            then reject (JsError "ad_id column missing from adUrlList") r
            else r in
  let r2 := if negb (truthy_opt (csv_url data))
            then reject (JsError "url column missing from adUrlList") r1
            else r1 in
  {| rejected := rejected r2;
     urls := urls r2 ++ [match csv_url data with
                         | Some u => u
                         | None => "undefined"
                         end];
     adIds := adIds r2 ++ [match csv_ad_id data with
                           | Some a => Number_parseInt a
                           | None => None
                           end] |}.

(** The promise of lines 153-168, awaited: the rows of the file go
    through the handler; ['end'] resolves the promise unless it has been
    rejected. *)
Definition read_ad_urls (file : string) : M W Reading :=
  rows <- get (fun s => csv_rows file (world s)) ;;
  let r := fold_left (fun r data => on_data data r) rows
                     {| rejected := None; urls := []; adIds := [] |} in
  match rejected r with
  | Some e => raise e
  | None => ret r
  end.

(** Read crawl list from args (lines 120-173). *)
Definition read_crawl_list : M W Loaded :=
  match given (url_flag FLAGS) with
  | Some url =>
      (* Single URL provided *)
      ret {| crawlListFile := "";
             crawlList := [url];
             crawlListAdIds := if truthy_number (adId flags) then [adId flags] else [];
             isAdUrlCrawl := truthy_number (adId flags) |}
  | None =>
      match given (urlList flags) with
      | Some file =>
          (* File containing list of URLs provided *)
          found <- get (fun s => fs_existsSync file (world s)) ;;
          when (negb found)
               (log console_log (file ++ " does not exist.") ;;
                process_exit 1) ;;
          content <- sync (fs_readFileSync file) ;;
          ret {| crawlListFile := file;
                 crawlList :=
                   filter (fun url => Nat.ltb 0 (String.length url))
                          (split_lines (String_trimEnd content));
                 crawlListAdIds := [];
                 isAdUrlCrawl := false |}
      | None =>
          match given (adUrlList flags) with
          | Some file =>
              (* File containing list of ad URLs provided *)
              found <- get (fun s => fs_existsSync file (world s)) ;;
              when (negb found)
                   (log console_log (file ++ " does not exist.") ;;
                    process_exit 1) ;;
              r <- read_ad_urls file ;;
              ret {| crawlListFile := file;
                     crawlList := urls r;
                     crawlListAdIds := adIds r;
                     isAdUrlCrawl := true |}
          | None =>
              log log_strError
                  "Must provide one of the following crawl inputs: url, urlList, or adUrlList" ;;
              process_exit 1
          end
      end
  end.

(** The beginning of [crawl] (lines 100-173): the output directory is
    checked, the store client initialised, the crawl list read. *)
Definition load : M W Loaded :=
  check_outputDir ;;
  await DbClient_initialize ;;
  read_crawl_list.

End Load.

End Loading.

(** A host for the simulated browser: an output directory [/out], a
    directory [/locked] that cannot be written, a list of two urls with a
    blank line between them, and two csv files, the second of which has no
    [ad_id] in its second row. *)
Module Sim_host.

Definition is_space (c : ascii) : bool :=
  Ascii.eqb c newline || Ascii.eqb c " "%char.

Fixpoint trim_end (s : string) : string :=
  match s with
  | EmptyString => EmptyString
  | String c s' =>
      match trim_end s' with
      | EmptyString => if is_space c then EmptyString else String c EmptyString
      | t => String c t
      end
  end.

Definition list_txt : string :=
  "https://a.example/" ++ String newline (String newline
  ("https://b.example/" ++ String newline EmptyString)).

Definition files : list string :=
  ["/out"; "/locked"; "/data/list.txt"; "/data/ads.csv"; "/data/bad.csv"].

Definition host : Loading.Host Sim.World := {|
  Loading.fs_existsSync := fun p _ => existsb (String.eqb p) files;
  Loading.fs_accessSync := fun p _ =>
    if p =? "/locked" then inl (JsError "EACCES: permission denied, access /locked")
    else inr tt;
  Loading.os_userInfo := fun _ => inr "{}";
  Loading.fs_statSync := fun _ _ => inr "{}";
  Loading.fs_readFileSync := fun p _ =>
    if p =? "/data/list.txt" then inr list_txt
    else inl (JsError "EISDIR: illegal operation on a directory, read");
  Loading.String_trimEnd := trim_end;
  Loading.csv_rows := fun p _ =>
    if p =? "/data/ads.csv" then
      [{| Loading.csv_ad_id := Some "17"; Loading.csv_url := Some "https://ad.example/x" |};
       {| Loading.csv_ad_id := Some "18"; Loading.csv_url := Some "https://ad.example/y" |}]
    else
      [{| Loading.csv_ad_id := Some "17"; Loading.csv_url := Some "https://ad.example/x" |};
       {| Loading.csv_ad_id := None; Loading.csv_url := Some "https://ad.example/y" |};
       {| Loading.csv_ad_id := Some "19"; Loading.csv_url := None |}];
  Loading.Number_parseInt := fun s => option_map Z.of_int (NilZero.int_of_string s);
  Loading.DbClient_initialize := fun w => (Sim.tick 5 w, inr tt)
|}.

Definition to_dir (dir : string) : Loading.ListFlags :=
  {| Loading.outputDir := dir; Loading.adId := None;
     Loading.urlList := None; Loading.adUrlList := None |}.

Definition from_list (file : string) : Loading.ListFlags :=
  {| Loading.outputDir := "/out"; Loading.adId := None;
     Loading.urlList := Some file; Loading.adUrlList := Some "/data/ads.csv" |}.

Definition from_ads (file : string) : Loading.ListFlags :=
  {| Loading.outputDir := "/out"; Loading.adId := None;
     Loading.urlList := None; Loading.adUrlList := Some file |}.

End Sim_host.

(** Further cases for the simulated browser: a single url given as flag,
    work that is raced against a timer, a browser that opens no tab and a
    browser that does not launch. *)
Module Sim_cases.

Definition with_url (u : string) (f : CrawlerFlags) : CrawlerFlags :=
  {| jobId := jobId f; crawlName := crawlName f; resumeIfAble := resumeIfAble f;
     profileId := profileId f; url_flag := Some u;
     chromeOptions := chromeOptions f; crawlOptions := crawlOptions f;
     scrapeOptions := scrapeOptions f |}.

(** The crawl list of a single url. *)
Definition single (u : string) : CrawlInputs :=
  {| crawlListFile := ""; crawlList := [u]; crawlListAdIds := [];
     isAdUrlCrawl := false |}.

(** The state of work that is raced against a timer due at [due]. *)
Definition raced_until (due : Z) (s : State Sim.World) : State Sim.World :=
  set_racing (Some {| timer_message := "overall site timeout reached";
                      fires_at := due |}) s.

Definition no_tabs : Driver Sim.World := {|
  Date_now := Sim.clock;
  Math_random := Sim.next_random;
  launch := fun _ w => (w, inr tt);
  version := fun w => (w, inr "HeadlessChrome/119.0");
  newPage := fun w => (w, inl (JsError "Target closed"));
  url_of := Sim.where_is;
  perform := Sim.run_action;
  evaluate := Sim.run_probe;
  explore := Sim.discover
|}.

Definition no_browser : Driver Sim.World := {|
  Date_now := Sim.clock;
  Math_random := Sim.next_random;
  launch := fun _ w => (w, inl (JsError "Failed to launch the browser process"));
  version := fun w => (w, inr "HeadlessChrome/119.0");
  newPage := Sim.open_tab;
  url_of := Sim.where_is;
  perform := Sim.run_action;
  evaluate := Sim.run_probe;
  explore := Sim.discover
|}.

(** A browser whose tabs reject [close]. *)
Definition no_close : Driver Sim.World := {|
  Date_now := Sim.clock;
  Math_random := Sim.next_random;
  launch := fun _ w => (w, inr tt);
  version := fun w => (w, inr "HeadlessChrome/119.0");
  newPage := Sim.open_tab;
  url_of := Sim.where_is;
  perform := fun p a w =>
    match a with
    | Close =>
        (w, {| intercepted := [];
               result := inl (JsError "Protocol error: Connection closed.") |})
    | _ => Sim.run_action p a w
    end;
  evaluate := Sim.run_probe;
  explore := Sim.discover
|}.

(** A browser on documents without end, where every operation succeeds
    and takes a millisecond, the scroll position stays at the top, and the
    explorer finds nothing. *)
Definition still : Driver Sim.World := {|
  Date_now := Sim.clock;
  Math_random := Sim.next_random;
  launch := fun _ w => (w, inr tt);
  version := fun w => (w, inr "HeadlessChrome/119.0");
  newPage := Sim.open_tab;
  url_of := Sim.where_is;
  perform := fun _ _ w => (Sim.tick 1 w, Sim.nothing);
  evaluate := fun _ q w =>
    match q with
    | InnerHeight => (w, inr (768 # 1)%Q)
    | ScrollY => (w, inr 0%Q)
    | ScrollHeight => (w, inr (100000 # 1)%Q)
    end;
  explore := fun _ _ w => (w, inr None)
|}.

End Sim_cases.

(** ** The role of a page visit *)

(** A page visit as the work on a target of an ad-url crawl or of a url
    crawl may record it: a seed visit (role landing page in an ad-url
    crawl, with the ad of the target, and main page otherwise) has no
    referrer page; a subpage visit has one, and no ad; the reload counter
    is 0, or 1 when pages are to be refreshed. *)
Definition in_role (FLAGS : CrawlerFlags) (inputs : CrawlInputs)
  (prevAdId : option Z) (r : page_row) : Prop :=
  (page_reload r = 0%Z
   \/ (page_reload r = 1%Z /\ refreshPage (crawlOptions FLAGS) = true))
  /\ page_job_id r = jobId FLAGS
  /\ match page_type r with
     | MAIN =>
         isAdUrlCrawl inputs = false /\ referrer_page r = None
         /\ referrer_page_url r = None /\ referrer_ad r = None
     | LANDING =>
         isAdUrlCrawl inputs = true /\ referrer_page r = None
         /\ referrer_page_url r = None /\ referrer_ad r = prevAdId
     | SUBPAGE =>
         referrer_page r <> None /\ referrer_page_url r <> None
         /\ referrer_ad r = None
     end.

(** Every page visit recorded satisfies [Q]. *)
Definition stored_as (Q : page_row -> Prop) (e : event) : Prop :=
  match e with
  | EvDb (ArchivePage r) => Q r
  | _ => True
  end.

(** ** The scrape options *)

(** An effect the scrape options allow: the page is scraped only with
    [scrapeSite], and its url recorded by the crawler only without; ads are
    scraped only with [scrapeAds]; requests are saved only with
    [captureThirdPartyRequests]. *)
Definition gated (FLAGS : CrawlerFlags) (e : event) : Prop :=
  match e with
  | EvPage _ (ScrapePage _ _ _) => scrapeSite (scrapeOptions FLAGS) = true
  | EvPage _ (ScrapeAdsOnPage _ _ _) => scrapeAds (scrapeOptions FLAGS) = true
  | EvDb (UpdatePage _ (SetUrl _ _)) => scrapeSite (scrapeOptions FLAGS) = false
  | EvDb (ArchiveRequest _) =>
      captureThirdPartyRequests_enabled (scrapeOptions FLAGS) = true
  | _ => True
  end.

(** ** The iterations of the scroll loop *)

(** The pauses of the scroll loop. *)
Definition pause (e : event) : option Z :=
  match e with
  | EvPage _ (Sleep ms) => Some ms
  | _ => None
  end.

(** The measures of the scroll position. *)
Definition position_probe (e : event) : option Page :=
  match e with
  | EvEvaluate p ScrollY => Some p
  | _ => None
  end.

Section Scroll_iteration.

Context {W : Type} {driver : Driver W} {runtime : Runtime}.
Variable FLAGS : CrawlerFlags.

(** The body of the loop of [scrollDownPage] (lines 560-574): the
    statements of one iteration, which give the new scroll position. *)
Definition scroll_iteration (page : Page) : M W Q :=
  xloc <- randrange (50 # 1) (100 # 1) ;;
  yloc <- randrange (50 # 1) (100 # 1) ;;
  ydelta <- randrange (200 # 1) (400 # 1) ;;
  page_await FLAGS page (MouseMove xloc yloc) ;;
  page_await FLAGS page (MouseWheel ydelta) ;;
  page_await FLAGS page (Sleep 1000) ;;
  page_evaluate page ScrollY.

(** The page never measures at its bottom: the height of the viewport
    and the height of the content are constant, and the scroll position
    plus the height of the viewport always stays below the height of the
    content. *)
Definition never_at_bottom (page : Page) : Prop :=
  exists innerHeight scrollHeight : Q,
    (forall w : W, exists w', evaluate page InnerHeight w = (w', inr innerHeight))
    /\ (forall w : W, exists w', evaluate page ScrollHeight w = (w', inr scrollHeight))
    /\ (forall w : W, exists w' scrollY,
          evaluate page ScrollY w = (w', inr scrollY)
          /\ (scrollY + innerHeight < scrollHeight)%Q).

(** The operations on the page all succeed. *)
Definition responsive (page : Page) : Prop :=
  forall (a : action) (w : W), result (snd (perform page a w)) = inr tt.

(** The timer [r], if any, never fires. *)
Definition never_due (r : option Timer) : Prop :=
  forall w : W, in_time r w.

End Scroll_iteration.

(** ** The search for pages with ads *)

(** The notice that ends the search for pages with ads on the target
    [url] (line 374). *)
Definition no_ads_notice (url : string) : event :=
  EvLog log_strError (url ++ ": Couldn't find page with ads").

(** An effect that is neither a discovery attempt for a page with ads nor
    the notice that ends the search. *)
Definition outside_search (url : string) (e : event) : Prop :=
  ads_attempt e = None /\ e <> no_ads_notice url.

(** The explorer answers a search for a page with ads with no candidate,
    in some state of the world. *)
Definition answered_none (W : Type) {driver : Driver W} : Prop :=
  exists (p : Page) (w w' : W) (answer : option string),
    explore FindHealthRelatedPagesWithAds p w = (w', inr answer)
    /\ truthy_opt answer = false.

Arguments answered_none W {driver}.

(** The explorer never finds a page with ads: every search answers, with
    no candidate. *)
Definition never_finds (W : Type) {driver : Driver W} : Prop :=
  forall (p : Page) (w : W),
    exists w' answer,
      explore FindHealthRelatedPagesWithAds p w = (w', inr answer)
      /\ truthy_opt answer = false.

Arguments never_finds W {driver}.

(** ** Tasks: what any piece of per-target work may do *)

Section Task.

Context {W : Type} {driver : Driver W}.

(** The effects of a run from [s] to [s'] all satisfy [P]. *)
Definition extends (P : event -> Prop) (s s' : State W) : Prop :=
  exists evs, trace s' = (trace s ++ evs)%list /\ Forall P evs.

(** The run record, the run identity and the pending timer are as they
    were, and no page visit has disappeared. *)
Definition kept (s s' : State W) : Prop :=
  crawl_table (db s') = crawl_table (db s)
  /\ CRAWL_ID s' = CRAWL_ID s
  /\ racing s' = racing s
  /\ incl (map page_id (page_table (db s))) (map page_id (page_table (db s'))).

(** A task: its effects satisfy [P], it leaves the run alone, it never
    exits the process, and it is abandoned only once the timer it is raced
    against has fired. *)
Definition task (P : event -> Prop) {A : Type} (c : M W A) : Prop :=
  forall s s' o, c s = (s', o) ->
    extends P s s' /\ kept s s'
    /\ (forall code, o <> Exit code)
    /\ (o = Abandoned ->
        exists t, racing s = Some t /\ (fires_at t <= Date_now (world s'))%Z).

End Task.

(** ** What one page visit may touch *)

(** The effects of the steps of a visit of tab [page] recorded as
    [pageId]: logs, operations on that tab other than closing it, probes
    of that tab, the filter, updates of that visit, and captured requests
    owned by that visit. *)
Definition own_effect (page : Page) (pageId : Z) (e : event) : Prop :=
  match e with
  | EvLog log_info _ | EvLog log_warning _ => True
  | EvPage p a => p = page /\ a <> Close
  | EvEvaluate p _ => p = page
  | EvOn p => p = page
  | EvContinue _ => True
  | EvDb (UpdatePage i _) => i = pageId
  | EvDb (ArchiveRequest r) => parent_page r = pageId
  | _ => False
  end.

(** * Properties *)

Local Open Scope list_scope.

Unset Implicit Arguments.

(** ** Reading effects off a trace *)

Lemma pick_app {A B : Type} (f : A -> option B) (l1 l2 : list A) :
  pick f (l1 ++ l2) = pick f l1 ++ pick f l2.
Proof.
  induction l1 as [|x l1 IH]; simpl; [reflexivity|].
  destruct (f x); simpl; now rewrite IH.
Qed.

Lemma pick_none {A B : Type} (f : A -> option B) (l : list A) :
  Forall (fun x => f x = None) l -> pick f l = [].
Proof.
  induction 1 as [|x l Hx _ IH]; simpl; [reflexivity|].
  now rewrite Hx.
Qed.

(** ** Reasoning about tasks *)

Section Tasks.

Context {W : Type} {driver : Driver W} {runtime : Runtime}.

Lemma extends_refl P (s : State W) : extends P s s.
Proof. exists []. now rewrite app_nil_r. Qed.

Lemma extends_trans P (s1 s2 s3 : State W) :
  extends P s1 s2 -> extends P s2 s3 -> extends P s1 s3.
Proof.
  intros [e1 [H1 F1]] [e2 [H2 F2]]. exists (e1 ++ e2). split.
  - now rewrite H2, H1, app_assoc.
  - now apply Forall_app.
Qed.

Lemma extends_mono (P Q : event -> Prop) (s s' : State W) :
  (forall e, P e -> Q e) -> extends P s s' -> extends Q s s'.
Proof.
  intros HPQ [evs [H F]]. exists evs. split; [assumption|].
  eapply Forall_impl; eauto.
Qed.

Lemma kept_refl (s : State W) : kept s s.
Proof. repeat split; auto using incl_refl. Qed.

Lemma kept_trans (s1 s2 s3 : State W) : kept s1 s2 -> kept s2 s3 -> kept s1 s3.
Proof.
  intros (A1 & B1 & C1 & D1) (A2 & B2 & C2 & D2).
  repeat split; try congruence. eapply incl_tran; eassumption.
Qed.

Lemma bind_run {A B : Type} (c : M W A) (k : A -> M W B) s :
  bind c k s =
  match c s with
  | (s', Ok a) => k a s'
  | (s', Throw e) => (s', Throw e)
  | (s', Exit code) => (s', Exit code)
  | (s', Abandoned) => (s', Abandoned)
  end.
Proof. reflexivity. Qed.

Lemma catch_run {A : Type} (c : M W A) (h : exn -> M W A) s :
  catch c h s =
  match c s with
  | (s', Throw e) => h e s'
  | r => r
  end.
Proof. reflexivity. Qed.

(** Closes the four parts of a [task] goal from what is at hand. *)
Ltac task_parts :=
  refine (conj _ (conj _ (conj _ _)));
  [ eauto using extends_refl, extends_trans, extends_mono
  | eauto using kept_refl, kept_trans
  | try discriminate; auto
  | try discriminate; auto ].

Ltac overdue_via K :=
  let t := fresh "t" in
  let Ht := fresh "Ht" in
  let Hd := fresh "Hd" in
  intros; match goal with
          | T : _ = Abandoned -> exists _, _ |- _ =>
              destruct T as [t [Ht Hd]]; [congruence|];
              exists t; split; [destruct K as (_ & _ & ? & _); congruence | assumption]
          end.

Lemma task_mono (P Q : event -> Prop) {A : Type} (c : M W A) :
  (forall e, P e -> Q e) -> task P c -> task Q c.
Proof.
  intros HPQ Hc s s' o E. destruct (Hc s s' o E) as (X & K & N & T).
  task_parts.
Qed.

Lemma task_ret P {A : Type} (a : A) : task P (ret a : M W A).
Proof. intros s s' o E. inversion E; subst. task_parts. Qed.

Lemma task_raise P {A : Type} (e : exn) : task P (raise e : M W A).
Proof. intros s s' o E. inversion E; subst. task_parts. Qed.

Lemma task_get P {A : Type} (f : State W -> A) : task P (get f).
Proof. intros s s' o E. inversion E; subst. task_parts. Qed.

Lemma task_bind P {A B : Type} (c : M W A) (k : A -> M W B) :
  task P c -> (forall a, task P (k a)) -> task P (bind c k).
Proof.
  intros Hc Hk s s' o E. rewrite bind_run in E.
  destruct (c s) as [s1 o1] eqn:E1.
  destruct (Hc _ _ _ E1) as (X1 & K1 & N1 & T1).
  destruct o1 as [a|e|code| ].
  - destruct (Hk a _ _ _ E) as (X2 & K2 & N2 & T2).
    task_parts. overdue_via K1.
  - inversion E; subst. task_parts.
  - exfalso. now apply (N1 code).
  - inversion E; subst. task_parts.
Qed.

Lemma task_catch P {A : Type} (c : M W A) (h : exn -> M W A) :
  task P c -> (forall e, task P (h e)) -> task P (catch c h).
Proof.
  intros Hc Hh s s' o E. rewrite catch_run in E.
  destruct (c s) as [s1 o1] eqn:E1.
  destruct (Hc _ _ _ E1) as (X1 & K1 & N1 & T1).
  destruct o1 as [a|e|code| ].
  - inversion E; subst. task_parts.
  - destruct (Hh e _ _ _ E) as (X2 & K2 & N2 & T2).
    task_parts. overdue_via K1.
  - exfalso. now apply (N1 code).
  - inversion E; subst. task_parts.
Qed.

Lemma task_finally P {A : Type} (c : M W A) (f : M W unit) :
  task P c -> task P f -> task P (finally c f).
Proof.
  intros Hc Hf s s' o E. unfold finally in E.
  destruct (c s) as [s1 o1] eqn:E1.
  destruct (Hc _ _ _ E1) as (X1 & K1 & N1 & T1).
  destruct o1 as [a|e|code| ].
  - destruct (f s1) as [s2 o2] eqn:E2.
    destruct (Hf _ _ _ E2) as (X2 & K2 & N2 & T2).
    destruct o2 as [u|e2|code2| ]; inversion E; subst; task_parts.
    + exfalso. now apply (N2 code2).
    + overdue_via K1.
  - destruct (f s1) as [s2 o2] eqn:E2.
    destruct (Hf _ _ _ E2) as (X2 & K2 & N2 & T2).
    destruct o2 as [u|e2|code2| ]; inversion E; subst; task_parts.
    + exfalso. now apply (N2 code2).
    + overdue_via K1.
  - exfalso. now apply (N1 code).
  - inversion E; subst. task_parts.
Qed.

Lemma task_emit (P : event -> Prop) (e : event) : P e -> task P (emit e).
Proof.
  intros He s s' o E. inversion E; subst.
  task_parts; [|repeat split; auto using incl_refl].
  exists [e]. split; [reflexivity|]. now constructor.
Qed.

Lemma task_log (P : event -> Prop) f msg : P (EvLog f msg) -> task P (log f msg).
Proof. apply task_emit. Qed.

(** An assignment to a local variable of the closure. *)
Lemma task_assign P (f : State W -> State W) :
  (forall s, trace (f s) = trace s /\ kept s (f s)) -> task P (modify f).
Proof.
  intros Hf s s' o E. inversion E; subst. destruct (Hf s) as [Ht Hk].
  task_parts. exists []. now rewrite app_nil_r.
Qed.

Lemma task_when P (b : bool) (c : M W unit) : task P c -> task P (when b c).
Proof. intros Hc. destruct b; simpl; [assumption | apply task_ret]. Qed.

Lemma task_for_of P {A : Type} (l : list A) (body : A -> M W unit) :
  (forall x, task P (body x)) -> task P (for_of l body).
Proof.
  intros Hb. induction l as [|x l IH]; simpl.
  - apply task_ret.
  - apply task_bind; auto.
Qed.

Lemma task_for_break P (n : nat) (body : M W bool) :
  task P body -> task P (for_break n body).
Proof.
  intros Hb. induction n as [|n IH]; simpl.
  - apply task_ret.
  - apply task_bind; [assumption|]. intros [|]; [assumption | apply task_ret].
Qed.

Lemma task_expired P : task P expired.
Proof.
  intros s s' o E. unfold expired in E.
  destruct (racing s) as [t|] eqn:R.
  - destruct (fires_at t <=? Date_now (world s))%Z eqn:L; inversion E; subst;
      task_parts.
    intros _. exists t. split; [reflexivity|]. now apply Z.leb_le.
  - inversion E; subst. task_parts.
Qed.

(** The world answering a call moves the world only. *)
Lemma task_world P {A : Type} (call : W -> W * A) :
  task P (fun s => let (w, r) := call (world s) in (set_world w s, Ok r)).
Proof.
  intros s s' o E. destruct (call (world s)) as [w r]. inversion E; subst.
  task_parts; try (repeat split; now auto using incl_refl).
  exists []. now rewrite app_nil_r.
Qed.

Lemma task_await P {A : Type} (call : W -> W * (exn + A)) : task P (await call).
Proof.
  unfold await. apply task_bind; [apply task_world|]. intros r.
  apply task_bind; [apply task_expired|]. intros _.
  destruct r; [apply task_raise | apply task_ret].
Qed.

Lemma task_now P : task P now.
Proof. apply task_get. Qed.

Lemma task_random P : task P random.
Proof. unfold random. apply (task_world P Math_random). Qed.

Lemma task_randrange P low high : task P (randrange low high).
Proof.
  unfold randrange. apply task_bind; [apply task_random|]. intros r. apply task_ret.
Qed.

End Tasks.

(** Splits a [task] goal along the structure of the program. *)
Ltac task_step :=
  match goal with
  | |- task _ (bind _ _) => apply task_bind; [|intros]
  | |- task _ (ret _) => apply task_ret
  | |- task _ (raise _) => apply task_raise
  | |- task _ (get _) => apply task_get
  | |- task _ (catch _ _) => apply task_catch; [|intros]
  | |- task _ (finally _ _) => apply task_finally
  | |- task _ (when _ _) => apply task_when
  | |- task _ (for_of _ _) => apply task_for_of; intros
  | |- task _ (for_break _ _) => apply task_for_break
  | |- task _ (await _) => apply task_await
  | |- task _ now => apply task_now
  | |- task _ expired => apply task_expired
  | |- task _ (randrange _ _) => apply task_randrange
  | |- task _ (if ?b then _ else _) => destruct b
  | |- task _ (match ?x with _ => _ end) => destruct x
  end.

(** A state that differs in local variables only. *)
Ltac kept_same := repeat split; simpl; auto using incl_refl.

(** ** The request filter and the operations on a tab are tasks *)

Section Filter.

Context {W : Type} {driver : Driver W} {runtime : Runtime}.
Variable FLAGS : CrawlerFlags.

(** Any class of effects that contains the filter's. *)
Variable P : event -> Prop.
Hypothesis filtering_P : forall e, filtering e -> P e.

Lemma task_request_continue r : task P (request_continue r : M W unit).
Proof. apply task_emit. now apply filtering_P. Qed.

Lemma task_URL_new u : task P (URL_new u : M W URL).
Proof. unfold URL_new. repeat task_step. Qed.

Lemma task_captureThirdPartyRequests page request :
  task P (captureThirdPartyRequests FLAGS page request).
Proof.
  unfold captureThirdPartyRequests.
  repeat first [ apply task_request_continue | apply task_URL_new | task_step ].
  - apply task_assign. intros s. split; [reflexivity | kept_same].
  - apply task_log. now apply filtering_P.
Qed.

Lemma task_dispatch page c : task P (dispatch FLAGS page c).
Proof.
  unfold dispatch. repeat first [ apply task_captureThirdPartyRequests | task_step ].
Qed.

Lemma task_settle page a : task P (settle FLAGS page a).
Proof.
  unfold settle.
  task_step; [apply (task_world P (perform page a))|].
  task_step; [apply task_dispatch|].
  repeat task_step.
Qed.

Lemma task_page_await page a :
  P (EvPage page a) -> task P (page_await FLAGS page a).
Proof.
  intros Ha. unfold page_await.
  task_step; [now apply task_emit | apply task_settle].
Qed.

End Filter.

(** ** The page pipeline is a task *)

Section Pipeline.

Context {W : Type} {driver : Driver W} {runtime : Runtime}.
Variable FLAGS : CrawlerFlags.

(** Any class of effects that contains the pipeline's. *)
Variable P : event -> Prop.
Hypothesis pipeline_P : forall e, pipeline e -> P e.

Lemma filtering_pipeline e : filtering e -> pipeline e.
Proof. destruct e as [[]| | | | | | | | | | | |]; simpl; tauto. Qed.

Lemma kept_set_db (s : State W) (d : Db) :
  crawl_table d = crawl_table (db s) ->
  incl (map page_id (page_table (db s))) (map page_id (page_table d)) ->
  kept s (set_db d s).
Proof. intros Hc Hp. repeat split; assumption. Qed.

Lemma task_updatePage pageId u : task P (updatePage pageId u : M W unit).
Proof.
  unfold updatePage. task_step.
  - apply task_emit. now apply pipeline_P.
  - apply task_assign. intros s. split; [reflexivity|].
    apply kept_set_db; [reflexivity|]. simpl. rewrite map_map.
    erewrite map_ext; [apply incl_refl|]. intros r. simpl.
    now destruct (page_id r =? pageId)%Z.
Qed.

Lemma task_archiveRequest r : task P (archiveRequest r : M W unit).
Proof.
  unfold archiveRequest. task_step.
  - apply task_emit. now apply pipeline_P.
  - apply task_assign. intros s. split; [reflexivity|].
    apply kept_set_db; [reflexivity | apply incl_refl].
Qed.

Lemma task_page_await_in_pipeline page a : task P (page_await FLAGS page a).
Proof.
  apply task_page_await; [|now apply pipeline_P].
  intros e He. now apply pipeline_P, filtering_pipeline.
Qed.

Lemma task_page_evaluate page q : task P (page_evaluate page q : M W Q).
Proof.
  unfold page_evaluate. task_step; [apply task_emit; now apply pipeline_P|].
  apply task_await.
Qed.

Lemma task_page_url_now page : task P (page_url_now page : M W string).
Proof. apply task_get. Qed.

Lemma task_scroll_loop left page innerHeight scrollY scrollHeight :
  task P (scroll_loop FLAGS left page innerHeight scrollY scrollHeight).
Proof.
  revert scrollY. induction left as [|left IH]; intros scrollY; cbn [scroll_loop].
  - apply task_ret.
  - repeat first [ apply IH | apply task_page_await_in_pipeline | apply task_page_evaluate
                 | task_step ].
Qed.

Lemma task_scrollDownPage page : task P (scrollDownPage FLAGS page).
Proof.
  unfold scrollDownPage.
  repeat first [ apply task_scroll_loop | apply task_page_evaluate
               | apply task_page_url_now
               | apply task_log; now apply pipeline_P | task_step ].
Qed.

Lemma task_page_on_request page : task P (page_on_request page : M W unit).
Proof.
  unfold page_on_request. task_step; [|task_step].
  - apply task_assign. intros s. split; [reflexivity | kept_same].
  - apply task_emit. now apply pipeline_P.
  - apply task_assign. intros s. split; [reflexivity | kept_same].
Qed.

Lemma task_visit url page metadata pageId :
  task P (visit FLAGS url page metadata pageId).
Proof.
  unfold visit.
  repeat first [ apply task_page_await_in_pipeline | apply task_page_on_request
               | apply task_scrollDownPage | apply task_updatePage
               | apply task_archiveRequest | apply task_page_url_now
               | apply task_log; now apply pipeline_P | task_step ].
Qed.

End Pipeline.

(** ** The work on one target is a task *)

Section Work.

Context {W : Type} {driver : Driver W} {runtime : Runtime}.
Variable FLAGS : CrawlerFlags.
Variable inputs : CrawlInputs.

Lemma pipeline_visiting url metadata e : pipeline e -> visiting url metadata e.
Proof. destruct e as [| |[]| | | | | | | | | |]; simpl; tauto. Qed.

Lemma pipeline_quiet e : pipeline e -> quiet e.
Proof. destruct e as [[]| |[]| | | | | | | | | |]; simpl; tauto. Qed.

Lemma pipeline_later e : pipeline e -> later e.
Proof.
  intros H. split; [now apply pipeline_quiet|].
  destruct e as [| |[]| | | | | | | | | |]; simpl in *; tauto.
Qed.

Lemma task_archivePage P (data : Z -> page_row) :
  (forall i, P (EvDb (ArchivePage (data i)))) ->
  task P (archivePage data : M W Z).
Proof.
  intros HP. unfold archivePage. task_step; [apply task_get|].
  task_step; [apply task_emit; apply HP|].
  task_step; [|apply task_ret].
  apply task_assign. intros s. split; [reflexivity|].
  apply kept_set_db; [reflexivity|]. simpl. rewrite map_app.
  now apply incl_appl, incl_refl.
Qed.

Lemma task_loadAndHandlePage url page metadata :
  task (visiting url metadata) (loadAndHandlePage FLAGS url page metadata).
Proof.
  unfold loadAndHandlePage.
  task_step; [apply task_log; exact I|].
  task_step; [apply task_now|].
  task_step; [apply task_get|].
  task_step; [apply task_archivePage; intros i; simpl; auto|].
  task_step.
  - apply task_visit, pipeline_visiting.
  - task_step; [apply task_updatePage, pipeline_visiting | apply task_raise].
Qed.

(** A visit that is not the first one of a target. *)
Lemma visiting_later url metadata e :
  pageType metadata = SUBPAGE \/ reload metadata = 1%Z ->
  visiting url metadata e -> later e.
Proof.
  intros Hm. destruct e as [| |[]| | | | | | | | | |];
    try (intros H; apply pipeline_later; exact H).
  intros (_ & Ht & Hr). split; [exact I|]. simpl. rewrite Ht, Hr.
  destruct Hm as [-> | ->]; [reflexivity|]. now destruct (pageType metadata).
Qed.

Lemma task_loadAndHandlePage_later url page metadata :
  pageType metadata = SUBPAGE \/ reload metadata = 1%Z ->
  task later (loadAndHandlePage FLAGS url page metadata).
Proof.
  intros Hm. eapply task_mono; [|apply task_loadAndHandlePage].
  intros e. now apply visiting_later.
Qed.

Lemma task_BROWSER_newPage P :
  (forall p, P (EvNewPage p)) -> task P (BROWSER_newPage : M W Page).
Proof.
  intros HP. unfold BROWSER_newPage. task_step; [apply task_await|].
  task_step; [apply task_emit, HP | apply task_ret].
Qed.

Lemma pipeline_subpage_event e : pipeline e -> subpage_event e.
Proof. destruct e as [| |[]| | | | | | | | | |]; simpl; tauto. Qed.

Lemma subpage_event_later e : subpage_event e -> later e.
Proof.
  destruct e as [| |[]| | | | | | | | | |];
    try (intros H; apply pipeline_later; exact H); simpl; try tauto.
  - intros H. split; [exact I|]. simpl. now rewrite H.
  - intros _. now split.
Qed.

Lemma visiting_subpage url metadata e :
  pageType metadata = SUBPAGE -> visiting url metadata e -> subpage_event e.
Proof.
  intros Hm. destruct e as [| |[]| | | | | | | | | |];
    try (intros H; apply pipeline_subpage_event; exact H).
  intros (_ & Ht & _). simpl. congruence.
Qed.

Lemma task_subpageExplorer f page :
  task later (subpageExplorer f page : M W (option string)).
Proof.
  unfold subpageExplorer. task_step; [apply task_emit; now split | apply task_await].
Qed.

(** Splits a goal about the work on one target. *)
Ltac work_step :=
  lazymatch goal with
  | |- task _ BROWSER_newPage => apply task_BROWSER_newPage; intros ?; now split
  | |- task _ (subpageExplorer _ _) => apply task_subpageExplorer
  | |- task _ (page_url_now _) => apply task_page_url_now; apply pipeline_later
  | |- task _ (page_await _ _ _) => apply task_page_await_in_pipeline; apply pipeline_later
  | |- task _ (loadAndHandlePage _ _ _ _) =>
      apply task_loadAndHandlePage_later; simpl; tauto
  | |- task _ (log _ _) => apply task_log; now split
  | |- task _ (modify _) =>
      apply task_assign; intros ?; split; [reflexivity | kept_same]
  | |- _ => task_step
  end.

(** A subpage visit opens tabs, records visits in the role of subpage
    and runs the pipeline; it asks for no discovery. *)
Lemma task_visit_subpage_events subpageUrl pageId :
  task subpage_event (visit_subpage FLAGS subpageUrl pageId).
Proof.
  unfold visit_subpage.
  repeat lazymatch goal with
         | |- task _ BROWSER_newPage => apply task_BROWSER_newPage; intros ?; exact I
         | |- task _ (page_url_now _) =>
             apply task_page_url_now; apply pipeline_subpage_event
         | |- task _ (page_await _ _ _) =>
             apply task_page_await_in_pipeline; apply pipeline_subpage_event
         | |- task _ (loadAndHandlePage _ _ _ _) =>
             eapply task_mono; [|apply task_loadAndHandlePage];
             intros ?; now apply visiting_subpage
         | |- _ => task_step
         end.
Qed.

Lemma task_visit_subpage subpageUrl pageId :
  task later (visit_subpage FLAGS subpageUrl pageId).
Proof.
  eapply task_mono; [|apply task_visit_subpage_events]. apply subpage_event_later.
Qed.

Lemma task_find_page_with_ads url pageId :
  task later (find_page_with_ads FLAGS url pageId).
Proof.
  unfold find_page_with_ads.
  repeat first [ apply task_visit_subpage | work_step ].
Qed.

Lemma task_visit_seed_again url prevAdId :
  task later (visit_seed FLAGS inputs url prevAdId 1).
Proof. unfold visit_seed. repeat work_step. Qed.

(** The work after the first seed visit (lines 307-377). *)
Lemma task_crawl_work_rest url prevAdId pageId0 :
  task later
    (pageId <- (if refreshPage (crawlOptions FLAGS) then
                  seed <- get (@seedPage W) ;;
                  page_await FLAGS seed Close ;;
                  fresh <- BROWSER_newPage ;;
                  modify (set_seedPage fresh) ;;
                  visit_seed FLAGS inputs url prevAdId 1
                else ret pageId0) ;;
     when (findAndCrawlArticlePage (crawlOptions FLAGS))
          (seed <- get (@seedPage W) ;;
           articleUrl <- subpageExplorer FindArticle seed ;;
           match articleUrl with
           | Some found =>
               if truthy found then visit_subpage FLAGS found pageId
               else log log_strError (url ++ ": Couldn't find article")%string
           | None => log log_strError (url ++ ": Couldn't find article")%string
           end) ;;
     for_break (Z.to_nat (findAndCrawlPageWithAds (crawlOptions FLAGS)))
               (find_page_with_ads FLAGS url pageId)).
Proof.
  repeat lazymatch goal with
         | |- task _ (visit_subpage _ _ _) => apply task_visit_subpage
         | |- task _ (find_page_with_ads _ _ _) => apply task_find_page_with_ads
         | |- task _ (visit_seed _ _ _ _ _) => apply task_visit_seed_again
         | |- _ => work_step
         end.
Qed.

End Work.

(** ** The first page visit of a target *)

Section First_visit.

Context {W : Type} {driver : Driver W} {runtime : Runtime}.
Variable FLAGS : CrawlerFlags.
Variable inputs : CrawlInputs.

(** What a task guarantees of one of its runs. *)
Lemma run_task {P} {A : Type} {c : M W A} (H : task P c) {s s' o} (E : c s = (s', o)) :
  extends P s s' /\ kept s s'
  /\ (forall code, o <> Exit code)
  /\ (o = Abandoned ->
      exists t, racing s = Some t /\ (fires_at t <= Date_now (world s'))%Z).
Proof. exact (H s s' o E). Qed.

Lemma loadAndHandlePage_run url page metadata (s : State W) :
  loadAndHandlePage FLAGS url page metadata s =
  catch (visit FLAGS url page metadata (page_id (pending_visit FLAGS url metadata s)))
        (record_error (page_id (pending_visit FLAGS url metadata s)))
        (recorded FLAGS url metadata s).
Proof. reflexivity. Qed.

Lemma trace_recorded url metadata (s : State W) :
  trace (recorded FLAGS url metadata s) =
  trace s ++ [EvLog log_info (url ++ ": Loading page")%string;
              EvDb (ArchivePage (pending_visit FLAGS url metadata s))].
Proof. simpl. now rewrite <- app_assoc. Qed.

Lemma kept_recorded url metadata (s : State W) :
  kept s (recorded FLAGS url metadata s).
Proof.
  repeat split; simpl; auto. rewrite map_app. apply incl_appl, incl_refl.
Qed.

Lemma task_record_error P pageId e :
  (forall e', pipeline e' -> P e') ->
  task P (record_error pageId e : M W Z).
Proof.
  intros HP. unfold record_error.
  task_step; [now apply task_updatePage | apply task_raise].
Qed.

(** The rest of a visit, from the state in which it is recorded. *)
Lemma task_visit_recorded P url page metadata pageId :
  (forall e', pipeline e' -> P e') ->
  task P (catch (visit FLAGS url page metadata pageId)
                (record_error pageId : exn -> M W Z)).
Proof.
  intros HP. apply task_catch; [now apply task_visit|].
  intros e. now apply task_record_error.
Qed.

(** The work on a target first records a visit of its url, then does
    what a task may do. *)
Lemma crawl_work_run url prevAdId (s s' : State W) o :
  crawl_work FLAGS inputs url prevAdId s = (s', o) ->
  (exists row evs,
     trace s' = trace s ++ EvLog log_info (url ++ ": Loading page")%string
                        :: EvDb (ArchivePage row) :: evs
     /\ first_visit (EvDb (ArchivePage row)) = Some url
     /\ Forall later evs)
  /\ kept s s'
  /\ (forall code, o <> Exit code)
  /\ (o = Abandoned ->
      exists t, racing s = Some t /\ (fires_at t <= Date_now (world s'))%Z).
Proof.
  unfold crawl_work. rewrite bind_run. unfold visit_seed at 1.
  rewrite bind_run. cbn [get].
  set (metadata := if isAdUrlCrawl inputs
                   then {| pageType := LANDING; referrerPageId := None;
                           referrerPageUrl := None; referrerAd := prevAdId;
                           reload := 0 |}
                   else {| pageType := MAIN; referrerPageId := None;
                           referrerPageUrl := None; referrerAd := None;
                           reload := 0 |}).
  assert (Hm : pageType metadata <> SUBPAGE /\ reload metadata = 0%Z)
    by (subst metadata; destruct (isAdUrlCrawl inputs); simpl; split; congruence).
  replace (if isAdUrlCrawl inputs then _ else _)
    with (loadAndHandlePage FLAGS url (seedPage s) metadata)
    by (subst metadata; now destruct (isAdUrlCrawl inputs)).
  destruct (loadAndHandlePage FLAGS url (seedPage s) metadata s) as [s1 o1] eqn:E1.
  rewrite loadAndHandlePage_run in E1.
  destruct (run_task (task_visit_recorded later url (seedPage s) metadata _
                        pipeline_later) E1) as ([evs1 [T1 F1]] & K1 & N1 & A1).
  rewrite trace_recorded in T1.
  pose proof (kept_recorded url metadata s) as K0.
  assert (Hrow : first_visit (EvDb (ArchivePage (pending_visit FLAGS url metadata s)))
                 = Some url).
  { simpl. destruct Hm as [Ht Hr]. rewrite Hr.
    destruct (pageType metadata); simpl; congruence. }
  destruct o1 as [pageId0|e|code| ]; intros E.
  - destruct (run_task (task_crawl_work_rest FLAGS inputs url prevAdId pageId0) E)
      as ([evs2 [T2 F2]] & K2 & N2 & A2).
    refine (conj _ (conj _ (conj N2 _))).
    + exists (pending_visit FLAGS url metadata s), (evs1 ++ evs2).
      split; [|split; [exact Hrow | now apply Forall_app]].
      rewrite T2, T1, <- !app_assoc. reflexivity.
    + eauto using kept_trans.
    + intros Ho. destruct (A2 Ho) as [t [Ht Hd]]. exists t. split; [|assumption].
      destruct K1 as (_ & _ & R1 & _), K0 as (_ & _ & R0 & _). simpl in *. congruence.
  - inversion E; subst. refine (conj _ (conj _ (conj _ _))); try discriminate.
    + exists (pending_visit FLAGS url metadata s), evs1.
      split; [|split; [exact Hrow | assumption]].
      rewrite T1, <- app_assoc. reflexivity.
    + eauto using kept_trans.
  - exfalso. now apply (N1 code).
  - inversion E; subst. refine (conj _ (conj _ (conj _ _))); try discriminate.
    + exists (pending_visit FLAGS url metadata s), evs1.
      split; [|split; [exact Hrow | assumption]].
      rewrite T1, <- app_assoc. reflexivity.
    + eauto using kept_trans.
    + intros _. destruct (A1 eq_refl) as [t [Ht Hd]]. exists t. split; assumption.
Qed.

End First_visit.

(** ** One turn of the main loop *)

Section Turn.

Context {W : Type} {driver : Driver W} {runtime : Runtime}.
Variable FLAGS : CrawlerFlags.
Variable inputs : CrawlInputs.

Lemma later_raced msg due e : later e -> raced msg due e.
Proof. destruct e; simpl; try tauto. intros [[] _]. Qed.

(** [_crawl] absorbs every exception of the work: it ends normally, or is
    abandoned when its timer has fired. *)
Lemma _crawl_run url prevAdId urlTimeout (s s' : State W) o :
  _crawl FLAGS inputs url prevAdId urlTimeout s = (s', o) ->
  (o = Ok tt \/ o = Abandoned)
  /\ (exists row evs,
        trace s' = trace s ++ EvLog log_info (url ++ ": Loading page")%string
                           :: EvDb (ArchivePage row) :: evs
        /\ first_visit (EvDb (ArchivePage row)) = Some url
        /\ Forall later evs)
  /\ kept s s'
  /\ (o = Abandoned ->
      exists t, racing s = Some t /\ (fires_at t <= Date_now (world s'))%Z).
Proof.
  unfold _crawl, finally. rewrite catch_run.
  destruct (crawl_work FLAGS inputs url prevAdId s) as [s1 o1] eqn:E1.
  pose proof E1 as R1. apply crawl_work_run in R1.
  destruct R1 as ((row & evs & T1 & Hrow & F1) & K1 & N1 & A1).
  destruct o1 as [[]|e|code| ].
  - (* the work ends normally *)
    cbn. intros E. inversion E; subst. clear E.
    refine (conj (or_introl eq_refl) (conj _ (conj _ _))); try discriminate.
    + exists row, (evs ++ [EvClearTimeout (timer_message urlTimeout)]).
      split; [|split; [exact Hrow|]].
      * cbn. rewrite T1, <- app_assoc. reflexivity.
      * apply Forall_app. split; [assumption|]. repeat constructor.
    + destruct K1 as (? & ? & ? & ?). repeat split; assumption.
  - (* the work throws: the error is logged *)
    cbn. intros E. inversion E; subst. clear E.
    refine (conj (or_introl eq_refl) (conj _ (conj _ _))); try discriminate.
    + exists row,
        (evs ++ [EvLogError e (url_of (seedPage s1) (world s1));
                 EvClearTimeout (timer_message urlTimeout)]).
      split; [|split; [exact Hrow|]].
      * cbn. rewrite T1, <- !app_assoc. reflexivity.
      * apply Forall_app. split; [assumption|]. repeat constructor.
    + destruct K1 as (? & ? & ? & ?). repeat split; assumption.
  - exfalso. now apply (N1 code).
  - (* the work is abandoned *)
    intros E. inversion E; subst. clear E.
    refine (conj (or_intror eq_refl) (conj _ (conj K1 A1))).
    exists row, evs. repeat split; assumption.
Qed.

(** The request filter never throws and never exits. *)
Lemma captureThirdPartyRequests_ok page request (s s' : State W) o :
  captureThirdPartyRequests FLAGS page request s = (s', o) -> o = Ok tt.
Proof.
  unfold captureThirdPartyRequests, URL_new, request_continue, log, emit, modify.
  rewrite catch_run.
  destruct (captureThirdPartyRequests_enabled (scrapeOptions FLAGS));
    cbn -[String.append]; [|congruence].
  destruct (isNavigationRequest request && same_frame (request_frame request) (mainFrame page));
    cbn -[String.append]; [congruence|].
  destruct (new_URL (request_url request)) as [target|];
    cbn -[String.append]; [|congruence].
  destruct (new_URL (view_url page)) as [current|];
    cbn -[String.append]; [|congruence].
  destruct (origin target =? origin current)%string; cbn -[String.append]; congruence.
Qed.

Lemma for_of_ok {A : Type} (l : list A) (body : A -> M W unit) :
  (forall x s s' o, body x s = (s', o) -> o = Ok tt) ->
  forall s s' o, for_of l body s = (s', o) -> o = Ok tt.
Proof.
  intros Hb. induction l as [|x l IH]; intros s s' o; cbn [for_of].
  - cbn. congruence.
  - rewrite bind_run. destruct (body x s) as [s1 o1] eqn:E1.
    rewrite (Hb _ _ _ _ E1). apply IH.
Qed.

Lemma dispatch_ok page c (s s' : State W) o :
  dispatch FLAGS page c s = (s', o) -> o = Ok tt.
Proof.
  unfold dispatch. rewrite bind_run. cbn [get].
  destruct (is_listening page (listening s)); cbn [when].
  - apply for_of_ok. intros [r v] s1 s2 o1. apply captureThirdPartyRequests_ok.
  - cbn. congruence.
Qed.

(** The un-awaited close: the tab is asked to close and the requests
    intercepted meanwhile go through the filter; the process goes on if
    the close succeeds, and ends with code 1 if it is rejected. *)
Lemma page_start_run page a (s s' : State W) o :
  page_start FLAGS page a s = (s', o) ->
  exists fs,
    Forall filtering fs /\ kept s s'
    /\ ((o = Ok tt
         /\ result (snd (perform page a (world s))) = inr tt
         /\ trace s' = trace s ++ EvPage page a :: fs)
        \/ (exists e,
              o = Exit 1%Z
              /\ result (snd (perform page a (world s))) = inl e
              /\ trace s' = trace s ++ EvPage page a :: fs
                                    ++ [EvLog console_error (exn_message e)])).
Proof.
  unfold page_start. cbn [bind Monad_M emit modify world set_trace].
  destruct (perform page a (world s)) as [w c]. cbn [snd].
  destruct (dispatch FLAGS page c
              (set_world w (set_trace (trace s ++ [EvPage page a]) s)))
    as [s2 o2] eqn:E2.
  pose proof (dispatch_ok _ _ _ _ _ E2) as ->.
  destruct (run_task (task_dispatch FLAGS filtering (fun e H => H) page c) E2)
    as ([fs [T F]] & (KT & KC & KR & KP) & _ & _).
  cbn in T, KT, KC, KR, KP.
  destruct (result c) as [e|[]] eqn:Er.
  - unfold unhandled_rejection, log, emit, modify, process_exit.
    cbn [bind Monad_M]. intros E. inversion E; subst. clear E.
    exists fs. split; [assumption|]. split; [repeat split; assumption|].
    right. exists e. repeat split.
    cbn [trace set_trace]. rewrite T, <- !app_assoc. reflexivity.
  - intros E. inversion E; subst. clear E.
    exists fs. split; [assumption|]. split; [repeat split; assumption|].
    left. repeat split. rewrite T, <- app_assoc. reflexivity.
Qed.

Lemma log_failure_run e (s : State W) :
  log_failure e s =
  (set_trace (trace s ++ [EvLogError e (url_of (seedPage s) (world s))]) s, Ok tt).
Proof. reflexivity. Qed.

Lemma clearTimeout_run t (s : State W) :
  clearTimeout t s = (set_trace (trace s ++ [EvClearTimeout (timer_message t)]) s, Ok tt).
Proof. reflexivity. Qed.

Lemma filtering_closing e : filtering e -> closing e.
Proof. destruct e as [[]| | | | | | | | | | | |]; simpl; tauto. Qed.

(** The [finally] clause of a turn persists the next index and asks the
    seed tab to close; the process ends there if the close is rejected. *)
Lemma persist_and_close_run i (s s' : State W) o :
  persist_and_close FLAGS i s = (s', o) ->
  exists evs,
    trace s' = trace s ++ EvDb (UpdateCrawlIndex (i + 1) (CRAWL_ID s)) :: evs
    /\ Forall closing evs
    /\ racing s' = racing s /\ CRAWL_ID s' = CRAWL_ID s
    /\ crawl_table (db s') =
       update_where (CRAWL_ID s) (set_index (i + 1)) (crawl_table (db s))
    /\ ((o = Ok tt
         /\ result (snd (perform (seedPage s) Close (world s))) = inr tt)
        \/ (o = Exit 1%Z
            /\ close_rejected W
            /\ stopped_at_close (EvDb (UpdateCrawlIndex (i + 1) (CRAWL_ID s)) :: evs))).
Proof.
  unfold persist_and_close.
  cbn [bind Monad_M get update_crawl_index update_crawl emit modify].
  intros E. apply page_start_run in E.
  destruct E as (fs & F & (KT & KC & KR & _) & Ho).
  cbn in KT, KC, KR, Ho.
  destruct Ho as [(-> & Hr & T) | (e & -> & Hr & T)]; cbn in T.
  - exists (EvPage (seedPage s) Close :: fs).
    split; [rewrite T, <- app_assoc; reflexivity|].
    split; [constructor; [exact I|]; eapply Forall_impl; [|exact F];
            apply filtering_closing|].
    repeat split; try assumption. left. now split.
  - exists (EvPage (seedPage s) Close :: fs ++ [EvLog console_error (exn_message e)]).
    split; [rewrite T, <- app_assoc; reflexivity|].
    split.
    { constructor; [exact I|]. apply Forall_app. split.
      - eapply Forall_impl; [|exact F]. apply filtering_closing.
      - now repeat constructor. }
    repeat split; try assumption. right. split; [reflexivity|].
    split; [now exists (seedPage s), (world s), e|].
    now exists [EvDb (UpdateCrawlIndex (i + 1) (CRAWL_ID s))], (seedPage s), fs, e.
Qed.

Lemma createAsyncTimeout_run msg ms (s : State W) :
  createAsyncTimeout msg ms s =
  (set_trace (trace s ++ [EvSetTimeout msg ms (Date_now (world s))]) s,
   Ok {| timer_message := msg;
         fires_at := (Date_now (world s) + setTimeout_delay ms)%Z |}).
Proof. reflexivity. Qed.

Lemma BROWSER_newPage_run (s : State W) w p :
  racing s = None -> newPage (world s) = (w, inr p) ->
  BROWSER_newPage s = (set_trace (trace s ++ [EvNewPage p]) (set_world w s), Ok p).
Proof.
  intros R N. unfold BROWSER_newPage, await.
  cbn [bind Monad_M]. rewrite N. cbn. unfold expired. cbn. rewrite R. reflexivity.
Qed.

Lemma BROWSER_newPage_fails (s : State W) w e :
  racing s = None -> newPage (world s) = (w, inl e) ->
  BROWSER_newPage s = (set_world w s, Throw e).
Proof.
  intros R N. unfold BROWSER_newPage, await.
  cbn [bind Monad_M]. rewrite N. cbn. unfold expired. cbn. rewrite R. reflexivity.
Qed.

Lemma stopped_at_close_app pre evs :
  stopped_at_close evs -> stopped_at_close (pre ++ evs).
Proof.
  intros (evs0 & p & fs & e & ->). exists (pre ++ evs0), p, fs, e.
  now rewrite <- app_assoc.
Qed.

Lemma stopped_at_tab_app urls ms i pre evs :
  stopped_at_tab urls ms i evs -> stopped_at_tab urls ms i (pre ++ evs).
Proof.
  intros (evs0 & t & ->). exists (pre ++ evs0), t. now rewrite <- app_assoc.
Qed.

(** One turn of the main loop, from a state with no timer pending.  The
    turn arms its timer and asks for the seed tab.  If the tab does not
    open, the exception leaves the turn, with nothing else done.  If it
    opens, the turn records the first visit and works; whatever the work
    does, throws or is abandoned for, the turn then persists the next index
    and asks the tab to close: it ends normally, or, if that close is
    rejected, the process ends with code 1. *)
Lemma crawl_item_run i (s : State W) :
  racing s = None ->
  let url := nth i (crawlList inputs) "undefined"%string in
  let msg := (url ++ ": overall site timeout reached")%string in
  let armed := EvSetTimeout msg (OVERALL_TIMEOUT inputs) (Date_now (world s)) in
  (exists w e,
     newPage (world s) = (w, inl e)
     /\ crawl_item FLAGS inputs i s =
        (set_world w (set_trace (trace s ++ [armed]) s), Throw e))
  \/ (exists s' o p row evs1 evs2,
        crawl_item FLAGS inputs i s = (s', o)
        /\ trace s' =
           trace s ++ armed
                   :: EvNewPage p
                   :: EvLog log_info (url ++ ": Loading page")%string
                   :: EvDb (ArchivePage row)
                   :: evs1 ++ EvDb (UpdateCrawlIndex (i + 1) (CRAWL_ID s)) :: evs2
        /\ first_visit (EvDb (ArchivePage row)) = Some url
        /\ Forall (raced msg (Date_now (world s)
                              + setTimeout_delay (OVERALL_TIMEOUT inputs))) evs1
        /\ Forall closing evs2
        /\ racing s' = None /\ CRAWL_ID s' = CRAWL_ID s
        /\ crawl_table (db s') =
           update_where (CRAWL_ID s) (set_index (i + 1)) (crawl_table (db s))
        /\ (o = Ok tt
            \/ (o = Exit 1%Z
                /\ close_rejected W
                /\ stopped_at_close
                     (EvDb (UpdateCrawlIndex (i + 1) (CRAWL_ID s)) :: evs2)))).
Proof.
  intros R url msg armed. unfold crawl_item. fold url. fold msg.
  rewrite bind_run, createAsyncTimeout_run. fold armed.
  set (timer := {| timer_message := msg;
                   fires_at := (Date_now (world s)
                                + setTimeout_delay (OVERALL_TIMEOUT inputs))%Z |}).
  set (s1 := set_trace _ s).
  destruct (newPage (world s1)) as [w [e|p]] eqn:Hp.
  { left. exists w, e. split; [exact Hp|].
    rewrite bind_run, (BROWSER_newPage_fails s1 w e R Hp). reflexivity. }
  right.
  rewrite bind_run, (BROWSER_newPage_run s1 w p R Hp).
  rewrite bind_run. cbn [modify].
  set (s3 := set_seedPage p _).
  unfold finally. rewrite catch_run. unfold race.
  destruct (_crawl FLAGS inputs url _ timer (set_racing (Some timer) s3))
    as [s4 o4] eqn:E4.
  pose proof E4 as R4. apply _crawl_run in R4.
  destruct R4 as (Ho & (row & evs & T4 & Hrow & F4) & (KT & KC & KR & _) & A4).
  cbn in T4, KT, KC, KR.
  destruct Ho as [-> | ->].
  - (* the work ended before the timer *)
    set (s5 := set_racing (racing s3) s4).
    destruct (persist_and_close FLAGS i s5) as [s6 o6] eqn:E6.
    pose proof E6 as R6. apply persist_and_close_run in R6.
    destruct R6 as (evs2 & T6 & F6 & R6 & C6 & D6 & Ho6).
    cbn in T6, R6, C6, D6, Ho6.
    assert (Hrun : (let (s'', o) := (s6, o6) in
                    match o with
                    | Ok _ => (s'', Ok tt)
                    | Throw e => (s'', Throw e)
                    | Exit code => (s'', Exit code)
                    | Abandoned => (s'', Abandoned)
                    end) = (s6, o6)).
    { destruct Ho6 as [[-> _] | [-> _]]; reflexivity. }
    exists s6, o6, p, row, evs, evs2. rewrite Hrun.
    split; [reflexivity|].
    split; [rewrite T6, T4, KC; rewrite <- !app_assoc; reflexivity|].
    split; [exact Hrow|].
    split; [eapply Forall_impl; [|exact F4]; intros e; apply later_raced|].
    split; [exact F6|].
    split; [congruence|]. split; [congruence|]. split; [congruence|].
    rewrite KC in Ho6. destruct Ho6 as [[-> _] | (-> & Hc & Hstop)]; [now left|].
    right. now repeat split.
  - (* the timer fired: the race rejects, the rejection is logged *)
    destruct (A4 eq_refl) as (t & Ht & Hd). cbn in Ht. inversion Ht; subst t.
    rewrite log_failure_run.
    set (s5 := set_trace _ (set_trace _ (set_racing (racing s3) s4))).
    destruct (persist_and_close FLAGS i s5) as [s6 o6] eqn:E6.
    pose proof E6 as R6. apply persist_and_close_run in R6.
    destruct R6 as (evs2 & T6 & F6 & R6 & C6 & D6 & Ho6).
    cbn in T6, R6, C6, D6, Ho6.
    assert (Hrun : (let (s'', o) := (s6, o6) in
                    match o with
                    | Ok _ => (s'', Ok tt)
                    | Throw e => (s'', Throw e)
                    | Exit code => (s'', Exit code)
                    | Abandoned => (s'', Abandoned)
                    end) = (s6, o6)).
    { destruct Ho6 as [[-> _] | [-> _]]; reflexivity. }
    exists s6, o6, p, row,
      (evs ++ [EvTimeout msg (Date_now (world s4));
               EvLogError (JsError msg) (url_of (seedPage s4) (world s4))]), evs2.
    rewrite Hrun.
    split; [reflexivity|].
    split; [rewrite T6, T4, KC; rewrite <- !app_assoc; reflexivity|].
    split; [exact Hrow|].
    split.
    { apply Forall_app. split.
      - eapply Forall_impl; [|exact F4]. intros e. apply later_raced.
      - repeat constructor. exact Hd. }
    split; [exact F6|].
    split; [congruence|]. split; [congruence|]. split; [congruence|].
    rewrite KC in Ho6. destruct Ho6 as [[-> _] | (-> & Hc & Hstop)]; [now left|].
    right. now repeat split.
Qed.

End Turn.

(** ** The main loop *)

Section Main_loop.

Context {W : Type} {driver : Driver W} {runtime : Runtime}.
Variable FLAGS : CrawlerFlags.
Variable inputs : CrawlInputs.

Lemma raced_silent {B : Type} (f : event -> option B) msg due evs :
  (forall e, raced msg due e -> f e = None) ->
  Forall (raced msg due) evs -> pick f evs = [].
Proof.
  intros Hf F. apply pick_none. eapply Forall_impl; [|exact F]. exact Hf.
Qed.

Lemma raced_first_visit msg due e : raced msg due e -> first_visit e = None.
Proof. destruct e; simpl; try tauto; intros [_ H]; exact H. Qed.

Lemma raced_index_update msg due e : raced msg due e -> index_update e = None.
Proof. destruct e as [| |[]| | | | | | | | | |]; simpl; try tauto; intros [[] _]. Qed.

Lemma raced_timer_armed msg due e : raced msg due e -> timer_armed e = None.
Proof. destruct e; simpl; try tauto; intros [[] _]. Qed.

Lemma raced_in_turn msg due e : raced msg due e -> in_turn msg e.
Proof. destruct e; simpl; try tauto. intros [[] _]. Qed.

Lemma update_where_again c i j rows :
  update_where c (set_index j) (update_where c (set_index i) rows) =
  update_where c (set_index j) rows.
Proof.
  unfold update_where. rewrite map_map. apply map_ext. intros r.
  destruct (id r =? c)%Z eqn:E; simpl; rewrite E; reflexivity.
Qed.

Lemma update_where_same c i rows :
  (forall r, In r rows -> id r = c -> crawl_list_current_index r = i) ->
  update_where c (set_index i) rows = rows.
Proof.
  intros H. unfold update_where. rewrite <- (map_id rows) at 2.
  apply map_ext_in. intros r Hr. destruct (id r =? c)%Z eqn:E; [|reflexivity].
  apply Z.eqb_eq in E. rewrite <- (H r Hr E). now destruct r.
Qed.

Lemma closing_silent {B : Type} (f : event -> option B) evs :
  (forall e, closing e -> f e = None) ->
  Forall closing evs -> pick f evs = [].
Proof.
  intros Hf F. apply pick_none. eapply Forall_impl; [|exact F]. exact Hf.
Qed.

Lemma closing_first_visit e : closing e -> first_visit e = None.
Proof. destruct e as [[]| |[]| | | | | | | | | |]; simpl; tauto. Qed.

Lemma closing_index_update e : closing e -> index_update e = None.
Proof. destruct e as [[]| |[]| | | | | | | | | |]; simpl; tauto. Qed.

Lemma closing_timer_armed e : closing e -> timer_armed e = None.
Proof. destruct e as [[]| |[]| | | | | | | | | |]; simpl; tauto. Qed.

Lemma closing_in_turn msg e : closing e -> in_turn msg e.
Proof. destruct e as [[]| |[]| | | | | | | | | |]; simpl; tauto. Qed.

(** What one finished turn adds to the first visits and to the persisted
    indices. *)
Lemma turn_picks i c url msg ms t p row evs1 evs2 due rest :
  first_visit (EvDb (ArchivePage row)) = Some url ->
  Forall (raced msg due) evs1 -> Forall closing evs2 ->
  attempted (EvSetTimeout msg ms t
             :: EvNewPage p
             :: EvLog log_info (url ++ ": Loading page")%string
             :: EvDb (ArchivePage row)
             :: evs1 ++ EvDb (UpdateCrawlIndex (i + 1) c) :: evs2 ++ rest)
  = url :: attempted rest
  /\ persisted (EvSetTimeout msg ms t
                :: EvNewPage p
                :: EvLog log_info (url ++ ": Loading page")%string
                :: EvDb (ArchivePage row)
                :: evs1 ++ EvDb (UpdateCrawlIndex (i + 1) c) :: evs2 ++ rest)
     = (i + 1, c) :: persisted rest
  /\ armed (EvSetTimeout msg ms t
            :: EvNewPage p
            :: EvLog log_info (url ++ ": Loading page")%string
            :: EvDb (ArchivePage row)
            :: evs1 ++ EvDb (UpdateCrawlIndex (i + 1) c) :: evs2 ++ rest)
     = (msg, ms) :: armed rest.
Proof.
  intros Hrow F1 F2.
  assert (Hrow' : index_update (EvDb (ArchivePage row)) = None
                  /\ timer_armed (EvDb (ArchivePage row)) = None) by now split.
  destruct Hrow' as [Hrow1 Hrow2].
  unfold attempted, persisted, armed.
  remember (EvDb (ArchivePage row)) as visit0.
  cbn [pick first_visit index_update timer_armed].
  rewrite Hrow, Hrow1, Hrow2.
  rewrite !pick_app. cbn [pick first_visit index_update timer_armed].
  rewrite !pick_app.
  rewrite (raced_silent first_visit _ _ _ (raced_first_visit _ _) F1).
  rewrite (raced_silent index_update _ _ _ (raced_index_update _ _) F1).
  rewrite (raced_silent timer_armed _ _ _ (raced_timer_armed _ _) F1).
  rewrite (closing_silent first_visit _ closing_first_visit F2).
  rewrite (closing_silent index_update _ closing_index_update F2).
  rewrite (closing_silent timer_armed _ closing_timer_armed F2).
  repeat split.
Qed.

(** [n] turns of the main loop from index [i], from a state with no timer
    pending.  Some number [m] of turns is finished: each has recorded the
    first visit of its target and persisted the next index, in list order.
    The loop ends normally only after all [n]; it ends with an exception
    only where the seed tab of the next target is refused, and with
    [process.exit] only by the rejected close of a seed tab. *)
Lemma for_from_run n : forall i (s : State W),
  racing s = None ->
  exists s' o evs m,
    for_from n i (crawl_item FLAGS inputs) s = (s', o)
    /\ trace s' = trace s ++ evs
    /\ m <= n
    /\ attempted evs
       = map (fun j => nth j (crawlList inputs) "undefined"%string) (seq i m)
    /\ persisted evs = map (fun j => (j + 1, CRAWL_ID s)) (seq i m)
    /\ CRAWL_ID s' = CRAWL_ID s
    /\ crawl_table (db s') =
       match m with
       | O => crawl_table (db s)
       | S _ => update_where (CRAWL_ID s) (set_index (i + m)) (crawl_table (db s))
       end
    /\ match o with
       | Ok _ =>
           m = n /\ racing s' = None
           /\ armed evs = map (fun j => (timeout_message (crawlList inputs) j,
                                         OVERALL_TIMEOUT inputs)) (seq i n)
       | Throw e =>
           m < n /\ tab_refused e
           /\ stopped_at_tab (crawlList inputs) (OVERALL_TIMEOUT inputs) (i + m) evs
       | Exit code =>
           code = 1%Z /\ 0 < m /\ close_rejected W /\ stopped_at_close evs
       | Abandoned => False
       end
    /\ (0 < n ->
        exists evs', evs = EvSetTimeout (timeout_message (crawlList inputs) i)
                                        (OVERALL_TIMEOUT inputs)
                                        (Date_now (world s)) :: evs').
Proof.
  induction n as [|n IH]; intros i s R.
  - exists s, (Ok tt), [], 0. cbn. rewrite app_nil_r.
    repeat split; try reflexivity; try assumption. lia.
  - cbn [for_from]. rewrite bind_run.
    destruct (crawl_item_run FLAGS inputs i s R)
      as [(w & e & Hp & E1)
         |(s1 & o1 & p & row & evs1 & evs2 & E1 & T1 & Hrow & F1 & F2 & R1 & C1 & D1 & Ho)].
    + rewrite E1. eexists. exists (Throw e). eexists. exists 0.
      split; [reflexivity|]. cbn [trace set_trace set_world].
      split; [reflexivity|]. split; [lia|].
      repeat split; try lia.
      * now exists (world s), w.
      * rewrite Nat.add_0_r. now exists [], (Date_now (world s)).
      * now eexists.
    + rewrite E1. destruct Ho as [-> | (-> & Hc & Hstop)].
      * destruct (IH (S i) s1 R1)
          as (s2 & o2 & evs & m & E2 & T2 & Hm & A2 & P2 & C2 & D2 & Ho2 & _).
        pose proof (turn_picks i (CRAWL_ID s) _ _ (OVERALL_TIMEOUT inputs)
                      (Date_now (world s)) p row evs1 evs2 _ evs Hrow F1 F2)
          as (HA & HP & HM).
        exists s2, o2. eexists. exists (S m).
        split; [exact E2|].
        split.
        { rewrite T2, T1.
          repeat first [rewrite <- app_assoc | progress cbn [app]].
          reflexivity. }
        split; [lia|].
        split; [rewrite HA, A2; reflexivity|].
        split; [rewrite HP, P2, C1; reflexivity|].
        split; [congruence|].
        split.
        { rewrite D2, D1, C1. destruct m as [|m].
          - now rewrite Nat.add_1_r.
          - rewrite update_where_again. f_equal. f_equal. lia. }
        split; [|intros _; now eexists].
        destruct o2 as [[]|e2|code|].
        -- destruct Ho2 as (-> & R2 & M2).
           repeat split; [assumption|]. rewrite HM, M2. reflexivity.
        -- destruct Ho2 as (Hlt & Hr & Hstop).
           split; [lia|]. split; [exact Hr|].
           replace (i + S m) with (S i + m) by lia.
           destruct Hstop as (evs0 & t & ->).
           eexists (_ :: _ :: _ :: _ :: evs1 ++ _ :: evs2 ++ evs0), t.
           repeat first [rewrite <- app_assoc | progress cbn [app]].
           reflexivity.
        -- destruct Ho2 as (-> & Hpos & Hc & Hstop).
           repeat split; [lia | exact Hc |].
           destruct Hstop as (evs0 & p0 & fs & e0 & ->).
           eexists (_ :: _ :: _ :: _ :: evs1 ++ _ :: evs2 ++ evs0), p0, fs, e0.
           repeat first [rewrite <- app_assoc | progress cbn [app]].
           reflexivity.
        -- exact Ho2.
      * pose proof (turn_picks i (CRAWL_ID s) _ _ (OVERALL_TIMEOUT inputs)
                      (Date_now (world s)) p row evs1 evs2 _ [] Hrow F1 F2)
          as (HA & HP & _).
        rewrite app_nil_r in HA, HP.
        exists s1, (Exit 1%Z). eexists. exists 1.
        split; [reflexivity|]. split; [exact T1|]. split; [lia|].
        split; [rewrite HA; reflexivity|].
        split; [rewrite HP; reflexivity|].
        split; [exact C1|].
        split; [rewrite D1; reflexivity|].
        split; [|intros _; now eexists].
        repeat split; [lia | exact Hc |].
        destruct Hstop as (evs0 & p0 & fs & e0 & Heq). rewrite Heq.
        eexists (_ :: _ :: _ :: _ :: evs1 ++ evs0), p0, fs, e0.
        repeat first [rewrite <- app_assoc | progress cbn [app]].
        reflexivity.
Qed.

(** With a browser that opens tabs and closes them, the turns all end
    normally. *)
Lemma for_from_completes n i (s : State W) :
  tabs_open W -> ~ close_rejected W -> racing s = None ->
  exists s', for_from n i (crawl_item FLAGS inputs) s = (s', Ok tt).
Proof.
  intros Htabs Hclose R.
  destruct (for_from_run n i s R) as (s' & o & evs & m & E & _ & _ & _ & _ & _ & _ & Ho & _).
  destruct o as [[]|e|code|].
  - now exists s'.
  - exfalso. destruct Ho as (_ & (w & w' & Hw) & _).
    destruct (Htabs w) as (w2 & p & Hp). congruence.
  - exfalso. now destruct Ho as (_ & _ & Hc & _).
  - contradiction.
Qed.

(** The main loop from index [start], from a state with no timer pending:
    the turns of [for_from_run], and on a normal end the completion of the
    run. *)
Lemma main_loop_run start (s : State W) :
  racing s = None ->
  exists s' o evs m,
    main_loop FLAGS inputs start s = (s', o)
    /\ trace s' = trace s ++ evs
    /\ m <= length (crawlList inputs) - start
    /\ attempted evs
       = map (fun j => nth j (crawlList inputs) "undefined"%string) (seq start m)
    /\ persisted evs = map (fun j => (j + 1, CRAWL_ID s)) (seq start m)
    /\ (start < length (crawlList inputs) ->
        exists evs', evs = EvSetTimeout (timeout_message (crawlList inputs) start)
                                        (OVERALL_TIMEOUT inputs)
                                        (Date_now (world s)) :: evs')
    /\ match o with
       | Ok _ =>
           m = length (crawlList inputs) - start
           /\ (exists time,
                 evs <> []
                 /\ last evs (EvDb (UpdateCrawlCompleted time (CRAWL_ID s)))
                    = EvDb (UpdateCrawlCompleted time (CRAWL_ID s)))
           /\ crawl_table (db s') =
              update_where (CRAWL_ID s) set_completed
                match m with
                | O => crawl_table (db s)
                | S _ => update_where (CRAWL_ID s) (set_index (start + m))
                                      (crawl_table (db s))
                end
       | Throw e =>
           m < length (crawlList inputs) - start /\ tab_refused e
           /\ stopped_at_tab (crawlList inputs) (OVERALL_TIMEOUT inputs)
                             (start + m) evs
           /\ crawl_table (db s') =
              match m with
              | O => crawl_table (db s)
              | S _ => update_where (CRAWL_ID s) (set_index (start + m))
                                    (crawl_table (db s))
              end
       | Exit code =>
           code = 1%Z /\ 0 < m /\ close_rejected W /\ stopped_at_close evs
           /\ crawl_table (db s') =
              update_where (CRAWL_ID s) (set_index (start + m)) (crawl_table (db s))
       | Abandoned => False
       end.
Proof.
  intros R.
  destruct (for_from_run (length (crawlList inputs) - start) start s R)
    as (s1 & o1 & evs & m & E1 & T1 & Hm & A1 & P1 & C1 & D1 & Ho & Hfirst).
  unfold main_loop. rewrite bind_run, E1.
  destruct o1 as [[]|e|code|].
  - destruct Ho as (-> & R1 & _).
    cbn [bind Monad_M now get update_crawl_completed update_crawl emit modify].
    eexists. exists (Ok tt).
    exists (evs ++ [EvDb (UpdateCrawlCompleted (Date_now (world s1)) (CRAWL_ID s1))]).
    exists (length (crawlList inputs) - start).
    split; [reflexivity|]. cbn [trace set_trace set_db db crawl_table].
    split; [rewrite T1, <- app_assoc; reflexivity|]. split; [lia|].
    unfold attempted, persisted in *. rewrite !pick_app, A1, P1.
    cbn [pick first_visit index_update]. rewrite !app_nil_r.
    split; [reflexivity|]. split; [reflexivity|].
    split.
    { intros Hlt. destruct Hfirst as [evs' ->]; [lia|]. now eexists. }
    split; [reflexivity|]. split.
    + exists (Date_now (world s1)). rewrite C1. split.
      * now destruct evs.
      * apply last_last.
    + rewrite C1, D1. reflexivity.
  - destruct Ho as (Hlt & Hr & Hstop).
    exists s1, (Throw e), evs, m.
    split; [reflexivity|]. split; [exact T1|]. split; [lia|].
    split; [exact A1|]. split; [exact P1|].
    split; [intros H; apply Hfirst; lia|].
    now repeat split.
  - destruct Ho as (-> & Hpos & Hc & Hstop).
    exists s1, (Exit 1%Z), evs, m.
    split; [reflexivity|]. split; [exact T1|]. split; [lia|].
    split; [exact A1|]. split; [exact P1|].
    split; [intros H; apply Hfirst; lia|].
    repeat split; try assumption.
    rewrite D1. destruct m; [lia | reflexivity].
  - contradiction.
Qed.

Lemma in_update_where c f rows r' :
  In r' (update_where c f rows) ->
  exists r, In r rows /\ r' = (if (id r =? c)%Z then f r else r).
Proof.
  unfold update_where. rewrite in_map_iff. intros (r & <- & Hr). now exists r.
Qed.

Lemma ids_update_where c f rows :
  (forall r, id (f r) = id r) ->
  map id (update_where c f rows) = map id rows.
Proof.
  intros Hf. unfold update_where. rewrite map_map. apply map_ext. intros r.
  now destruct (id r =? c)%Z.
Qed.

Lemma nth_seq_firstn {A : Type} (l : list A) (d : A) i m :
  m <= length l - i ->
  map (fun j => nth j l d) (seq i m) = firstn m (skipn i l).
Proof.
  revert i m. induction l as [|x l IH]; intros i m H; simpl in H.
  - assert (m = 0) by lia. subst. rewrite skipn_nil. reflexivity.
  - destruct i as [|i].
    + cbn [skipn]. destruct m as [|m]; [reflexivity|].
      cbn [seq map firstn nth]. f_equal.
      rewrite <- seq_shift, map_map. cbn [nth].
      rewrite (IH 0 m) by lia. reflexivity.
    + cbn [skipn]. rewrite <- (IH i m) by lia.
      rewrite <- seq_shift, map_map. reflexivity.
Qed.


(** C4, as the code has it.  The duration is computed once, as the
    number of targets times 15 minutes; but the timer is not shared: every
    turn of the main loop arms a timer of its own when it begins, with
    that full duration; within the turn, however it ends, no other timer
    is armed, and a timer that fires is the turn's own. *)
Theorem timer_armed_anew_each_turn i (s : State W) :
  racing s = None ->
  OVERALL_TIMEOUT inputs = (Z.of_nat (length (crawlList inputs)) * (15 * 60 * 1000))%Z
  /\ exists s' o evs,
       crawl_item FLAGS inputs i s = (s', o)
       /\ trace s' =
          trace s ++ EvSetTimeout (timeout_message (crawlList inputs) i)
                                  (OVERALL_TIMEOUT inputs) (Date_now (world s))
                  :: evs
       /\ Forall (in_turn (timeout_message (crawlList inputs) i)) evs.
Proof.
  intros R. split; [unfold OVERALL_TIMEOUT; lia|].
  destruct (crawl_item_run FLAGS inputs i s R)
    as [(w & e & Hp & E1)
       |(s1 & o1 & p & row & evs1 & evs2 & E1 & T1 & _ & F1 & F2 & _)].
  - eexists. exists (Throw e), []. split; [exact E1|].
    split; [reflexivity | constructor].
  - exists s1, o1. eexists. split; [exact E1|]. split; [exact T1|].
    repeat (constructor; [exact I|]).
    apply Forall_app. split.
    + eapply Forall_impl; [|exact F1]. intros e. apply raced_in_turn.
    + constructor; [exact I|].
      eapply Forall_impl; [|exact F2]. intros e. apply closing_in_turn.
Qed.

End Main_loop.

(** ** The run record and the public address *)

Section Run_record.

Context {W : Type} {driver : Driver W} {runtime : Runtime} {network : Network W}.
Variable FLAGS : CrawlerFlags.
Variable inputs : CrawlInputs.

Lemma await_run {A : Type} (call : W -> W * (exn + A)) (s : State W) :
  racing s = None ->
  await call s =
  (set_world (fst (call (world s))) s,
   match snd (call (world s)) with
   | inl e => Throw e
   | inr a => Ok a
   end).
Proof.
  intros R. unfold await, expired. cbn [bind Monad_M].
  destruct (call (world s)) as [w [e|a]]; cbn; rewrite R; reflexivity.
Qed.

(** With no timer pending, [getPublicIp] resolves; it leaves the world of
    the lookups and the lines they printed, and nothing else. *)
Lemma getPublicIp_run (s : State W) :
  racing s = None ->
  exists ip,
    getPublicIp s =
    (set_trace (trace s ++ printed_by_lookup (world s))
               (set_world (after_lookup (world s)) s),
     Ok ip).
Proof.
  intros R. unfold getPublicIp, printed_by_lookup, lookup_failures, after_lookup.
  rewrite catch_run, bind_run, (await_run _ s R).
  destruct (publicIpv4 (world s)) as [w1 [e|v4]] eqn:E4; cbn [fst snd].
  - rewrite bind_run. unfold console_log_exn at 1, emit at 1, modify at 1. cbv beta iota.
    rewrite catch_run, bind_run, await_run by exact R.
    cbn [world set_world set_trace].
    destruct (publicIpv6 w1) as [w2 [e'|v6]] eqn:E6; cbn [fst snd map].
    + exists Ip_null. destruct s. cbn. now rewrite <- app_assoc.
    + exists (if truthy v6 then Ip v6 else Ip_undefined).
      destruct s. now destruct (truthy v6).
  - exists (if truthy v4 then Ip v4 else Ip_undefined).
    destruct s. cbn. rewrite app_nil_r. now destruct (truthy v4).
Qed.

(** The creation of the run record, with no timer pending: the address is
    looked up, then the record is inserted and the run takes its
    identity. *)
Lemma createCrawlEntry_run (s : State W) :
  racing s = None ->
  exists s',
    (c <- createCrawlEntry FLAGS inputs ;; modify (set_CRAWL_ID c) ;; ret 0) s
    = (s', Ok 0)
    /\ trace s' = trace s ++ printed_by_lookup (world s)
                          ++ [EvDb (InsertCrawl (new_run FLAGS inputs (db s)))]
    /\ crawl_table (db s') = crawl_table (db s) ++ [new_run FLAGS inputs (db s)]
    /\ CRAWL_ID s' = id (new_run FLAGS inputs (db s))
    /\ world s' = after_lookup (world s) /\ racing s' = None.
Proof.
  intros R. destruct (getPublicIp_run s R) as [ip E].
  unfold createCrawlEntry. rewrite !bind_run, E.
  eexists. split; [reflexivity|].
  cbn [trace set_trace set_db set_CRAWL_ID set_world db crawl_table CRAWL_ID
       world racing].
  rewrite <- app_assoc. now repeat split.
Qed.

(** Unless a prior run is taken up, the decision creates the run record. *)
Lemma resume_or_create_creates (s : State W) :
  racing s = None ->
  resumes FLAGS (db s) = false ->
  exists s',
    resume_or_create FLAGS inputs s = (s', Ok 0)
    /\ trace s' = trace s ++ lookup_events FLAGS
                          ++ printed_by_lookup (world s)
                          ++ [EvDb (InsertCrawl (new_run FLAGS inputs (db s)))]
    /\ crawl_table (db s') = crawl_table (db s) ++ [new_run FLAGS inputs (db s)]
    /\ CRAWL_ID s' = id (new_run FLAGS inputs (db s))
    /\ world s' = after_lookup (world s) /\ racing s' = None.
Proof.
  intros R.
  unfold resumes, resume_or_create, lookup_events, find_run_by_name, select_crawl_by_name.
  destruct (crawlName FLAGS) as [n|] eqn:Hname;
    [destruct (truthy n) eqn:Htruthy|];
    [|intros _; cbv beta iota; exact (createCrawlEntry_run s R) ..].
  cbn [andb]. rewrite bind_run.
  cbn [bind Monad_M emit modify get db set_trace].
  set (s0 := set_trace (trace s ++ [EvDb (SelectCrawlByName n)]) s).
  assert (R0 : racing s0 = None) by exact R.
  destruct (createCrawlEntry_run s0 R0) as (s' & E & T & D & C & Wd & R').
  subst s0. cbn [trace set_trace db world] in T, D, C, Wd.
  destruct (filter (name_is n) (crawl_table (db s))) as [|row0 rest] eqn:Hrows;
    cbn [hd_error]; [|destruct (resumeIfAble FLAGS); [discriminate|]];
    intros _; exists s'; (split; [exact E|]);
    rewrite T, <- app_assoc; now repeat split.
Qed.

Lemma launch_browser_run (s : State W) :
  browser_starts W -> racing s = None ->
  exists s' v,
    launch_browser FLAGS s = (s', Ok tt)
    /\ trace s' = trace s ++ [EvLog log_info "Launching browser...";
                              EvLaunch (chromeArgs FLAGS);
                              EvLog log_info ("Running " ++ v)%string]
    /\ db s' = db s /\ CRAWL_ID s' = CRAWL_ID s /\ racing s' = None.
Proof.
  intros [Hl Hv] R. unfold launch_browser. fold (chromeArgs FLAGS).
  unfold await, log, expired.
  cbn [bind Monad_M emit modify get world set_trace set_world racing trace].
  destruct (Hl (chromeArgs FLAGS) (world s)) as [w1 E1]. rewrite E1.
  cbn [bind Monad_M ret world set_world set_trace racing]. rewrite R.
  cbn [bind Monad_M ret world set_world set_trace racing].
  destruct (Hv w1) as (w2 & v & E2). rewrite E2.
  cbn [bind Monad_M ret world set_world set_trace racing]. rewrite R.
  cbn [bind Monad_M ret world set_world set_trace racing].
  eexists. exists v. split; [reflexivity|].
  cbn [trace set_trace set_world db CRAWL_ID racing].
  rewrite <- !app_assoc. now repeat split.
Qed.

Lemma launch_browser_fails (s : State W) w e :
  racing s = None -> launch (chromeArgs FLAGS) (world s) = (w, inl e) ->
  launch_browser FLAGS s =
  (set_world w (set_trace ((trace s ++ [EvLog log_info "Launching browser..."])
                           ++ [EvLaunch (chromeArgs FLAGS)]) s),
   Throw e).
Proof.
  intros R E. unfold launch_browser. fold (chromeArgs FLAGS).
  unfold await, log, expired.
  cbn [bind Monad_M emit modify get world set_trace set_world racing trace].
  rewrite E. cbn [bind Monad_M ret world set_world set_trace racing]. rewrite R.
  reflexivity.
Qed.

End Run_record.

(** ** Validation, and the decision to resume or to create the run *)

Section Preflight.

Context {W : Type} {driver : Driver W} {runtime : Runtime} {network : Network W}.
Variable FLAGS : CrawlerFlags.
Variable inputs : CrawlInputs.

Lemma for_of_validate file (urls : list string) line (s : State W) :
  for_of urls (fun url =>
    match new_URL url with
    | Some _ => ret tt
    | None =>
        log log_strError (invalid_url_diagnostic file 1 url) ;;
        process_exit 1
    end) s =
  match first_invalid line urls with
  | None => (s, Ok tt)
  | Some (_, url) =>
      (set_trace (trace s ++ [EvLog log_strError (invalid_url_diagnostic file 1 url)]) s,
       Exit 1%Z)
  end.
Proof.
  revert line. induction urls as [|url urls IH]; intros line; cbn [for_of first_invalid].
  - reflexivity.
  - rewrite bind_run. destruct (new_URL url); [apply IH | reflexivity].
Qed.

(** The validation passes on a list of well-formed urls; on the first
    entry that is not one, it prints a diagnostic and exits with code 1.
    The line it names is always 1. *)
Lemma validate_run (s : State W) :
  validate inputs s =
  match first_invalid 1 (crawlList inputs) with
  | None => (s, Ok tt)
  | Some (_, url) =>
      (set_trace (trace s ++ [EvLog log_strError
                                (invalid_url_diagnostic (crawlListFile inputs) 1 url)]) s,
       Exit 1%Z)
  end.
Proof. unfold validate. apply for_of_validate. Qed.

Lemma fold_max_ge ids i : In i ids -> (i <= fold_right Z.max 0 ids)%Z.
Proof.
  induction ids as [|j ids IH]; simpl; [tauto|].
  intros [-> | H]; [lia | specialize (IH H); lia].
Qed.

Lemma fresh_id_fresh ids : ~ In (fresh_id ids) ids.
Proof. intros H. apply fold_max_ge in H. unfold fresh_id in H. lia. Qed.

Lemma find_run_rows n (d : Db) prior :
  find_run_by_name n d = Some prior ->
  exists rest, filter (name_is n) (crawl_table d) = prior :: rest.
Proof.
  unfold find_run_by_name. destruct (filter _ _) as [|r rest]; simpl; [discriminate|].
  intros H. inversion H. now exists rest.
Qed.

(** C2. Resume: with a crawl name, resume enabled, and a prior run of
    that name that is not completed and whose list-file basename and list
    length match the inputs, the engine takes the prior run's identity,
    returns the prior run's stored current index [k] as the starting
    index, and writes nothing to the store.  The crawl, on a valid list and
    with a browser that starts, then launches the browser and begins at
    index [k]: the first thing it does is to arm the timer of the target at
    index [k]; the first page visits recorded are those of the targets from
    index [k] on, in list order, each followed by the update of the prior
    run's index to the next one, the first being [k + 1]; it ends normally
    only after all of them; and the table of runs has the records it had:
    none is created. *)
Theorem resume_at_stored_index (s : State W) n prior file :
  crawlName FLAGS = Some n -> truthy n = true -> resumeIfAble FLAGS = true ->
  find_run_by_name n (db s) = Some prior ->
  completed prior = false ->
  crawl_list prior = Some file ->
  basename file = basename (crawlListFile inputs) ->
  crawl_list_length prior = length (crawlList inputs) ->
  let k := crawl_list_current_index prior in
  let resumed := set_CRAWL_ID (id prior)
                   (set_trace (trace s ++ [EvDb (SelectCrawlByName n)]) s) in
  resume_or_create FLAGS inputs s = (resumed, Ok k)
  /\ db resumed = db s
  /\ (first_invalid 1 (crawlList inputs) = None ->
      browser_starts W -> racing s = None ->
      exists s' o v evs m,
        crawl FLAGS inputs s = (s', o)
        /\ trace s' =
           trace s ++ EvDb (SelectCrawlByName n)
                   :: EvLog log_info "Launching browser..."
                   :: EvLaunch (chromeArgs FLAGS)
                   :: EvLog log_info ("Running " ++ v)%string
                   :: evs
        /\ (k < length (crawlList inputs) ->
            exists t evs',
              evs = EvSetTimeout (timeout_message (crawlList inputs) k)
                                 (OVERALL_TIMEOUT inputs) t :: evs')
        /\ attempted evs = firstn m (skipn k (crawlList inputs))
        /\ persisted evs = map (fun i => (i + 1, id prior)) (seq k m)
        /\ (o = Ok tt -> attempted evs = skipn k (crawlList inputs))
        /\ map id (crawl_table (db s')) = map id (crawl_table (db s))).
Proof.
  intros Hname Htruthy Hresume Hfind Hdone Hlist Hbase Hlen k resumed.
  destruct (find_run_rows _ _ _ Hfind) as [rest Hrows].
  assert (E : resume_or_create FLAGS inputs s = (resumed, Ok k)).
  { unfold resume_or_create, select_crawl_by_name. rewrite Hname, Htruthy.
    cbn [bind Monad_M emit modify get db set_trace]. rewrite Hrows, Hresume, Hlist.
    cbn [path_basename bind Monad_M ret]. rewrite Hbase, String.eqb_refl.
    rewrite Hlen, Nat.eqb_refl, Hdone. reflexivity. }
  split; [exact E|]. split; [reflexivity|].
  intros Hvalid Hstarts R.
  assert (R0 : racing resumed = None) by exact R.
  destruct (launch_browser_run FLAGS resumed Hstarts R0)
    as (s2 & v & E2 & T2 & D2 & C2 & R2).
  destruct (main_loop_run FLAGS inputs k s2 R2)
    as (s3 & o & evs & m & E3 & T3 & Hm & A3 & P3 & Hfirst & Ho).
  unfold crawl. rewrite bind_run, validate_run, Hvalid.
  rewrite bind_run, E, bind_run, E2.
  exists s3, o, v, evs, m. split; [exact E3|].
  split.
  { rewrite T3, T2. subst resumed. cbn [trace set_trace set_CRAWL_ID].
    rewrite <- !app_assoc. reflexivity. }
  split.
  { intros Hk. destruct (Hfirst Hk) as [evs' ->]. now eexists; eexists. }
  assert (HA : attempted evs = firstn m (skipn k (crawlList inputs))).
  { rewrite A3. now apply nth_seq_firstn. }
  split; [exact HA|].
  split; [rewrite P3, C2; reflexivity|].
  split.
  { intros ->. destruct Ho as (-> & _). rewrite HA.
    apply firstn_all2. rewrite length_skipn. lia. }
  assert (Hids : forall j,
             map id match m with
                    | O => crawl_table (db s2)
                    | S _ => update_where (CRAWL_ID s2) (set_index j)
                                          (crawl_table (db s2))
                    end = map id (crawl_table (db s))).
  { intros j. rewrite D2. destruct m; [reflexivity|].
    apply ids_update_where. now intros []. }
  destruct o as [[]|e|code|].
  - destruct Ho as (_ & _ & ->). rewrite ids_update_where by (now intros []).
    apply Hids.
  - destruct Ho as (_ & _ & _ & ->). apply Hids.
  - destruct Ho as (_ & Hpos & _ & _ & ->). rewrite D2.
    apply ids_update_where. now intros [].
  - contradiction.
Qed.

(** A rejected resume: the decision exits with code 1 after one
    diagnostic, having sent nothing to the store but the query. *)
Lemma resume_or_create_rejects (s : State W) n prior file :
  crawlName FLAGS = Some n -> truthy n = true -> resumeIfAble FLAGS = true ->
  find_run_by_name n (db s) = Some prior ->
  crawl_list prior = Some file ->
  basename file <> basename (crawlListFile inputs)
  \/ crawl_list_length prior <> length (crawlList inputs)
  \/ completed prior = true ->
  exists msg,
    resume_or_create FLAGS inputs s =
    (set_trace ((trace s ++ [EvDb (SelectCrawlByName n)]) ++ [EvLog console_log msg]) s,
     Exit 1%Z).
Proof.
  intros Hname Htruthy Hresume Hfind Hlist Hwhy.
  destruct (find_run_rows _ _ _ Hfind) as [rest Hrows].
  unfold resume_or_create, select_crawl_by_name. rewrite Hname, Htruthy.
  cbn [bind Monad_M emit modify get db set_trace]. rewrite Hrows, Hresume, Hlist.
  cbn [path_basename bind Monad_M ret].
  destruct (basename file =? basename (crawlListFile inputs))%string eqn:Ebase;
    cbn [negb when]; [|eexists; reflexivity].
  destruct (Nat.eqb (crawl_list_length prior) (length (crawlList inputs))) eqn:Elen;
    cbn [negb when bind Monad_M ret]; [|eexists; reflexivity].
  destruct (completed prior) eqn:Edone;
    cbn [when bind Monad_M ret]; [eexists; reflexivity|].
  apply String.eqb_eq in Ebase. apply Nat.eqb_eq in Elen.
  destruct Hwhy as [H | [H | H]]; [contradiction | contradiction | discriminate].
Qed.

(** C3. Resume rejection: with a crawl name, resume enabled, and a prior
    run of that name whose list-file basename differs, or whose list
    length differs, or that is already completed, the process exits with
    code 1 after a diagnostic; up to there it has launched no browser,
    opened no tab, navigated nowhere, and sent no insert or update to the
    store: the store and the world are as they were. *)
Theorem resume_rejected_before_launch (s : State W) n prior file :
  crawlName FLAGS = Some n -> truthy n = true -> resumeIfAble FLAGS = true ->
  find_run_by_name n (db s) = Some prior ->
  crawl_list prior = Some file ->
  basename file <> basename (crawlListFile inputs)
  \/ crawl_list_length prior <> length (crawlList inputs)
  \/ completed prior = true ->
  exists s' evs,
    crawl FLAGS inputs s = (s', Exit 1%Z)
    /\ db s' = db s /\ world s' = world s
    /\ trace s' = trace s ++ evs
    /\ Forall (fun e => touches e = false) evs
    /\ diagnostics evs <> [].
Proof.
  intros Hname Htruthy Hresume Hfind Hlist Hwhy.
  unfold crawl. rewrite bind_run, validate_run.
  destruct (first_invalid 1 (crawlList inputs)) as [[line url]|].
  - eexists. eexists. split; [reflexivity|]. cbn [db world trace set_trace].
    repeat split. + repeat constructor. + discriminate.
  - destruct (resume_or_create_rejects s n prior file
                Hname Htruthy Hresume Hfind Hlist Hwhy) as [msg E].
    rewrite bind_run, E. eexists.
    exists [EvDb (SelectCrawlByName n); EvLog console_log msg].
    split; [reflexivity|]. cbn [db world trace set_trace].
    repeat split.
    + now rewrite <- app_assoc.
    + repeat constructor.
    + discriminate.
Qed.

(** C10. A crawl name already in use, without resume: the engine neither
    aborts nor resumes; it inserts a new run record with the same name,
    index 0 and an identity no record has, takes that identity, and
    starts at index 0.  Between the query by name and the insert nothing
    happens but the lookup of the public address for the record, which
    prints a line for each lookup that threw and nothing about the name;
    the prior record stays as it is, so that two records carry the name. *)
Theorem same_name_without_resume_creates (s : State W) n prior :
  crawlName FLAGS = Some n -> truthy n = true -> resumeIfAble FLAGS = false ->
  find_run_by_name n (db s) = Some prior ->
  racing s = None ->
  exists s' row,
    resume_or_create FLAGS inputs s = (s', Ok 0)
    /\ crawl_table (db s') = crawl_table (db s) ++ [row]
    /\ name row = Some n /\ crawl_list_current_index row = 0
    /\ completed row = false
    /\ ~ In (id row) (map id (crawl_table (db s)))
    /\ id row <> id prior
    /\ CRAWL_ID s' = id row
    /\ trace s' = trace s ++ EvDb (SelectCrawlByName n)
                          :: printed_by_lookup (world s)
                          ++ [EvDb (InsertCrawl row)]
    /\ length (lookup_failures (world s)) <= 2
    /\ 2 <= length (filter (name_is n) (crawl_table (db s'))).
Proof.
  intros Hname Htruthy Hresume Hfind R.
  destruct (find_run_rows _ _ _ Hfind) as [rest Hrows].
  assert (Hin : In prior (crawl_table (db s))).
  { assert (H : In prior (filter (name_is n) (crawl_table (db s))))
      by (rewrite Hrows; now left).
    apply filter_In in H. tauto. }
  assert (Hr : resumes FLAGS (db s) = false).
  { unfold resumes. rewrite Hname, Hresume, Htruthy. reflexivity. }
  destruct (resume_or_create_creates FLAGS inputs s R Hr)
    as (s' & E & T & D & C & _ & _).
  assert (Hfresh := fresh_id_fresh (map id (crawl_table (db s)))).
  exists s', (new_run FLAGS inputs (db s)).
  split; [exact E|]. split; [exact D|].
  split; [exact Hname|]. split; [reflexivity|]. split; [reflexivity|].
  split; [exact Hfresh|].
  split.
  { intros E'. apply Hfresh. cbn [new_run id] in E'. rewrite E'. now apply in_map. }
  split; [exact C|].
  split.
  { rewrite T. unfold lookup_events. rewrite Hname, Htruthy. reflexivity. }
  split.
  { unfold lookup_failures. destruct (publicIpv4 (world s)) as [w1 [e|v]];
      [destruct (publicIpv6 w1) as [w2 [e'|v']]|]; simpl; lia. }
  rewrite D, filter_app, Hrows, length_app. cbn [filter]. unfold name_is.
  cbn [name new_run]. rewrite Hname, String.eqb_refl. simpl. lia.
Qed.

End Preflight.

(** ** The request filter *)

Section Request_filter.

Context {W : Type} {driver : Driver W} {runtime : Runtime}.
Variable FLAGS : CrawlerFlags.

Lemma same_frame_spec f g : same_frame f g = true <-> f = Some g.
Proof.
  destruct f as [f|]; simpl; [|split; discriminate].
  rewrite Nat.eqb_eq. split; congruence.
Qed.

(** C5. The request filter, on any intercepted request: it ends
    normally and lets the request proceed exactly once, in every branch,
    the error branch included; it writes nothing to the store; a request
    whose origin equals the origin of the tab's current page is not
    buffered; the navigation request of the tab's main frame is not
    buffered; any other request whose origin differs from the page's is,
    when capture is enabled, appended to the buffer once, with its target
    url, its resource type and the placeholder -1 for the owning page; and
    never more than one record is buffered. *)
Theorem request_filter page request (s : State W) :
  exists s',
    captureThirdPartyRequests FLAGS page request s = (s', Ok tt)
    /\ db s' = db s
    /\ (exists evs, trace s' = trace s ++ evs /\ continues evs = [request])
    /\ (forall a b,
          new_URL (request_url request) = Some a ->
          new_URL (view_url page) = Some b ->
          origin a = origin b -> requests s' = requests s)
    /\ (isNavigationRequest request = true ->
        request_frame request = Some (mainFrame page) ->
        requests s' = requests s)
    /\ (captureThirdPartyRequests_enabled (scrapeOptions FLAGS) = true ->
        isNavigationRequest request = false
        \/ request_frame request <> Some (mainFrame page) ->
        forall a b,
          new_URL (request_url request) = Some a ->
          new_URL (view_url page) = Some b ->
          origin a <> origin b ->
          requests s' =
          requests s ++ [{| wr_timestamp := Date_now (world s);
                            wr_job_id := jobId FLAGS;
                            wr_crawl_id := CRAWL_ID s;
                            parent_page := (-1)%Z;
                            initiator := view_url page;
                            target_url := request_url request;
                            resource_type := resourceType request |}])
    /\ (requests s' = requests s \/ exists r, requests s' = requests s ++ [r]).
Proof.
  unfold captureThirdPartyRequests, URL_new, request_continue, log, emit, modify, now, get.
  rewrite catch_run.
  destruct (captureThirdPartyRequests_enabled (scrapeOptions FLAGS)) eqn:Ecap;
    cbn -[String.append].
  2:{ (* capture is disabled *)
      eexists. split; [reflexivity|]. cbn -[String.append].
      repeat split; try discriminate; auto.
      exists [EvContinue request]. now split. }
  destruct (isNavigationRequest request && same_frame (request_frame request) (mainFrame page))
    eqn:Emain; cbn -[String.append].
  { (* the request navigates this tab *)
    eexists. split; [reflexivity|]. cbn -[String.append].
    apply andb_true_iff in Emain. destruct Emain as [Enav Eframe].
    apply same_frame_spec in Eframe.
    repeat split; auto.
    - exists [EvContinue request]. now split.
    - intros _ [H | H]; [congruence | contradiction]. }
  assert (Hmain : ~ (isNavigationRequest request = true
                     /\ request_frame request = Some (mainFrame page))).
  { intros [Hn Hf]. apply same_frame_spec in Hf. rewrite Hn, Hf in Emain. discriminate. }
  destruct (new_URL (request_url request)) as [target|] eqn:Et; cbn -[String.append].
  2:{ (* the url of the request does not parse *)
      eexists. split; [reflexivity|]. cbn -[String.append].
      repeat split; auto; try discriminate.
      all: try (eexists; split; [rewrite <- app_assoc; reflexivity | reflexivity]).
      all: intros; tauto. }
  destruct (new_URL (view_url page)) as [current|] eqn:Ec; cbn -[String.append].
  2:{ (* the url of the page does not parse *)
      eexists. split; [reflexivity|]. cbn -[String.append].
      repeat split; auto; try discriminate.
      all: try (eexists; split; [rewrite <- app_assoc; reflexivity | reflexivity]).
      all: intros; tauto. }
  destruct (origin target =? origin current)%string eqn:Eo; cbn -[String.append].
  - (* same origin *)
    apply String.eqb_eq in Eo.
    eexists. split; [reflexivity|]. cbn -[String.append].
    repeat split; auto.
    + exists [EvContinue request]. now split.
    + intros _ _ a b Ha Hb Hab. inversion Ha; inversion Hb; subst. contradiction.
  - (* another origin: the request is buffered *)
    apply String.eqb_neq in Eo.
    eexists. split; [reflexivity|]. cbn -[String.append].
    repeat split; auto.
    + exists [EvContinue request]. now split.
    + intros a b Ha Hb Hab. inversion Ha; inversion Hb; subst. contradiction.
    + intros; tauto.
    + right. eexists. reflexivity.
Qed.

End Request_filter.

(** ** The page visit record *)

Section Page_visit.

Context {W : Type} {driver : Driver W} {runtime : Runtime}.
Variable FLAGS : CrawlerFlags.

Lemma bind_ok {A B : Type} (c : M W A) (k : A -> M W B) s s' b :
  bind c k s = (s', Ok b) ->
  exists a s1, c s = (s1, Ok a) /\ k a s1 = (s', Ok b).
Proof.
  rewrite bind_run. destruct (c s) as [s1 [a|e|code| ]]; try discriminate.
  intros H. now exists a, s1.
Qed.

(** A visit that ends normally returns the identity it was given. *)
Lemma visit_returns url page metadata pageId (s s' : State W) v :
  visit FLAGS url page metadata pageId s = (s', Ok v) -> v = pageId.
Proof.
  unfold visit. intros H.
  repeat (apply bind_ok in H; destruct H as (? & ? & _ & H)).
  now inversion H.
Qed.

(** C6. [loadAndHandlePage] first records the page visit, pending (no
    resolved url, no error), under an identity no visit has; every
    operation on the tab, navigation included, comes after that.  When a
    later step fails, the error field of that visit is set to the
    message of the failure and the same failure is raised to the caller;
    when all steps succeed, the identity of the visit is returned. *)
Theorem loadAndHandlePage_records url page metadata (s : State W) :
  let row := pending_visit FLAGS url metadata s in
  page_url row = None /\ page_error row = None
  /\ ~ In (page_id row) (map page_id (page_table (db s)))
  /\ exists s' o,
       loadAndHandlePage FLAGS url page metadata s = (s', o)
       /\ (exists evs,
             trace s' = trace s ++ EvLog log_info (url ++ ": Loading page")%string
                                :: EvDb (ArchivePage row) :: evs
             /\ Forall pipeline evs)
       /\ (forall s2 e,
             visit FLAGS url page metadata (page_id row)
                   (recorded FLAGS url metadata s) = (s2, Throw e) ->
             o = Throw e
             /\ exists r, In r (page_table (db s')) /\ page_id r = page_id row
                          /\ page_error r = Some (exn_message e))
       /\ (forall s2 v,
             visit FLAGS url page metadata (page_id row)
                   (recorded FLAGS url metadata s) = (s2, Ok v) ->
             o = Ok (page_id row) /\ s' = s2).
Proof.
  intros row. split; [reflexivity|]. split; [reflexivity|].
  split; [apply fresh_id_fresh|].
  destruct (loadAndHandlePage FLAGS url page metadata s) as [s' o] eqn:E.
  exists s', o. split; [reflexivity|].
  rewrite loadAndHandlePage_run in E. fold row in E.
  destruct (run_task (task_visit_recorded FLAGS pipeline url page metadata (page_id row)
                        (fun e H => H)) E) as ([evs [T F]] & _).
  rewrite trace_recorded in T. fold row in T.
  split; [exists evs; split; [rewrite T, <- app_assoc; reflexivity | exact F]|].
  rewrite catch_run in E.
  destruct (visit FLAGS url page metadata (page_id row) (recorded FLAGS url metadata s))
    as [s1 o1] eqn:E1.
  split.
  - intros s2 e H. inversion H; subst s2 o1. clear H.
    unfold record_error, updatePage in E.
    cbn [bind Monad_M emit modify raise Exc_M] in E. inversion E; subst s' o. clear E.
    split; [reflexivity|]. cbn [db set_db page_table set_trace].
    destruct (run_task (task_visit FLAGS pipeline (fun e H => H) url page metadata
                          (page_id row)) E1) as (_ & (_ & _ & _ & Hids) & _).
    assert (Hin : In (page_id row) (map page_id (page_table (db s1)))).
    { apply Hids. cbn [recorded db page_table]. rewrite map_app.
      apply in_or_app. right. now left. }
    apply in_map_iff in Hin. destruct Hin as (r1 & Hid & Hin).
    exists (apply_update (SetError (exn_message e)) r1).
    split; [|split; [exact Hid | reflexivity]].
    apply in_map_iff. exists r1. split; [|exact Hin].
    rewrite Hid, Z.eqb_refl. reflexivity.
  - intros s2 v H. inversion H; subst s2 o1. clear H.
    apply visit_returns in E1. subst v. inversion E. now split.
Qed.

End Page_visit.

(** ** Counting the effects of a loop *)

Section Counting.

Context {W : Type} {driver : Driver W} {runtime : Runtime}.
Context {B : Type}.
Variable f : event -> option B.
Variable ok : B -> Prop.

Lemma at_most_weaken n m {A : Type} (c : M W A) :
  n <= m -> at_most f n ok c -> at_most f m ok c.
Proof.
  intros Hnm Hc s s' o E. destruct (Hc s s' o E) as (evs & T & L & F).
  exists evs. repeat split; [assumption | lia | assumption].
Qed.

(** A task none of whose effects is picked. *)
Lemma at_most_task P {A : Type} (c : M W A) :
  (forall e, P e -> f e = None) -> task P c -> at_most f 0 ok c.
Proof.
  intros HP Hc s s' o E. destruct (run_task Hc E) as ([evs [T F]] & _).
  exists evs. rewrite (pick_none f evs); [now repeat split|].
  eapply Forall_impl; [|exact F]. exact HP.
Qed.

Lemma at_most_ret {A : Type} (a : A) : at_most f 0 ok (ret a : M W A).
Proof.
  intros s s' o E. inversion E; subst. exists []. rewrite app_nil_r. now repeat split.
Qed.

Lemma at_most_emit_one e b : f e = Some b -> ok b -> at_most f 1 ok (emit e : M W unit).
Proof.
  intros He Hb s s' o E. inversion E; subst. exists [e]. cbn [pick]. rewrite He.
  repeat split; [simpl; lia | now repeat constructor].
Qed.

(** Sequencing adds the bounds; the continuation may rely on what the
    first part guarantees of its value. *)
Lemma at_most_bind n1 n2 {A C : Type} (Q : A -> Prop) (c : M W A) (k : A -> M W C) :
  (forall s s' a, c s = (s', Ok a) -> Q a) ->
  at_most f n1 ok c -> (forall a, Q a -> at_most f n2 ok (k a)) ->
  at_most f (n1 + n2) ok (bind c k).
Proof.
  intros HQ Hc Hk s s' o E. rewrite bind_run in E.
  destruct (c s) as [s1 o1] eqn:E1.
  destruct (Hc _ _ _ E1) as (evs1 & T1 & L1 & F1).
  destruct o1 as [a|e|code| ].
  - destruct (Hk a (HQ _ _ _ E1) _ _ _ E) as (evs2 & T2 & L2 & F2).
    exists (evs1 ++ evs2). rewrite pick_app, length_app.
    repeat split; [rewrite T2, T1, app_assoc; reflexivity | lia | now apply Forall_app].
  - inversion E; subst. exists evs1. repeat split; [assumption | lia | assumption].
  - inversion E; subst. exists evs1. repeat split; [assumption | lia | assumption].
  - inversion E; subst. exists evs1. repeat split; [assumption | lia | assumption].
Qed.

Lemma at_most_seq n1 n2 {A C : Type} (c : M W A) (k : A -> M W C) :
  at_most f n1 ok c -> (forall a, at_most f n2 ok (k a)) ->
  at_most f (n1 + n2) ok (bind c k).
Proof.
  intros Hc Hk. apply (at_most_bind n1 n2 (fun _ => True)); auto.
Qed.

End Counting.

(** ** The scroll loop *)

Section Scroll.

Context {W : Type} {driver : Driver W} {runtime : Runtime}.
Variable FLAGS : CrawlerFlags.

Lemma randrange_in_range low high (s s' : State W) d :
  random_unit W -> (low <= high)%Q ->
  randrange low high s = (s', Ok d) ->
  (low <= d)%Q /\ (d <= high)%Q.
Proof.
  intros Hr Hlh. unfold randrange, random. cbn [bind Monad_M ret].
  specialize (Hr (world s)). destruct (Math_random (world s)) as [w r].
  cbn [snd] in Hr. destruct Hr as [H0 H1]. intros E. inversion E; subst d. clear E.
  split; nra.
Qed.

Lemma filtering_silent {B : Type} (f : event -> option B) evs :
  (forall e, filtering e -> f e = None) ->
  Forall filtering evs -> pick f evs = [].
Proof.
  intros Hf F. apply pick_none. eapply Forall_impl; [|exact F]. exact Hf.
Qed.

(** An awaited operation on a tab: the operation, then what the filter
    does; it throws only the exception of the operation, and is abandoned
    only when the timer has fired. *)
Lemma page_await_run page a (s s' : State W) o :
  page_await FLAGS page a s = (s', o) ->
  exists fs,
    trace s' = trace s ++ EvPage page a :: fs
    /\ Forall filtering fs
    /\ racing s' = racing s
    /\ match o with
       | Ok _ => True
       | Throw e => result (snd (perform page a (world s))) = inl e
       | Abandoned => ~ in_time (racing s) (world s')
       | Exit _ => False
       end.
Proof.
  unfold page_await, settle. cbn [bind Monad_M emit modify world set_trace].
  destruct (perform page a (world s)) as [w c]. cbn [snd].
  destruct (dispatch FLAGS page c
              (set_world w (set_trace (trace s ++ [EvPage page a]) s)))
    as [s2 o2] eqn:E2.
  pose proof (dispatch_ok _ _ _ _ _ _ E2) as ->.
  destruct (run_task (task_dispatch FLAGS filtering (fun e H => H) page c) E2)
    as ([fs [T F]] & (_ & _ & KR & _) & _ & _).
  cbn in T, KR.
  assert (HT : trace s2 = trace s ++ EvPage page a :: fs)
    by (rewrite T, <- app_assoc; reflexivity).
  unfold expired. destruct (racing s2) as [t|] eqn:R2.
  - destruct (fires_at t <=? Date_now (world s2))%Z eqn:L.
    + intros E. inversion E; subst. exists fs.
      repeat split; try assumption; try congruence.
      rewrite <- KR. cbn [in_time]. apply Z.leb_le in L. lia.
    + destruct (result c) as [e|[]]; cbn [bind Monad_M raise Exc_M ret];
        intros E; inversion E; subst; exists fs;
        repeat split; try assumption; congruence.
  - destruct (result c) as [e|[]]; cbn [bind Monad_M raise Exc_M ret];
      intros E; inversion E; subst; exists fs;
      repeat split; try assumption; congruence.
Qed.

(** An awaited measure of the page. *)
Lemma page_evaluate_run page q (s s' : State W) o :
  page_evaluate page q s = (s', o) ->
  trace s' = trace s ++ [EvEvaluate page q]
  /\ racing s' = racing s
  /\ match o with
     | Ok v => exists w, evaluate page q (world s) = (w, inr v)
     | Throw e => exists w, evaluate page q (world s) = (w, inl e)
     | Abandoned => ~ in_time (racing s) (world s')
     | Exit _ => False
     end.
Proof.
  unfold page_evaluate, await, expired.
  cbn [bind Monad_M emit modify world set_trace racing].
  destruct (evaluate page q (world s)) as [w r].
  cbn [set_world racing world set_trace].
  destruct (racing s) as [t|] eqn:R.
  - destruct (fires_at t <=? Date_now w)%Z eqn:L.
    + intros E. inversion E; subst. cbn. repeat split; try assumption.
      apply Z.leb_le in L. lia.
    + destruct r as [e|v]; cbn [bind Monad_M raise Exc_M ret];
        intros E; inversion E; subst; cbn; repeat split; try assumption; now exists w.
  - destruct r as [e|v]; cbn [bind Monad_M raise Exc_M ret];
      intros E; inversion E; subst; cbn; repeat split; try assumption; now exists w.
Qed.

Lemma randrange_run low high (s : State W) :
  exists s' d,
    randrange low high s = (s', Ok d)
    /\ trace s' = trace s /\ racing s' = racing s
    /\ (random_unit W -> (low <= high)%Q -> (low <= d)%Q /\ (d <= high)%Q).
Proof.
  unfold randrange, random. cbn [bind Monad_M ret].
  pose proof (fun H : random_unit W => H (world s)) as Hr.
  destruct (Math_random (world s)) as [w r]. cbn [snd] in Hr.
  eexists. eexists. split; [reflexivity|].
  split; [reflexivity|]. split; [reflexivity|].
  intros Hu Hlh. destruct (Hr Hu) as [A B]. split; nra.
Qed.

(** The loop of [scrollDownPage] is its body, then the loop again. *)
Lemma scroll_loop_step left page innerHeight scrollY scrollHeight (s : State W) :
  scroll_loop FLAGS (S left) page innerHeight scrollY scrollHeight s =
  (if Qlt_bool (scrollY + innerHeight)%Q scrollHeight then
     scrollY' <- scroll_iteration FLAGS page ;;
     scroll_loop FLAGS left page innerHeight scrollY' scrollHeight
   else ret tt) s.
Proof.
  cbn [scroll_loop]. destruct (Qlt_bool (scrollY + innerHeight) scrollHeight);
    [|reflexivity].
  unfold scroll_iteration. rewrite !bind_run.
  destruct (randrange (50 # 1) (100 # 1) s) as [s1 [xloc|e|code|]]; try reflexivity.
  rewrite !bind_run.
  destruct (randrange (50 # 1) (100 # 1) s1) as [s2 [yloc|e|code|]]; try reflexivity.
  rewrite !bind_run.
  destruct (randrange (200 # 1) (400 # 1) s2) as [s3 [ydelta|e|code|]]; try reflexivity.
  rewrite !bind_run.
  destruct (page_await FLAGS page (MouseMove xloc yloc) s3) as [s4 [[]|e|code|]];
    try reflexivity.
  rewrite !bind_run.
  destruct (page_await FLAGS page (MouseWheel ydelta) s4) as [s5 [[]|e|code|]];
    try reflexivity.
  rewrite !bind_run.
  destruct (page_await FLAGS page (Sleep 1000) s5) as [s6 [[]|e|code|]];
    reflexivity.
Qed.

Lemma filtering_tally fs :
  Forall filtering fs ->
  pick wheel fs = [] /\ pick pointer fs = [] /\ pick pause fs = []
  /\ pick position_probe fs = [].
Proof.
  intros F. repeat split; (apply filtering_silent; [|exact F]);
    intros [[]| | | | | | | | | | | |]; simpl; tauto.
Qed.

(** Counts the effects of a list of effects given piece by piece. *)
Ltac tally :=
  unfold wheels; repeat rewrite pick_app;
  cbn [pick wheel pointer pause position_probe];
  repeat match goal with
         | H : pick _ _ = [] |- _ => rewrite H
         end;
  cbn [app length].

(** One iteration of the scroll loop.  When it ends normally it has
    issued one pointer move, one wheel scroll of a magnitude from 200 to
    400, one pause and one measure of the scroll position.  It ends
    otherwise only on an operation or a measure that throws, or because the
    timer has fired; it has then begun with the pointer move and issued at
    most the wheel scroll after it. *)
Lemma scroll_iteration_run page (s s' : State W) o :
  random_unit W ->
  scroll_iteration FLAGS page s = (s', o) ->
  exists evs,
    trace s' = trace s ++ evs
    /\ racing s' = racing s
    /\ Forall in_scroll_range (wheels evs)
    /\ length (pick pointer evs) = 1
    /\ length (wheels evs) <= 1
    /\ length (pick pause evs) <= length (wheels evs)
    /\ length (pick position_probe evs) <= length (pick pause evs)
    /\ match o with
       | Ok scrollY' =>
           length (pick position_probe evs) = 1
           /\ exists w w', evaluate page ScrollY w = (w', inr scrollY')
       | Throw e =>
           (exists a w, result (snd (perform page a w)) = inl e)
           \/ (exists w w', evaluate page ScrollY w = (w', inl e))
       | Abandoned => exists w, ~ in_time (racing s) w
       | Exit _ => False
       end.
Proof.
  intros Hu. unfold scroll_iteration.
  destruct (randrange_run (50 # 1) (100 # 1) s) as (s1 & xloc & E1 & T1 & R1 & _).
  destruct (randrange_run (50 # 1) (100 # 1) s1) as (s2 & yloc & E2 & T2 & R2 & _).
  destruct (randrange_run (200 # 1) (400 # 1) s2) as (s3 & ydelta & E3 & T3 & R3 & Hd).
  assert (Hrange : in_scroll_range ydelta).
  { apply Hd; [exact Hu|]. unfold Qle. simpl. lia. }
  rewrite bind_run, E1, bind_run, E2, bind_run, E3, bind_run.
  assert (T03 : trace s3 = trace s) by congruence.
  assert (R03 : racing s3 = racing s) by congruence.
  clear E1 E2 E3 T1 T2 T3 R1 R2 R3 Hd.
  destruct (page_await FLAGS page (MouseMove xloc yloc) s3) as [s4 o4] eqn:E4.
  destruct (page_await_run _ _ _ _ _ E4) as (fs4 & T4 & F4 & R4 & H4).
  destruct (filtering_tally fs4 F4) as (W4 & P4 & Z4 & Q4).
  destruct o4 as [[]|e|code|]; [|intros E; inversion E; subst ..].
  2: { eexists. split; [rewrite T4, T03; reflexivity|]. split; [congruence|].
       tally. split; [constructor|]. repeat (split; [lia|]).
       left. eauto. }
  2: contradiction.
  2: { eexists. split; [rewrite T4, T03; reflexivity|]. split; [congruence|].
       tally. split; [constructor|]. repeat (split; [lia|]).
       eexists. rewrite <- R03. exact H4. }
  rewrite bind_run.
  destruct (page_await FLAGS page (MouseWheel ydelta) s4) as [s5 o5] eqn:E5.
  destruct (page_await_run _ _ _ _ _ E5) as (fs5 & T5 & F5 & R5 & H5).
  destruct (filtering_tally fs5 F5) as (W5 & P5 & Z5 & Q5).
  destruct o5 as [[]|e|code|]; [|intros E; inversion E; subst ..].
  2: { eexists. split; [rewrite T5, T4, T03, <- app_assoc; reflexivity|].
       split; [congruence|].
       tally. split; [constructor; [exact Hrange | constructor]|]. repeat (split; [lia|]).
       left. eauto. }
  2: contradiction.
  2: { eexists. split; [rewrite T5, T4, T03, <- app_assoc; reflexivity|].
       split; [congruence|].
       tally. split; [constructor; [exact Hrange | constructor]|]. repeat (split; [lia|]).
       eexists. rewrite <- R03, <- R4. exact H5. }
  rewrite bind_run.
  destruct (page_await FLAGS page (Sleep 1000) s5) as [s6 o6] eqn:E6.
  destruct (page_await_run _ _ _ _ _ E6) as (fs6 & T6 & F6 & R6 & H6).
  destruct (filtering_tally fs6 F6) as (W6 & P6 & Z6 & Q6).
  destruct o6 as [[]|e|code|]; [|intros E; inversion E; subst ..].
  2: { eexists. split; [rewrite T6, T5, T4, T03, <- !app_assoc; reflexivity|].
       split; [congruence|].
       tally. split; [constructor; [exact Hrange | constructor]|]. repeat (split; [lia|]).
       left. eauto. }
  2: contradiction.
  2: { eexists. split; [rewrite T6, T5, T4, T03, <- !app_assoc; reflexivity|].
       split; [congruence|].
       tally. split; [constructor; [exact Hrange | constructor]|]. repeat (split; [lia|]).
       eexists. rewrite <- R03, <- R4, <- R5. exact H6. }
  intros E7. destruct (page_evaluate_run _ _ _ _ _ E7) as (T7 & R7 & H7).
  eexists. split; [rewrite T7, T6, T5, T4, T03, <- !app_assoc; reflexivity|].
  split; [congruence|].
  tally. split; [constructor; [exact Hrange | constructor]|]. repeat (split; [lia|]).
  destruct o as [y|e|code|].
  - split; [reflexivity|]. destruct H7 as [w H7]. eauto.
  - right. destruct H7 as [w H7]. eauto.
  - exact H7.
  - eexists. rewrite <- R03, <- R4, <- R5, <- R6. exact H7.
Qed.

Lemma Qlt_bool_spec (a b : Q) : Qlt_bool a b = true <-> (a < b)%Q.
Proof.
  unfold Qlt_bool. rewrite negb_true_iff. split.
  - intros H. apply Qnot_le_lt. intros Hle. apply Qle_bool_iff in Hle. congruence.
  - intros H. destruct (Qle_bool b a) eqn:E; [|reflexivity].
    apply Qle_bool_iff in E. exfalso. now apply (Qlt_not_le a b).
Qed.

(** The loop of [scrollDownPage] with [left] iterations left.  It issues
    at most [left] wheel scrolls.  Every iteration begins with a pointer
    move; every wheel scroll follows the pointer move of its iteration,
    every pause a wheel scroll, every measure a pause; every iteration but
    the last has gone through all four.  On a page that never measures at
    its bottom and whose operations succeed, with a timer that never fires,
    the loop ends normally after [left] wheel scrolls. *)
Lemma scroll_loop_run page innerHeight scrollHeight left :
  forall scrollY (s s' : State W) o,
    random_unit W ->
    scroll_loop FLAGS left page innerHeight scrollY scrollHeight s = (s', o) ->
    exists evs,
      trace s' = trace s ++ evs
      /\ racing s' = racing s
      /\ Forall in_scroll_range (wheels evs)
      /\ length (wheels evs) <= left
      /\ length (pick position_probe evs) <= length (pick pause evs)
      /\ length (pick pause evs) <= length (wheels evs)
      /\ length (wheels evs) <= length (pick pointer evs)
      /\ length (pick pointer evs) <= S (length (pick position_probe evs))
      /\ (o = Ok tt ->
          length (pick pointer evs) = length (pick position_probe evs))
      /\ (forall code, o <> Exit code)
      /\ (responsive page -> never_due (racing s) ->
          (forall w : W, exists w' y,
             evaluate page ScrollY w = (w', inr y)
             /\ (y + innerHeight < scrollHeight)%Q) ->
          (scrollY + innerHeight < scrollHeight)%Q ->
          o = Ok tt /\ length (wheels evs) = left).
Proof.
  induction left as [|left IH]; intros scrollY s s' o Hu.
  - cbn [scroll_loop]. intros E. inversion E; subst. exists [].
    rewrite app_nil_r. cbn. repeat split; try lia; try constructor; discriminate.
  - rewrite scroll_loop_step.
    destruct (Qlt_bool (scrollY + innerHeight) scrollHeight) eqn:Htest.
    + rewrite bind_run.
      destruct (scroll_iteration FLAGS page s) as [s1 o1] eqn:E1.
      destruct (scroll_iteration_run page s s1 o1 Hu E1)
        as (evs1 & T1 & R1 & F1 & P1 & W1 & Z1 & Q1 & H1).
      destruct o1 as [y'|e|code|].
      * destruct H1 as (Hq & w & w' & Hy'). intros E2.
        destruct (IH y' s1 s' o Hu E2)
          as (evs2 & T2 & R2 & F2 & W2 & Q2 & Z2 & V2 & P2 & K2 & X2 & B2).
        exists (evs1 ++ evs2).
        split; [rewrite T2, T1, <- app_assoc; reflexivity|].
        split; [congruence|].
        unfold wheels in *. rewrite !pick_app, !length_app.
        split; [now apply Forall_app|].
        repeat (split; [lia|]).
        split; [intros Ho; specialize (K2 Ho); lia|].
        split; [exact X2|].
        intros Hresp Hdue Hy Hy0.
        destruct (Hy w) as (w2 & y2 & Ey2 & Hlt). rewrite Hy' in Ey2.
        inversion Ey2; subst y2.
        destruct B2 as [Ho Hw]; try assumption; [now rewrite R1|].
        split; [exact Ho | lia].
      * intros E. inversion E; subst. exists evs1.
        split; [exact T1|]. split; [exact R1|]. split; [exact F1|].
        repeat (split; [lia|]).
        split; [discriminate|]. split; [discriminate|].
        intros Hresp Hdue Hy _. exfalso.
        destruct H1 as [(a & w & Ha) | (w & w' & Hw)].
        -- rewrite (Hresp a w) in Ha. discriminate.
        -- destruct (Hy w) as (w2 & y2 & Ey2 & _). congruence.
      * contradiction.
      * intros E. inversion E; subst. exists evs1.
        split; [exact T1|]. split; [exact R1|]. split; [exact F1|].
        repeat (split; [lia|]).
        split; [discriminate|]. split; [discriminate|].
        intros _ Hdue _ _. exfalso. destruct H1 as [w Hw]. now apply Hw.
    + intros E. inversion E; subst. exists [].
      rewrite app_nil_r. cbn.
      repeat split; try lia; try constructor; try discriminate;
        exfalso; apply Qlt_bool_spec in H2; congruence.
Qed.


End Scroll.

(** ** The search for pages with ads *)

Section Ads.

Context {W : Type} {driver : Driver W} {runtime : Runtime}.
Variable FLAGS : CrawlerFlags.
Variable inputs : CrawlInputs.

Lemma append_inj_l (a b c : string) : (a ++ b = a ++ c)%string -> b = c.
Proof.
  induction a as [|x a IH]; cbn [String.append]; [tauto|].
  intros H. inversion H. now apply IH.
Qed.

Lemma pipeline_outside url e : pipeline e -> outside_search url e.
Proof.
  destruct e as [[]| |[]| | | | | | | | | |]; simpl; try tauto;
    intros _; (split; [reflexivity | discriminate]).
Qed.

Lemma subpage_event_outside url e : subpage_event e -> outside_search url e.
Proof.
  destruct e as [| |[]| | | | | | | | | |];
    try (intros H; apply pipeline_outside; exact H); simpl; try tauto;
    intros _; (split; [reflexivity | discriminate]).
Qed.

Lemma visiting_outside url u metadata e :
  visiting u metadata e -> outside_search url e.
Proof.
  destruct e as [| |[]| | | | | | | | | |];
    try (intros H; apply pipeline_outside; exact H).
  intros _. split; [reflexivity | discriminate].
Qed.

Lemma article_notice_outside url :
  outside_search url (EvLog log_strError (url ++ ": Couldn't find article")).
Proof.
  split; [reflexivity|]. unfold no_ads_notice. intros H. inversion H as [H1].
  apply append_inj_l in H1. discriminate H1.
Qed.

Lemma outside_no_attempts url evs :
  Forall (outside_search url) evs -> pick ads_attempt evs = [].
Proof.
  intros F. apply pick_none. eapply Forall_impl; [|exact F]. now intros e [H _].
Qed.

Lemma outside_no_notice url evs :
  Forall (outside_search url) evs -> ~ In (no_ads_notice url) evs.
Proof.
  intros F Hin. rewrite Forall_forall in F. destruct (F _ Hin) as [_ H]. now apply H.
Qed.

(** The work on a target before the search for pages with ads. *)
Lemma task_visit_seed_outside url prevAdId n :
  task (outside_search url) (visit_seed FLAGS inputs url prevAdId n).
Proof.
  unfold visit_seed. task_step; [apply task_get|].
  destruct (isAdUrlCrawl inputs);
    (eapply task_mono; [|apply task_loadAndHandlePage]);
    intros e; apply visiting_outside.
Qed.

Lemma task_before_search url prevAdId pageId0 :
  task (outside_search url)
    (pageId <- (if refreshPage (crawlOptions FLAGS) then
                  seed <- get (@seedPage W) ;;
                  page_await FLAGS seed Close ;;
                  fresh <- BROWSER_newPage ;;
                  modify (set_seedPage fresh) ;;
                  visit_seed FLAGS inputs url prevAdId 1
                else ret pageId0) ;;
     when (findAndCrawlArticlePage (crawlOptions FLAGS))
          (seed <- get (@seedPage W) ;;
           articleUrl <- subpageExplorer FindArticle seed ;;
           match articleUrl with
           | Some found =>
               if truthy found then visit_subpage FLAGS found pageId
               else log log_strError (url ++ ": Couldn't find article")%string
           | None => log log_strError (url ++ ": Couldn't find article")%string
           end) ;;
     ret pageId).
Proof.
  repeat lazymatch goal with
         | |- task _ (visit_subpage _ _ _) =>
             eapply task_mono; [|apply task_visit_subpage_events];
             apply subpage_event_outside
         | |- task _ (visit_seed _ _ _ _ _) => apply task_visit_seed_outside
         | |- task _ BROWSER_newPage =>
             apply task_BROWSER_newPage; intros ?; split; [reflexivity | discriminate]
         | |- task _ (subpageExplorer _ _) =>
             unfold subpageExplorer; task_step;
             [apply task_emit; split; [reflexivity | discriminate] | apply task_await]
         | |- task _ (page_await _ _ _) =>
             apply task_page_await_in_pipeline; apply pipeline_outside
         | |- task _ (log _ _) => apply task_log; apply article_notice_outside
         | |- task _ (modify _) =>
             apply task_assign; intros ?; split; [reflexivity | kept_same]
         | |- _ => task_step
         end.
Qed.

(** The work on a target is the work before the search, then the
    search. *)
Lemma crawl_work_split url prevAdId (s : State W) :
  crawl_work FLAGS inputs url prevAdId s =
  (pageId <- (pageId0 <- visit_seed FLAGS inputs url prevAdId 0 ;;
              pageId <- (if refreshPage (crawlOptions FLAGS) then
                           seed <- get (@seedPage W) ;;
                           page_await FLAGS seed Close ;;
                           fresh <- BROWSER_newPage ;;
                           modify (set_seedPage fresh) ;;
                           visit_seed FLAGS inputs url prevAdId 1
                         else ret pageId0) ;;
              when (findAndCrawlArticlePage (crawlOptions FLAGS))
                   (seed <- get (@seedPage W) ;;
                    articleUrl <- subpageExplorer FindArticle seed ;;
                    match articleUrl with
                    | Some found =>
                        if truthy found then visit_subpage FLAGS found pageId
                        else log log_strError (url ++ ": Couldn't find article")%string
                    | None => log log_strError (url ++ ": Couldn't find article")%string
                    end) ;;
              ret pageId) ;;
   for_break (Z.to_nat (findAndCrawlPageWithAds (crawlOptions FLAGS)))
             (find_page_with_ads FLAGS url pageId)) s.
Proof.
  unfold crawl_work. rewrite !bind_run.
  destruct (visit_seed FLAGS inputs url prevAdId 0 s) as [s1 [pageId0|e|code|]];
    try reflexivity.
  rewrite !bind_run.
  match goal with
  | |- context [(if refreshPage _ then ?a else ?b) s1] =>
      destruct ((if refreshPage (crawlOptions FLAGS) then a else b) s1)
        as [s2 [pageId|e|code|]]; try reflexivity
  end.
  rewrite !bind_run.
  match goal with
  | |- context [when ?b ?c s2] =>
      destruct (when b c s2) as [s3 [[]|e|code|]]; reflexivity
  end.
Qed.

(** One turn of the search: it asks the explorer once; it answers
    [false] exactly when the explorer answered with no candidate, and has
    then printed the notice and nothing else; otherwise it has visited the
    candidate, or has been cut by an exception or by the timer. *)
Lemma find_page_with_ads_run url pageId (s s' : State W) o :
  find_page_with_ads FLAGS url pageId s = (s', o) ->
  exists evs,
    trace s' = trace s ++ EvFind FindHealthRelatedPagesWithAds (seedPage s) :: evs
    /\ match o with
       | Ok true =>
           Forall (outside_search url) evs
           /\ exists w found,
                explore FindHealthRelatedPagesWithAds (seedPage s) (world s)
                = (w, inr (Some found))
                /\ truthy found = true
       | Ok false => evs = [no_ads_notice url] /\ answered_none W
       | Exit _ => False
       | _ => Forall (outside_search url) evs
       end.
Proof.
  unfold find_page_with_ads, subpageExplorer, await.
  cbn [bind Monad_M get emit modify world set_trace].
  destruct (explore FindHealthRelatedPagesWithAds (seedPage s) (world s))
    as [w r] eqn:Ew.
  cbn [set_world]. unfold expired. cbn [racing set_world set_trace world].
  assert (Hgo : (match r with
                 | inl e => raise e
                 | inr a => ret a
                 end >>= fun urlWithAds : option string =>
                 match urlWithAds with
                 | Some found =>
                     if truthy found
                     then visit_subpage FLAGS found pageId ;; ret true
                     else log log_strError (url ++ ": Couldn't find page with ads") ;;
                          ret false
                 | None =>
                     log log_strError (url ++ ": Couldn't find page with ads") ;;
                     ret false
                 end)
                  (set_world w
                     (set_trace (trace s ++ [EvFind FindHealthRelatedPagesWithAds
                                               (seedPage s)]) s)) = (s', o) ->
          exists evs,
            trace s' = trace s ++ EvFind FindHealthRelatedPagesWithAds (seedPage s) :: evs
            /\ match o with
               | Ok true =>
                   Forall (outside_search url) evs
                   /\ exists w' found,
                        (w, r) = (w', inr (Some found)) /\ truthy found = true
               | Ok false => evs = [no_ads_notice url] /\ answered_none W
               | Exit _ => False
               | _ => Forall (outside_search url) evs
               end).
  { destruct r as [e|[found|]]; cbn [bind Monad_M raise Exc_M ret].
    - intros E. inversion E; subst. exists []. split; [reflexivity | constructor].
    - destruct (truthy found) eqn:Ht.
      + destruct (visit_subpage FLAGS found pageId _) as [s1 o1] eqn:E1.
        destruct (run_task (task_visit_subpage_events FLAGS found pageId) E1)
          as ([evs [T F]] & _ & N & _).
        cbn [trace set_trace set_world] in T.
        assert (F' : Forall (outside_search url) evs)
          by (eapply Forall_impl; [|exact F]; apply subpage_event_outside).
        destruct o1 as [[]|e|code|]; intros E; inversion E; subst;
          try (exists evs; split; [rewrite T, <- app_assoc; reflexivity|]).
        * split; [exact F'|]. now exists w, found.
        * exact F'.
        * exfalso. now apply (N code).
        * exact F'.
      + unfold log, emit, modify. cbn [bind Monad_M ret]. intros E.
        inversion E; subst. exists [no_ads_notice url].
        split; [cbn [trace set_trace set_world]; rewrite <- app_assoc; reflexivity|].
        split; [reflexivity|].
        exists (seedPage s), (world s), w, (Some found). now split.
    - unfold log, emit, modify. cbn [bind Monad_M ret]. intros E.
      inversion E; subst. exists [no_ads_notice url].
      split; [cbn [trace set_trace set_world]; rewrite <- app_assoc; reflexivity|].
      split; [reflexivity|].
      exists (seedPage s), (world s), w, None. now split. }
  destruct (racing s) as [t|].
  - destruct (fires_at t <=? Date_now w)%Z.
    + intros E. inversion E; subst. exists []. split; [reflexivity | constructor].
    + exact Hgo.
  - exact Hgo.
Qed.

(** The search for pages with ads, from any state. *)
Lemma ads_loop_run url pageId n : forall (s s' : State W) o,
  for_break n (find_page_with_ads FLAGS url pageId) s = (s', o) ->
  exists evs,
    trace s' = trace s ++ evs
    /\ ads_attempts evs <= n
    /\ (In (no_ads_notice url) evs ->
        o = Ok tt /\ answered_none W
        /\ exists evs0 p,
             evs = evs0 ++ [EvFind FindHealthRelatedPagesWithAds p; no_ads_notice url]
             /\ ~ In (no_ads_notice url) evs0)
    /\ (o = Ok tt -> ads_attempts evs = n \/ In (no_ads_notice url) evs)
    /\ (never_finds W -> o = Ok tt -> 0 < n -> ads_attempts evs = 1)
    /\ (forall code, o <> Exit code).
Proof.
  induction n as [|n IH]; intros s s' o; cbn [for_break].
  - intros E. inversion E; subst. exists []. rewrite app_nil_r.
    split; [reflexivity|]. split; [apply Nat.le_refl|].
    split; [intros []|]. split; [now left|]. split; [lia | discriminate].
  - rewrite bind_run.
    destruct (find_page_with_ads FLAGS url pageId s) as [s1 o1] eqn:E1.
    destruct (find_page_with_ads_run url pageId s s1 o1 E1) as (evs1 & T1 & H1).
    destruct o1 as [[|]|e|code|].
    + (* a candidate was found and visited: the search goes on *)
      destruct H1 as (F1 & w & found & Hw & Ht).
      intros E. destruct (IH _ _ _ E) as (evs2 & T2 & L2 & N2 & K2 & _ & X2).
      exists (EvFind FindHealthRelatedPagesWithAds (seedPage s) :: evs1 ++ evs2).
      split; [rewrite T2, T1, <- app_assoc; reflexivity|].
      assert (HA : ads_attempts (EvFind FindHealthRelatedPagesWithAds (seedPage s)
                                 :: evs1 ++ evs2) = S (ads_attempts evs2)).
      { unfold ads_attempts. cbn [pick ads_attempt].
        now rewrite pick_app, (outside_no_attempts url evs1 F1). }
      rewrite HA. split; [lia|].
      split.
      { intros [Hin | Hin]; [discriminate Hin|].
        apply in_app_or in Hin. destruct Hin as [Hin | Hin];
          [exfalso; now apply (outside_no_notice url evs1 F1)|].
        destruct (N2 Hin) as (Ho & Ha & evs0 & p & -> & Hn).
        split; [exact Ho|]. split; [exact Ha|].
        exists (EvFind FindHealthRelatedPagesWithAds (seedPage s) :: evs1 ++ evs0), p.
        split; [cbn [app]; now rewrite <- app_assoc|].
        intros [Hin' | Hin']; [discriminate Hin'|].
        apply in_app_or in Hin'. destruct Hin' as [Hin' | Hin'];
          [now apply (outside_no_notice url evs1 F1) | now apply Hn]. }
      split.
      { intros Ho. destruct (K2 Ho) as [-> | Hin]; [now left|].
        right. right. apply in_or_app. now right. }
      split; [|exact X2].
      intros Hnever _ _. exfalso.
      destruct (Hnever (seedPage s) (world s)) as (w' & answer & Hw' & Hempty).
      rewrite Hw in Hw'. inversion Hw'; subst answer.
      cbn [truthy_opt] in Hempty. congruence.
    + (* no candidate: the notice, and the search ends *)
      destruct H1 as (-> & Ha).
      intros E. inversion E; subst.
      exists [EvFind FindHealthRelatedPagesWithAds (seedPage s); no_ads_notice url].
      split; [exact T1|]. split; [cbn; lia|].
      split.
      { intros _. split; [reflexivity|]. split; [exact Ha|].
        exists [], (seedPage s). split; [reflexivity | intros []]. }
      split; [intros _; right; right; now left|].
      split; [reflexivity | discriminate].
    + intros E. inversion E; subst.
      exists (EvFind FindHealthRelatedPagesWithAds (seedPage s) :: evs1).
      split; [exact T1|].
      split.
      { unfold ads_attempts. cbn [pick ads_attempt].
        rewrite (outside_no_attempts url evs1 H1). cbn. lia. }
      split.
      { intros [Hin | Hin]; [discriminate Hin|].
        exfalso. now apply (outside_no_notice url evs1 H1). }
      split; [discriminate|]. split; discriminate.
    + contradiction.
    + intros E. inversion E; subst.
      exists (EvFind FindHealthRelatedPagesWithAds (seedPage s) :: evs1).
      split; [exact T1|].
      split.
      { unfold ads_attempts. cbn [pick ads_attempt].
        rewrite (outside_no_attempts url evs1 H1). cbn. lia. }
      split.
      { intros [Hin | Hin]; [discriminate Hin|].
        exfalso. now apply (outside_no_notice url evs1 H1). }
      split; [discriminate|]. split; discriminate.
Qed.


End Ads.

(** ** A page visit keeps to its tab and to its record *)

Section Own.

Context {W : Type} {driver : Driver W} {runtime : Runtime}.
Variable FLAGS : CrawlerFlags.
Variable page : Page.
Variable pageId : Z.

(** Any class of effects that contains those of the steps of the visit. *)
Variable P : event -> Prop.
Hypothesis P_filter : forall e, filtering e -> P e.
Hypothesis P_page : forall a, a <> Close -> P (EvPage page a).
Hypothesis P_probe : forall q, P (EvEvaluate page q).
Hypothesis P_on : P (EvOn page).
Hypothesis P_info : forall m, P (EvLog log_info m).
Hypothesis P_update : forall u, P (EvDb (UpdatePage pageId u)).
Hypothesis P_capture :
  captureThirdPartyRequests_enabled (scrapeOptions FLAGS) = true ->
  forall r, parent_page r = pageId -> P (EvDb (ArchiveRequest r)).

Lemma own_page_await a : a <> Close -> task P (page_await FLAGS page a).
Proof. intros Ha. apply task_page_await; auto. Qed.

Lemma own_page_evaluate q : task P (page_evaluate page q : M W Q).
Proof.
  unfold page_evaluate. apply task_bind; [apply task_emit, P_probe|].
  intros _. apply task_await.
Qed.

Lemma own_scroll_loop left innerHeight scrollY scrollHeight :
  task P (scroll_loop FLAGS left page innerHeight scrollY scrollHeight).
Proof.
  revert scrollY. induction left as [|left IH]; intros scrollY; cbn [scroll_loop].
  - apply task_ret.
  - repeat lazymatch goal with
           | |- task _ (scroll_loop _ _ _ _ _ _) => apply IH
           | |- task _ (page_await _ _ _) => apply own_page_await; discriminate
           | |- task _ (page_evaluate _ _) => apply own_page_evaluate
           | |- _ => task_step
           end.
Qed.

Lemma own_scrollDownPage : task P (scrollDownPage FLAGS page).
Proof.
  unfold scrollDownPage.
  repeat lazymatch goal with
         | |- task _ (scroll_loop _ _ _ _ _ _) => apply own_scroll_loop
         | |- task _ (page_evaluate _ _) => apply own_page_evaluate
         | |- task _ (page_url_now _) => apply task_get
         | |- task _ (log _ _) => apply task_log, P_info
         | |- _ => task_step
         end.
Qed.

Lemma own_updatePage u : task P (updatePage pageId u : M W unit).
Proof.
  unfold updatePage. apply task_bind; [apply task_emit, P_update|]. intros _.
  apply task_assign. intros s. split; [reflexivity|].
  apply kept_set_db; [reflexivity|]. simpl. rewrite map_map.
  erewrite map_ext; [apply incl_refl|]. intros r. simpl.
  now destruct (page_id r =? pageId)%Z.
Qed.

Lemma own_archiveRequest r :
  captureThirdPartyRequests_enabled (scrapeOptions FLAGS) = true ->
  task P (archiveRequest (with_parent_page pageId r) : M W unit).
Proof.
  intros Hc. unfold archiveRequest.
  apply task_bind; [apply task_emit, P_capture; [exact Hc | reflexivity]|]. intros _.
  apply task_assign. intros s. split; [reflexivity|].
  apply kept_set_db; [reflexivity | apply incl_refl].
Qed.

Lemma own_page_on_request : task P (page_on_request page : M W unit).
Proof.
  unfold page_on_request. apply task_bind; [|intros _; apply task_bind; [|intros _]].
  - apply task_assign. intros s. split; [reflexivity | kept_same].
  - apply task_emit, P_on.
  - apply task_assign. intros s. split; [reflexivity | kept_same].
Qed.

Lemma own_visit url metadata : task P (visit FLAGS url page metadata pageId).
Proof.
  unfold visit. pose proof own_archiveRequest as Harchive.
  destruct (captureThirdPartyRequests_enabled (scrapeOptions FLAGS)) eqn:Ecap.
  all: repeat lazymatch goal with
         | |- task _ (page_await _ _ _) => apply own_page_await; discriminate
         | |- task _ (page_on_request _) => apply own_page_on_request
         | |- task _ (scrollDownPage _ _) => apply own_scrollDownPage
         | |- task _ (updatePage _ _) => apply own_updatePage
         | |- task _ (archiveRequest _) => apply Harchive; reflexivity
         | |- task _ (when false _) => apply task_ret
         | |- task _ (page_url_now _) => apply task_get
         | |- task _ (log _ _) => apply task_log, P_info
         | |- _ => task_step
         end.
Qed.

Lemma own_visit_recorded url metadata :
  task P (catch (visit FLAGS url page metadata pageId)
                (record_error pageId : exn -> M W Z)).
Proof.
  apply task_catch; [apply own_visit|]. intros e. unfold record_error.
  apply task_bind; [apply own_updatePage | intros _; apply task_raise].
Qed.

End Own.

Section Own_visit.

Context {W : Type} {driver : Driver W} {runtime : Runtime}.
Variable FLAGS : CrawlerFlags.

Lemma filtering_own page pageId e : filtering e -> own_effect page pageId e.
Proof. destruct e as [[]| | | | | | | | | | | |]; simpl; tauto. Qed.

(** The effects of a call of [loadAndHandlePage] after the record of
    its visit. *)
Lemma loadAndHandlePage_effects url page metadata (s s' : State W) o :
  loadAndHandlePage FLAGS url page metadata s = (s', o) ->
  exists evs,
    trace s' =
    trace s ++ EvLog log_info (url ++ ": Loading page")%string
            :: EvDb (ArchivePage (pending_visit FLAGS url metadata s)) :: evs
    /\ Forall (own_effect page (page_id (pending_visit FLAGS url metadata s))) evs.
Proof.
  intros E. rewrite loadAndHandlePage_run in E.
  set (pid := page_id (pending_visit FLAGS url metadata s)) in *.
  assert (T : task (own_effect page pid)
                (catch (visit FLAGS url page metadata pid)
                       (record_error pid : exn -> M W Z))).
  { apply own_visit_recorded; simpl; auto. apply filtering_own. }
  destruct (run_task T E) as ([evs [Ht Hf]] & _).
  rewrite trace_recorded in Ht.
  exists evs. split; [|exact Hf]. rewrite Ht, <- app_assoc. reflexivity.
Qed.

(** X1. Whatever happens during a call of [loadAndHandlePage], after it
    has recorded its page visit it operates on no tab but the one it was
    given, never closes that tab, opens no tab and asks for no discovery;
    it updates no page visit but its own; and every captured request it
    writes to the store is owned by its own page visit, never by the
    placeholder. *)
Theorem visit_keeps_to_its_own url page metadata (s : State W) :
  exists s' o evs,
    loadAndHandlePage FLAGS url page metadata s = (s', o)
    /\ trace s' =
       trace s ++ EvLog log_info (url ++ ": Loading page")%string
               :: EvDb (ArchivePage (pending_visit FLAGS url metadata s)) :: evs
    /\ Forall (own_effect page (page_id (pending_visit FLAGS url metadata s))) evs.
Proof.
  destruct (loadAndHandlePage FLAGS url page metadata s) as [s' o] eqn:E.
  destruct (loadAndHandlePage_effects _ _ _ _ _ _ E) as (evs & Ht & Hf).
  now exists s', o, evs.
Qed.

Lemma expired_in_time (s : State W) :
  in_time (racing s) (world s) -> expired s = (s, Ok tt).
Proof.
  unfold in_time, expired. destruct (racing s) as [t|]; [|reflexivity].
  intros H. apply Z.leb_gt in H. now rewrite H.
Qed.

Lemma BROWSER_newPage_in_time (s : State W) w p :
  in_time (racing s) w -> newPage (world s) = (w, inr p) ->
  BROWSER_newPage s = (set_trace (trace s ++ [EvNewPage p]) (set_world w s), Ok p).
Proof.
  intros R N. unfold BROWSER_newPage, await.
  cbn [bind Monad_M]. rewrite N. cbv beta iota.
  rewrite (expired_in_time (set_world w s) R). reflexivity.
Qed.

(** X2. The tab of a subpage is closed only after its visit returned:
    when the first visit of a subpage throws, [visit_subpage] passes the
    exception on and the tab it opened for the subpage is left open. *)
Theorem failed_subpage_visit_leaves_tab_open subpageUrl pageId (s s2 : State W) w p e :
  in_time (racing s) w ->
  newPage (world s) = (w, inr p) ->
  loadAndHandlePage FLAGS subpageUrl p
    {| pageType := SUBPAGE; referrerPageId := Some pageId;
       referrerPageUrl := Some (url_of (seedPage s) w);
       referrerAd := None; reload := 0 |}
    (set_trace (trace s ++ [EvNewPage p]) (set_world w s)) = (s2, Throw e) ->
  visit_subpage FLAGS subpageUrl pageId s = (s2, Throw e)
  /\ exists evs, trace s2 = trace s ++ evs
                 /\ Forall (fun ev => ev <> EvPage p Close) evs.
Proof.
  intros R Hp E. split.
  - unfold visit_subpage. rewrite bind_run, (BROWSER_newPage_in_time s w p R Hp).
    cbn [bind Monad_M get page_url_now seedPage world set_trace set_world].
    rewrite E. reflexivity.
  - destruct (loadAndHandlePage_effects _ _ _ _ _ _ E) as (evs & Ht & Hf).
    cbn [trace set_trace set_world] in Ht.
    exists (EvNewPage p :: EvLog log_info (subpageUrl ++ ": Loading page")%string
            :: EvDb (ArchivePage
                       (pending_visit FLAGS subpageUrl
                          {| pageType := SUBPAGE; referrerPageId := Some pageId;
                             referrerPageUrl := Some (url_of (seedPage s) w);
                             referrerAd := None; reload := 0 |}
                          (set_trace (trace s ++ [EvNewPage p]) (set_world w s))))
            :: evs).
    split; [rewrite Ht, <- app_assoc; reflexivity|].
    repeat (constructor; [discriminate|]).
    eapply Forall_impl; [|exact Hf]. intros ev Hev Heq. subst ev.
    simpl in Hev. destruct Hev as [_ Hc]. now apply Hc.
Qed.

End Own_visit.

(** ** The pointer while scrolling, and pages already at their bottom *)

Section Scroll_pointer.

Context {W : Type} {driver : Driver W} {runtime : Runtime}.
Variable FLAGS : CrawlerFlags.

Lemma filtering_pointer_free e : filtering e -> pointer_free e.
Proof. destruct e; simpl; try tauto; intros _; reflexivity. Qed.

Lemma still_pointer_free page a :
  pointer_free (EvPage page a) ->
  at_most pointer 0 in_pointer_range (page_await FLAGS page a).
Proof.
  intros Ha. apply (at_most_task pointer in_pointer_range pointer_free); [auto|].
  apply task_page_await; [apply filtering_pointer_free | exact Ha].
Qed.

Lemma evaluate_pointer_free page q :
  at_most pointer 0 in_pointer_range (page_evaluate page q : M W Q).
Proof.
  apply (at_most_task pointer in_pointer_range pointer_free); [auto|].
  unfold page_evaluate. apply task_bind; [now apply task_emit|].
  intros _. apply task_await.
Qed.

Lemma randrange_pointer_free low high :
  at_most pointer 0 in_pointer_range (randrange low high : M W Q).
Proof.
  apply (at_most_task pointer in_pointer_range pointer_free); [auto|].
  apply task_randrange.
Qed.

Lemma one_pointer page x y :
  in_pointer_range (x, y) ->
  at_most pointer 1 in_pointer_range (page_await FLAGS page (MouseMove x y)).
Proof.
  intros Hd. unfold page_await. change 1 with (1 + 0).
  apply at_most_seq; [now apply (at_most_emit_one pointer in_pointer_range _ (x, y))|].
  intros _. apply (at_most_task pointer in_pointer_range pointer_free); [auto|].
  apply task_settle. apply filtering_pointer_free.
Qed.

Lemma scroll_loop_pointers left page innerHeight scrollY scrollHeight :
  random_unit W ->
  at_most pointer left in_pointer_range
          (scroll_loop FLAGS left page innerHeight scrollY scrollHeight).
Proof.
  intros Hr. revert scrollY.
  assert (Hx : forall (s s' : State W) d,
             randrange (50 # 1) (100 # 1) s = (s', Ok d) ->
             (50 # 1 <= d)%Q /\ (d <= 100 # 1)%Q).
  { intros s s' d E. apply (randrange_in_range _ _ _ _ _ Hr) in E; [exact E|].
    unfold Qle. simpl. lia. }
  induction left as [|left IH]; intros scrollY; cbn [scroll_loop].
  - apply at_most_ret.
  - destruct (Qlt_bool (scrollY + innerHeight) scrollHeight);
      [|eapply at_most_weaken; [|apply at_most_ret]; lia].
    change (S left) with (0 + (0 + (0 + (1 + (0 + (0 + (0 + left))))))).
    apply (at_most_bind pointer in_pointer_range 0 _
             (fun d => (50 # 1 <= d)%Q /\ (d <= 100 # 1)%Q));
      [exact Hx | apply randrange_pointer_free|].
    intros xloc Hxloc.
    apply (at_most_bind pointer in_pointer_range 0 _
             (fun d => (50 # 1 <= d)%Q /\ (d <= 100 # 1)%Q));
      [exact Hx | apply randrange_pointer_free|].
    intros yloc Hyloc.
    apply at_most_seq; [apply randrange_pointer_free|]. intros ydelta.
    apply at_most_seq; [apply one_pointer; now split|]. intros _.
    apply at_most_seq; [now apply still_pointer_free|]. intros _.
    apply at_most_seq; [now apply still_pointer_free|]. intros _.
    apply at_most_seq; [apply evaluate_pointer_free|]. intros scrollY'.
    apply IH.
Qed.

(** X3. While a page is scrolled the pointer is moved at most 30 times,
    each time to a position whose two coordinates lie from 50 to 100. *)
Theorem scroll_pointer_within_range page (s : State W) :
  random_unit W ->
  exists s' o evs,
    scrollDownPage FLAGS page s = (s', o)
    /\ trace s' = trace s ++ evs
    /\ length (pick pointer evs) <= 30
    /\ Forall in_pointer_range (pick pointer evs).
Proof.
  intros Hr.
  assert (H : at_most pointer 30 in_pointer_range (scrollDownPage FLAGS page)).
  { unfold scrollDownPage. change 30 with (0 + (0 + (0 + (0 + (0 + 30))))).
    apply at_most_seq;
      [apply (at_most_task pointer in_pointer_range pointer_free); [auto | apply task_get]|].
    intros u.
    apply at_most_seq;
      [apply (at_most_task pointer in_pointer_range pointer_free);
       [auto | now apply task_log]|].
    intros _.
    apply at_most_seq; [apply evaluate_pointer_free|]. intros innerHeight.
    apply at_most_seq; [apply evaluate_pointer_free|]. intros scrollY.
    apply at_most_seq; [apply evaluate_pointer_free|]. intros scrollHeight.
    now apply scroll_loop_pointers. }
  destruct (scrollDownPage FLAGS page s) as [s' o] eqn:E.
  destruct (H _ _ _ E) as (evs & T & L & F).
  exists s', o, evs. now repeat split.
Qed.

End Scroll_pointer.

(** ** The life of a run record *)

Section Lifecycle.

Context {W : Type} {driver : Driver W} {runtime : Runtime} {network : Network W}.
Variable FLAGS : CrawlerFlags.
Variable inputs : CrawlInputs.

(** When a prior run is taken up, nothing is written to the store. *)
Lemma resume_or_create_reads (s s' : State W) o :
  resumes FLAGS (db s) = true ->
  resume_or_create FLAGS inputs s = (s', o) ->
  db s' = db s /\ world s' = world s.
Proof.
  unfold resumes, resume_or_create, find_run_by_name, select_crawl_by_name.
  destruct (crawlName FLAGS) as [n|]; [|discriminate].
  destruct (truthy n); [|discriminate].
  cbn [bind Monad_M emit modify get db set_trace andb].
  destruct (filter (name_is n) (crawl_table (db s))) as [|row0 rest];
    cbn [hd_error]; [destruct (resumeIfAble FLAGS); simpl; discriminate|].
  destruct (resumeIfAble FLAGS); [|discriminate]. intros _.
  destruct (crawl_list row0) as [file|]; cbn [path_basename bind Monad_M ret raise Exc_M];
    [|intros E; inversion E; now subst].
  destruct (negb (basename file =? basename (crawlListFile inputs))%string);
    cbn [when bind Monad_M ret]; [intros E; inversion E; now subst|].
  destruct (negb (Nat.eqb (crawl_list_length row0) (length (crawlList inputs))));
    cbn [when bind Monad_M ret]; [intros E; inversion E; now subst|].
  destruct (completed row0);
    cbn [when bind Monad_M ret]; intros E; inversion E; now subst.
Qed.

(** X4. The decision to create the run record: unless a crawl name is
    given, resume is enabled and a run of that name exists, the public
    address is looked up and exactly one record is inserted, with a new
    identity, index 0 and not completed, the run takes its identity and
    starts at index 0 (so with resume enabled and no prior run of the
    name, and with an empty name, a run is created); before the insert
    nothing is printed but a line for each lookup of the address that
    threw; in the other case nothing is written to the store, whatever the
    decision then is. *)
Theorem run_record_created_unless_resuming (s : State W) :
  racing s = None ->
  exists s' o,
    resume_or_create FLAGS inputs s = (s', o)
    /\ if resumes FLAGS (db s) then db s' = db s
       else o = Ok 0
            /\ crawl_table (db s') = crawl_table (db s) ++ [new_run FLAGS inputs (db s)]
            /\ ~ In (id (new_run FLAGS inputs (db s))) (map id (crawl_table (db s)))
            /\ CRAWL_ID s' = id (new_run FLAGS inputs (db s))
            /\ trace s' = trace s ++ lookup_events FLAGS
                                  ++ printed_by_lookup (world s)
                                  ++ [EvDb (InsertCrawl (new_run FLAGS inputs (db s)))].
Proof.
  intros R. destruct (resumes FLAGS (db s)) eqn:Hr.
  - destruct (resume_or_create FLAGS inputs s) as [s' o] eqn:E.
    exists s', o. split; [reflexivity|]. exact (proj1 (resume_or_create_reads s s' o Hr E)).
  - destruct (resume_or_create_creates FLAGS inputs s R Hr) as (s' & E & T & D & C & _).
    exists s', (Ok 0). split; [exact E|]. repeat split; try assumption.
    apply fresh_id_fresh.
Qed.

Lemma filter_name_update n c f rows :
  (forall r, name (f r) = name r) ->
  filter (name_is n) (update_where c f rows) =
  update_where c f (filter (name_is n) rows).
Proof.
  intros Hf. unfold update_where.
  induction rows as [|r rows IH]; [reflexivity|]. cbn [map filter].
  assert (E : name_is n (if (id r =? c)%Z then f r else r) = name_is n r).
  { destruct (id r =? c)%Z; [|reflexivity]. unfold name_is. now rewrite Hf. }
  rewrite E. destruct (name_is n r); cbn [map]; now rewrite IH.
Qed.

Lemma update_where_fresh c f rows row :
  id row = c -> ~ In c (map id rows) ->
  update_where c f (rows ++ [row]) = rows ++ [f row].
Proof.
  intros Hrow Hfresh. unfold update_where. rewrite map_app. f_equal.
  - rewrite <- (map_id rows) at 2. apply map_ext_in. intros r Hr.
    destruct (id r =? c)%Z eqn:E; [|reflexivity].
    apply Z.eqb_eq in E. exfalso. apply Hfresh. rewrite <- E. now apply in_map.
  - cbn [map]. now rewrite (proj2 (Z.eqb_eq _ _) Hrow).
Qed.

(** The record of a run created under name [n] in a store with no run of
    that name is the one the query by name finds, with the index the last
    completed turn persisted. *)
Lemma progress_found n k rows row :
  filter (name_is n) rows = [] -> name row = Some n ->
  filter (name_is n) (update_where (id row) (set_index k) (rows ++ [row])) =
  [set_index k row].
Proof.
  intros Hnone Hname. rewrite filter_name_update by (now intros []).
  rewrite filter_app, Hnone. cbn [filter app]. unfold name_is at 1.
  rewrite Hname, String.eqb_refl. cbn [update_where map].
  now rewrite Z.eqb_refl.
Qed.

Lemma find_none_rows n (d : Db) :
  find_run_by_name n d = None -> filter (name_is n) (crawl_table d) = [].
Proof.
  unfold find_run_by_name. now destruct (filter (name_is n) (crawl_table d)).
Qed.

Lemma named_not_resuming n (s : State W) :
  crawlName FLAGS = Some n -> find_run_by_name n (db s) = None ->
  resumes FLAGS (db s) = false.
Proof.
  intros Hname Hfind. unfold resumes. rewrite Hname, Hfind. apply andb_false_r.
Qed.

(** What the first turns of a newly created run leave in the table of
    runs, however they end: the index is that of the last turn that
    persisted it. *)
Lemma turns_of_new_run k (s : State W) :
  racing s = None ->
  resumes FLAGS (db s) = false ->
  exists s1,
    resume_or_create FLAGS inputs s = (s1, Ok 0)
    /\ CRAWL_ID s1 = id (new_run FLAGS inputs (db s))
    /\ racing s1 = None
    /\ forall sk o,
         for_from k 0 (crawl_item FLAGS inputs) s1 = (sk, o) ->
         exists evs,
           trace sk = trace s1 ++ evs
           /\ length (persisted evs) <= k
           /\ (o = Ok tt -> length (persisted evs) = k)
           /\ crawl_table (db sk) =
              update_where (id (new_run FLAGS inputs (db s)))
                           (set_index (length (persisted evs)))
                           (crawl_table (db s) ++ [new_run FLAGS inputs (db s)]).
Proof.
  intros R Hr.
  destruct (resume_or_create_creates FLAGS inputs s R Hr)
    as (s1 & E1 & T1 & D1 & C1 & W1 & R1).
  exists s1. split; [exact E1|]. split; [exact C1|]. split; [exact R1|].
  intros sk o Ek.
  destruct (for_from_run FLAGS inputs k 0 s1 R1)
    as (sk' & o' & evs & m & Ek' & Tk & Hm & _ & Pk & _ & Dk & Ho & _).
  rewrite Ek in Ek'. inversion Ek'; subst sk' o'. clear Ek'.
  assert (Hlen : length (persisted evs) = m).
  { rewrite Pk, length_map, length_seq. reflexivity. }
  exists evs. rewrite Hlen. split; [exact Tk|]. split; [exact Hm|].
  split.
  { intros ->. now destruct Ho. }
  rewrite Dk, C1, D1. destruct m as [|m]; [|reflexivity].
  symmetry. apply update_where_same. intros r Hin Hid.
  apply in_app_or in Hin. destruct Hin as [Hin | [<- | []]]; [|reflexivity].
  exfalso. apply (fresh_id_fresh (map id (crawl_table (db s)))).
  change (fresh_id (map id (crawl_table (db s)))) with (id (new_run FLAGS inputs (db s))).
  rewrite <- Hid. now apply in_map.
Qed.

(** X5. Create, progress, resume: a run created under a crawl name no
    run has, from a crawl list file, and interrupted during its first [k]
    turns or after them, is taken up by a later process given the same
    name, the same inputs and resume enabled: that process takes the
    identity of the run and starts at the index the run persisted last,
    which is the number of turns that persisted theirs, and is [k] when the
    [k] turns ended normally; it writes nothing to the store.  The [k]
    turns do end normally with a browser that opens tabs and closes
    them. *)
Theorem interrupted_run_resumes_at_next_index k n (F' : CrawlerFlags) (s : State W) :
  racing s = None ->
  k <= length (crawlList inputs) ->
  crawlName FLAGS = Some n -> truthy n = true ->
  find_run_by_name n (db s) = None ->
  truthy (crawlListFile inputs) = true ->
  crawlName F' = Some n -> resumeIfAble F' = true ->
  exists s1,
    resume_or_create FLAGS inputs s = (s1, Ok 0)
    /\ (forall sk o,
         for_from k 0 (crawl_item FLAGS inputs) s1 = (sk, o) ->
         exists evs,
           trace sk = trace s1 ++ evs
           /\ length (persisted evs) <= k
           /\ (o = Ok tt -> length (persisted evs) = k)
           /\ forall s2 : State W,
                crawl_table (db s2) = crawl_table (db sk) ->
                resume_or_create F' inputs s2 =
                (set_CRAWL_ID (CRAWL_ID s1)
                   (set_trace (trace s2 ++ [EvDb (SelectCrawlByName n)]) s2),
                 Ok (length (persisted evs))))
    /\ (tabs_open W -> ~ close_rejected W ->
        exists sk, for_from k 0 (crawl_item FLAGS inputs) s1 = (sk, Ok tt)).
Proof.
  intros R _ Hname Htruthy Hfind Hfile Hname' Hresume'.
  destruct (turns_of_new_run k s R (named_not_resuming n s Hname Hfind))
    as (s1 & E1 & C1 & R1 & Hk).
  exists s1. split; [exact E1|].
  split; [|intros Htabs Hclose; now apply for_from_completes].
  intros sk o Ek. destruct (Hk sk o Ek) as (evs & Tk & Hle & Hok & Dk).
  exists evs. split; [exact Tk|]. split; [exact Hle|]. split; [exact Hok|].
  intros s2 D2.
  unfold resume_or_create, select_crawl_by_name. rewrite Hname', Htruthy.
  cbn [bind Monad_M emit modify get db set_trace].
  rewrite D2, Dk, (progress_found n _ (crawl_table (db s)) (new_run FLAGS inputs (db s))
       (find_none_rows n _ Hfind) Hname), Hresume'.
  cbn [set_index new_run crawl_list crawl_list_length completed
       crawl_list_current_index id].
  rewrite Hfile. cbn [path_basename bind Monad_M ret].
  rewrite String.eqb_refl, Nat.eqb_refl, C1. reflexivity.
Qed.

(** X6. A named run of a single url cannot be taken up again: its
    record stores the url in place of a crawl list file, and a later
    process with the same name, the same url and resume enabled compares
    the basename of that url with the basename of the empty file name; as
    these differ it exits with code 1 after a diagnostic, however the
    turns of the run have ended.  The turns do end normally with a browser
    that opens tabs and closes them. *)
Theorem single_url_run_is_not_resumed k n u (F' : CrawlerFlags) (s : State W) :
  racing s = None ->
  k <= length (crawlList inputs) ->
  crawlName FLAGS = Some n -> truthy n = true ->
  find_run_by_name n (db s) = None ->
  crawlListFile inputs = ""%string -> url_flag FLAGS = Some u ->
  basename u <> basename ""%string ->
  crawlName F' = Some n -> resumeIfAble F' = true ->
  exists s1,
    resume_or_create FLAGS inputs s = (s1, Ok 0)
    /\ (forall sk o,
         for_from k 0 (crawl_item FLAGS inputs) s1 = (sk, o) ->
         forall s2 : State W,
           crawl_table (db s2) = crawl_table (db sk) ->
           exists msg,
             resume_or_create F' inputs s2 =
             (set_trace ((trace s2 ++ [EvDb (SelectCrawlByName n)])
                         ++ [EvLog console_log msg]) s2, Exit 1%Z))
    /\ (tabs_open W -> ~ close_rejected W ->
        exists sk, for_from k 0 (crawl_item FLAGS inputs) s1 = (sk, Ok tt)).
Proof.
  intros R _ Hname Htruthy Hfind Hfile Hurl Hbase Hname' Hresume'.
  destruct (turns_of_new_run k s R (named_not_resuming n s Hname Hfind))
    as (s1 & E1 & C1 & R1 & Hk).
  exists s1. split; [exact E1|].
  split; [|intros Htabs Hclose; now apply for_from_completes].
  intros sk o Ek s2 D2. destruct (Hk sk o Ek) as (evs & _ & _ & _ & Dk).
  apply (resume_or_create_rejects F' inputs s2 n
           (set_index (length (persisted evs)) (new_run FLAGS inputs (db s))) u
           Hname' Htruthy Hresume').
  - unfold find_run_by_name.
    now rewrite D2, Dk, (progress_found n _ (crawl_table (db s)) (new_run FLAGS inputs (db s))
       (find_none_rows n _ Hfind) Hname).
  - cbn [set_index new_run crawl_list]. now rewrite Hfile.
  - left. now rewrite Hfile.
Qed.

End Lifecycle.
(** ** The crawl from validation to completion *)

Section Whole_crawl.

Context {W : Type} {driver : Driver W} {runtime : Runtime} {network : Network W}.
Variable FLAGS : CrawlerFlags.
Variable inputs : CrawlInputs.

Lemma lookup_events_first_visit : pick first_visit (lookup_events FLAGS) = [].
Proof.
  unfold lookup_events. destruct (crawlName FLAGS) as [n|]; [|reflexivity].
  now destruct (truthy n).
Qed.

Lemma printed_first_visit (w : W) : pick first_visit (printed_by_lookup w) = [].
Proof.
  unfold printed_by_lookup. induction (lookup_failures w) as [|e l IH];
    [reflexivity | exact IH].
Qed.

Lemma set_index_same (row : crawl_row) :
  set_index (crawl_list_current_index row) row = row.
Proof. now destruct row. Qed.

(** The main loop from index 0 on the record of a newly created run. *)
Lemma main_loop_of_new_run (s : State W) rows row :
  racing s = None ->
  crawl_table (db s) = rows ++ [row] -> CRAWL_ID s = id row ->
  ~ In (id row) (map id rows) -> crawl_list_current_index row = 0 ->
  exists s' o evs m,
    main_loop FLAGS inputs 0 s = (s', o)
    /\ trace s' = trace s ++ evs
    /\ m <= length (crawlList inputs)
    /\ attempted evs = firstn m (crawlList inputs)
    /\ persisted evs = map (fun i => (i + 1, id row)) (seq 0 m)
    /\ match o with
       | Ok _ =>
           m = length (crawlList inputs)
           /\ crawl_table (db s') =
              rows ++ [set_completed (set_index (length (crawlList inputs)) row)]
       | Throw e =>
           m < length (crawlList inputs) /\ tab_refused e
           /\ stopped_at_tab (crawlList inputs) (OVERALL_TIMEOUT inputs) m evs
           /\ crawl_table (db s') = rows ++ [set_index m row]
       | Exit code =>
           code = 1%Z /\ 0 < m /\ close_rejected W /\ stopped_at_close evs
           /\ crawl_table (db s') = rows ++ [set_index m row]
       | Abandoned => False
       end.
Proof.
  intros R D C Hfresh Hzero.
  destruct (main_loop_run FLAGS inputs 0 s R)
    as (s1 & o & evs & m & E1 & T1 & Hm & A1 & P1 & _ & Ho).
  rewrite Nat.sub_0_r in *. cbn [Nat.add] in Ho.
  assert (Hrows : match m with
                  | O => crawl_table (db s)
                  | S _ => update_where (CRAWL_ID s) (set_index m) (crawl_table (db s))
                  end = rows ++ [set_index m row]).
  { rewrite C, D. destruct m as [|m].
    - now rewrite <- Hzero, set_index_same.
    - now apply update_where_fresh. }
  exists s1, o, evs, m. split; [exact E1|]. split; [exact T1|]. split; [exact Hm|].
  split; [rewrite A1; apply nth_seq_firstn; rewrite Nat.sub_0_r; exact Hm|].
  split; [now rewrite P1, C|].
  destruct o as [[]|e|code|].
  - destruct Ho as (-> & _ & ->). split; [reflexivity|].
    rewrite Hrows, C. now apply update_where_fresh.
  - destruct Ho as (Hlt & Hr & Hstop & ->). now repeat split.
  - destruct Ho as (-> & Hpos & Hc & Hstop & ->).
    repeat split; try assumption.
    rewrite <- Hrows. destruct m; [lia | reflexivity].
  - contradiction.
Qed.

(** X7. The whole crawl, when nothing stops it before the main loop: on
    a crawl list of well-formed urls, unless a prior run is taken up, with
    a browser that launches, for every behaviour of the tabs and of the
    sites: a first page visit is recorded for the urls of the list, in
    order; the records of the other runs are as they were, and the record
    of this run, the last of the table, has its index at the number of
    targets done.  When [crawl] ends normally these are all the targets,
    and the record is completed.  It ends otherwise only with the
    exception of a seed tab that the browser refuses, right after the
    timer of that target is armed, the record then not completed; or with
    [process.exit(1)] when the close of a seed tab is rejected. *)
Theorem crawl_completes_or_stops_between_targets (s : State W) :
  first_invalid 1 (crawlList inputs) = None ->
  resumes FLAGS (db s) = false ->
  browser_starts W -> racing s = None ->
  exists s' o evs m,
    crawl FLAGS inputs s = (s', o)
    /\ trace s' = trace s ++ evs
    /\ m <= length (crawlList inputs)
    /\ attempted evs = firstn m (crawlList inputs)
    /\ match o with
       | Ok _ =>
           m = length (crawlList inputs)
           /\ crawl_table (db s') =
              crawl_table (db s)
              ++ [set_completed (set_index (length (crawlList inputs))
                                           (new_run FLAGS inputs (db s)))]
       | Throw e =>
           m < length (crawlList inputs) /\ tab_refused e
           /\ stopped_at_tab (crawlList inputs) (OVERALL_TIMEOUT inputs) m evs
           /\ crawl_table (db s') =
              crawl_table (db s) ++ [set_index m (new_run FLAGS inputs (db s))]
       | Exit code =>
           code = 1%Z /\ 0 < m /\ close_rejected W /\ stopped_at_close evs
           /\ exists row,
                crawl_table (db s') = crawl_table (db s) ++ [row]
                /\ id row = id (new_run FLAGS inputs (db s))
                /\ crawl_list_current_index row = m
       | Abandoned => False
       end.
Proof.
  intros Hvalid Hr Hstarts R.
  destruct (resume_or_create_creates FLAGS inputs s R Hr)
    as (s1 & E1 & T1 & D1 & C1 & W1 & R1).
  destruct (launch_browser_run FLAGS s1 Hstarts R1) as (s2 & v & E2 & T2 & D2 & C2 & R2).
  destruct (main_loop_of_new_run s2 (crawl_table (db s)) (new_run FLAGS inputs (db s)) R2)
    as (s3 & o & evs & m & E3 & T3 & Hm & A3 & _ & Ho);
    [congruence | congruence | apply fresh_id_fresh | reflexivity |].
  unfold crawl. rewrite bind_run, validate_run, Hvalid.
  rewrite bind_run, E1, bind_run, E2.
  exists s3, o. eexists. exists m. split; [exact E3|].
  split; [rewrite T3, T2, T1, <- !app_assoc; reflexivity|].
  split; [exact Hm|].
  split.
  { unfold attempted in *.
    rewrite !pick_app, lookup_events_first_visit, printed_first_visit, A3.
    reflexivity. }
  destruct o as [[]|e|code|]; try exact Ho.
  - destruct Ho as (Hlt & Hr' & Hstop & D3). repeat split; try assumption.
    do 4 apply stopped_at_tab_app. exact Hstop.
  - destruct Ho as (-> & Hpos & Hc & Hstop & D3).
    split; [reflexivity|]. split; [exact Hpos|]. split; [exact Hc|].
    split; [do 4 apply stopped_at_close_app; exact Hstop|].
    exists (set_index m (new_run FLAGS inputs (db s))). now split.
Qed.

(** X8. An empty crawl list: the run is created, the browser launched,
    and the run marked completed at once, with length 0; no timer is armed
    and no tab opened.  Nothing else is printed but a line for each lookup
    of the public address that threw. *)
Theorem empty_list_completes_at_once (s : State W) :
  crawlList inputs = [] ->
  resumes FLAGS (db s) = false ->
  browser_starts W -> racing s = None ->
  exists s' v time,
    crawl FLAGS inputs s = (s', Ok tt)
    /\ trace s' =
       trace s ++ lookup_events FLAGS
               ++ printed_by_lookup (world s)
               ++ [EvDb (InsertCrawl (new_run FLAGS inputs (db s)));
                   EvLog log_info "Launching browser...";
                   EvLaunch (chromeArgs FLAGS);
                   EvLog log_info ("Running " ++ v)%string;
                   EvDb (UpdateCrawlCompleted time (id (new_run FLAGS inputs (db s))))]
    /\ crawl_table (db s') =
       crawl_table (db s) ++ [set_completed (new_run FLAGS inputs (db s))]
    /\ crawl_list_length (new_run FLAGS inputs (db s)) = 0.
Proof.
  intros Hempty Hr Hstarts R.
  destruct (resume_or_create_creates FLAGS inputs s R Hr)
    as (s1 & E1 & T1 & D1 & C1 & W1 & R1).
  destruct (launch_browser_run FLAGS s1 Hstarts R1) as (s2 & v & E2 & T2 & D2 & C2 & R2).
  unfold crawl. rewrite bind_run, validate_run, Hempty. cbn [first_invalid].
  rewrite bind_run, E1, bind_run, E2.
  unfold main_loop. rewrite Hempty.
  cbn [length Nat.sub for_from bind Monad_M ret now get update_crawl_completed
       update_crawl emit modify].
  eexists. exists v, (Date_now (world s2)). split; [reflexivity|].
  cbn [trace set_trace set_db db crawl_table].
  split; [rewrite T2, T1, C2, C1, <- !app_assoc; reflexivity|].
  split; [|cbn [new_run crawl_list_length]; now rewrite Hempty].
  rewrite D2, D1, C2, C1.
  apply update_where_fresh; [reflexivity | apply fresh_id_fresh].
Qed.

(** X9. A tab that does not open at the top of a turn ends the crawl:
    the exception of [BROWSER.newPage()] leaves the main loop; the timer
    of the turn has been armed and is not cleared, the index is not
    persisted, and the run is not marked completed. *)
Theorem unopened_seed_tab_ends_the_crawl start (s : State W) w e :
  start < length (crawlList inputs) ->
  racing s = None ->
  newPage (world s) = (w, inl e) ->
  main_loop FLAGS inputs start s =
  (set_world w
     (set_trace (trace s ++ [EvSetTimeout (timeout_message (crawlList inputs) start)
                                          (OVERALL_TIMEOUT inputs)
                                          (Date_now (world s))]) s),
   Throw e).
Proof.
  intros Hstart R N. unfold main_loop.
  destruct (length (crawlList inputs) - start) as [|n] eqn:En; [lia|].
  cbn [for_from]. rewrite !bind_run. unfold crawl_item at 1.
  rewrite bind_run, createAsyncTimeout_run, bind_run.
  rewrite (BROWSER_newPage_fails _ w e); [reflexivity | exact R | exact N].
Qed.

(** X10. The run record is created before the browser is launched: when
    the launch fails, [crawl] throws, and the record of the new run stays
    in the store, at index 0 and not completed; no tab has been opened.
    Before the launch nothing is printed but a line for each lookup of the
    public address that threw. *)
Theorem failed_launch_leaves_the_run_record (s : State W) w e :
  first_invalid 1 (crawlList inputs) = None ->
  resumes FLAGS (db s) = false ->
  racing s = None ->
  launch (chromeArgs FLAGS) (after_lookup (world s)) = (w, inl e) ->
  exists s',
    crawl FLAGS inputs s = (s', Throw e)
    /\ trace s' =
       trace s ++ lookup_events FLAGS
               ++ printed_by_lookup (world s)
               ++ [EvDb (InsertCrawl (new_run FLAGS inputs (db s)));
                   EvLog log_info "Launching browser...";
                   EvLaunch (chromeArgs FLAGS)]
    /\ crawl_table (db s') = crawl_table (db s) ++ [new_run FLAGS inputs (db s)].
Proof.
  intros Hvalid Hr R L.
  destruct (resume_or_create_creates FLAGS inputs s R Hr)
    as (s1 & E1 & T1 & D1 & C1 & W1 & R1).
  unfold crawl. rewrite bind_run, validate_run, Hvalid.
  rewrite bind_run, E1, bind_run.
  rewrite (launch_browser_fails FLAGS s1 w e); [|exact R1 | now rewrite W1].
  eexists. split; [reflexivity|]. cbn [trace set_trace set_world db].
  split; [rewrite T1, <- !app_assoc; reflexivity | exact D1].
Qed.

(** X11. The closure [_crawl] never throws and never exits: it ends
    normally, and then the last thing it did was to clear the timer it was
    given; or it is abandoned, and then that is because the timer it is
    raced against has fired. *)
Theorem inner_crawl_ends_by_clearing_its_timer url prevAdId urlTimeout (s : State W) :
  exists s' o evs,
    _crawl FLAGS inputs url prevAdId urlTimeout s = (s', o)
    /\ trace s' = trace s ++ evs
    /\ match o with
       | Ok _ => exists evs', evs = evs' ++ [EvClearTimeout (timer_message urlTimeout)]
       | Abandoned =>
           exists t, racing s = Some t /\ (fires_at t <= Date_now (world s'))%Z
       | _ => False
       end.
Proof.
  unfold _crawl, finally. rewrite catch_run.
  destruct (crawl_work FLAGS inputs url prevAdId s) as [s1 o1] eqn:E1.
  pose proof E1 as R1. apply crawl_work_run in R1.
  destruct R1 as ((row & evs & T1 & _ & _) & _ & N1 & A1).
  destruct o1 as [[]|e|code| ].
  - eexists. eexists.
    exists ((EvLog log_info (url ++ ": Loading page")%string :: EvDb (ArchivePage row) :: evs)
            ++ [EvClearTimeout (timer_message urlTimeout)]).
    split; [reflexivity|]. cbn [trace set_trace]. rewrite T1, <- app_assoc.
    split; [reflexivity | now eexists].
  - rewrite log_failure_run. cbn [bind Monad_M clearTimeout emit].
    eexists. eexists.
    exists ((EvLog log_info (url ++ ": Loading page")%string :: EvDb (ArchivePage row)
             :: evs ++ [EvLogError e (url_of (seedPage s1) (world s1))])
            ++ [EvClearTimeout (timer_message urlTimeout)]).
    split; [reflexivity|]. cbn [trace set_trace]. rewrite T1.
    split; [|now eexists]. rewrite <- !app_assoc. cbn [app]. now rewrite <- app_assoc.
  - exfalso. now apply (N1 code).
  - exists s1, Abandoned. eexists. split; [reflexivity|]. split; [exact T1|].
    now apply A1.
Qed.

End Whole_crawl.

Section Scroll_bottom.

Context {W : Type} {driver : Driver W} {runtime : Runtime}.
Variable FLAGS : CrawlerFlags.

Lemma page_evaluate_in_time page q (s : State W) w v :
  evaluate page q (world s) = (w, inr v) -> in_time (racing s) w ->
  page_evaluate page q s =
  (set_world w (set_trace (trace s ++ [EvEvaluate page q]) s), Ok v).
Proof.
  intros E R. unfold page_evaluate, await, emit, modify.
  cbn [bind Monad_M world set_trace]. rewrite E. cbv beta iota.
  rewrite expired_in_time by exact R. reflexivity.
Qed.

(** X12. A page that is measured at its bottom is left alone: when the
    three measurements give [scrollY + innerHeight >= scrollHeight] (and
    the timer of the target has not fired meanwhile), the function returns
    after them, without a pointer move, a wheel scroll or a pause. *)
Theorem page_at_bottom_is_left_alone page (s : State W) w1 w2 w3 ih y sh :
  evaluate page InnerHeight (world s) = (w1, inr ih) ->
  evaluate page ScrollY w1 = (w2, inr y) ->
  evaluate page ScrollHeight w2 = (w3, inr sh) ->
  in_time (racing s) w1 -> in_time (racing s) w2 -> in_time (racing s) w3 ->
  (sh <= y + ih)%Q ->
  exists s',
    scrollDownPage FLAGS page s = (s', Ok tt)
    /\ trace s' =
       trace s ++ [EvLog log_info (url_of page (world s)
                                   ++ ": Scrolling page from top to bottom")%string;
                   EvEvaluate page InnerHeight;
                   EvEvaluate page ScrollY;
                   EvEvaluate page ScrollHeight]
    /\ world s' = w3.
Proof.
  intros E1 E2 E3 R1 R2 R3 Hb.
  assert (Hstop : Qlt_bool (y + ih) sh = false).
  { unfold Qlt_bool. apply Qle_bool_iff in Hb. now rewrite Hb. }
  unfold scrollDownPage, page_url_now, log.
  rewrite bind_run. cbn [get]. rewrite bind_run.
  unfold emit at 1, modify at 1. cbv beta iota.
  rewrite bind_run.
  match goal with
  | |- context [page_evaluate page InnerHeight ?st] =>
      rewrite (page_evaluate_in_time page InnerHeight st w1 ih E1 R1)
  end.
  rewrite bind_run.
  match goal with
  | |- context [page_evaluate page ScrollY ?st] =>
      rewrite (page_evaluate_in_time page ScrollY st w2 y E2 R2)
  end.
  rewrite bind_run.
  match goal with
  | |- context [page_evaluate page ScrollHeight ?st] =>
      rewrite (page_evaluate_in_time page ScrollHeight st w3 sh E3 R3)
  end.
  cbn [scroll_loop]. rewrite Hstop. eexists. split; [reflexivity|].
  cbn [trace world set_trace set_world]. rewrite <- !app_assoc. now split.
Qed.

End Scroll_bottom.

(** ** The public address of the crawler *)

Section Public_ip_properties.

Context {W : Type} {driver : Driver W} {network : Network W}.

(** X13. [getPublicIp] never throws, whatever the two lookups do; it
    writes nothing to the store; it resolves to [null] exactly when both
    lookups threw; and an address it resolves to is not empty. *)
Theorem getPublicIp_never_throws (s : State W) :
  racing s = None ->
  exists s' r,
    getPublicIp s = (s', Ok r)
    /\ db s' = db s
    /\ (r = Ip_null <->
        exists w1 e w2 e',
          publicIpv4 (world s) = (w1, inl e) /\ publicIpv6 w1 = (w2, inl e'))
    /\ (forall a, r = Ip a -> truthy a = true).
Proof.
  intros R. unfold getPublicIp. rewrite catch_run, bind_run, (await_run _ s R).
  destruct (publicIpv4 (world s)) as [w1 [e|v4]] eqn:E4; cbn [fst snd].
  - rewrite bind_run. unfold console_log_exn at 1, emit at 1, modify at 1. cbv beta iota.
    rewrite catch_run, bind_run, await_run by exact R.
    cbn [world set_world set_trace].
    destruct (publicIpv6 w1) as [w2 [e'|v6]] eqn:E6; cbn [fst snd].
    + eexists. exists Ip_null. split; [reflexivity|]. split; [reflexivity|].
      split; [|discriminate]. split; [|reflexivity].
      intros _. exists w1, e, w2, e'. now split.
    + destruct (truthy v6) eqn:Ht; eexists; eexists; (split; [reflexivity|]);
        (split; [reflexivity|]); (split; [split; [discriminate|]|]).
      * intros (w1' & e1 & w2' & e2 & H4 & H6). inversion H4; subst.
        rewrite E6 in H6. discriminate.
      * intros a Ha. inversion Ha; now subst.
      * intros (w1' & e1 & w2' & e2 & H4 & H6). inversion H4; subst.
        rewrite E6 in H6. discriminate.
      * discriminate.
  - destruct (truthy v4) eqn:Ht; eexists; eexists; (split; [reflexivity|]);
      (split; [reflexivity|]); (split; [split; [discriminate|]|]).
    + intros (w1' & e1 & w2' & e2 & H4 & _). discriminate.
    + intros a Ha. inversion Ha; now subst.
    + intros (w1' & e1 & w2' & e2 & H4 & _). discriminate.
    + discriminate.
Qed.

(** X14. The IPv6 lookup is a fallback for an IPv4 lookup that throws,
    not for one that answers nothing: when the IPv4 lookup answers, the
    IPv6 lookup is not consulted and nothing is printed, and on an empty
    answer the function resolves to [undefined]. *)
Theorem ipv6_only_after_ipv4_throws (s : State W) w1 v4 :
  racing s = None ->
  publicIpv4 (world s) = (w1, inr v4) ->
  getPublicIp s =
  (set_world w1 s, Ok (if truthy v4 then Ip v4 else Ip_undefined)).
Proof.
  intros R E4. unfold getPublicIp. rewrite catch_run, bind_run, (await_run _ s R), E4.
  cbn [fst snd]. now destruct (truthy v4).
Qed.

End Public_ip_properties.

(** ** The crawl list, from the flags *)

Section Loading_properties.

Context {W : Type} {driver : Driver W} {host : Loading.Host W}.
Variable FLAGS : CrawlerFlags.
Variable flags : Loading.ListFlags.

Lemma split_lines_no_newline s :
  Forall (fun l => contains newline l = false) (split_lines s).
Proof.
  induction s as [|c s IH]; cbn [split_lines].
  - now repeat constructor.
  - destruct (Ascii.eqb c newline) eqn:E; [now constructor|].
    destruct (split_lines s) as [|l ls].
    + repeat constructor. cbn [contains]. now rewrite E.
    + inversion IH; subst. constructor; [|assumption].
      cbn [contains]. now rewrite E.
Qed.

Lemma given_truthy o u : Loading.given o = Some u -> o = Some u /\ truthy u = true.
Proof.
  unfold Loading.given. destruct o as [v|]; [|discriminate].
  destruct (truthy v) eqn:E; [|discriminate]. intros H. inversion H; now subst.
Qed.

Lemma reject_urls e r : Loading.urls (Loading.reject e r) = Loading.urls r.
Proof. unfold Loading.reject. now destruct (Loading.rejected r). Qed.

Lemma reject_adIds e r : Loading.adIds (Loading.reject e r) = Loading.adIds r.
Proof. unfold Loading.reject. now destruct (Loading.rejected r). Qed.

Lemma reject_rejected e r :
  Loading.rejected (Loading.reject e r) =
  match Loading.rejected r with
  | Some e0 => Some e0
  | None => Some e
  end.
Proof.
  unfold Loading.reject. destruct (Loading.rejected r) eqn:E; [exact E | reflexivity].
Qed.

(** What the handler leaves after the rows: the two lists have grown by
    one entry per row; the promise is rejected with the error of the first
    row that lacks a column, [ad_id] before [url]. *)
Lemma fold_on_data rows : forall r,
  let r' := fold_left (fun r data => Loading.on_data data r) rows r in
  length (Loading.urls r') = length (Loading.urls r) + length rows
  /\ length (Loading.adIds r') = length (Loading.adIds r) + length rows
  /\ (Loading.rejected r' = None ->
      Loading.rejected r = None /\ Forall Loading.complete rows
      /\ exists us, Loading.urls r' = Loading.urls r ++ us
                    /\ Forall (fun u => truthy u = true) us)
  /\ (forall e, Loading.rejected r = Some e -> Loading.rejected r' = Some e)
  /\ (Loading.rejected r = None -> Forall Loading.complete rows ->
      Loading.rejected r' = None).
Proof.
  induction rows as [|data rows IH]; intros r; cbn [fold_left length].
  - rewrite !Nat.add_0_r. repeat split; auto.
    exists []. now rewrite app_nil_r.
  - specialize (IH (Loading.on_data data r)). cbn zeta in IH.
    destruct IH as (Lu & La & Hnone & Hsome & Hgood).
    assert (Eu : Loading.urls (Loading.on_data data r) =
                 Loading.urls r ++ [match Loading.csv_url data with
                                    | Some u => u
                                    | None => "undefined"%string
                                    end]).
    { unfold Loading.on_data. cbn [Loading.urls].
      destruct (negb (truthy_opt (Loading.csv_url data)));
        destruct (negb (truthy_opt (Loading.csv_ad_id data)));
        now rewrite ?reject_urls. }
    assert (Ea : length (Loading.adIds (Loading.on_data data r)) =
                 S (length (Loading.adIds r))).
    { unfold Loading.on_data. cbn [Loading.adIds]. rewrite length_app. cbn [length].
      destruct (negb (truthy_opt (Loading.csv_url data)));
        destruct (negb (truthy_opt (Loading.csv_ad_id data)));
        rewrite ?reject_adIds; lia. }
    assert (Er : Loading.rejected (Loading.on_data data r) =
                 match Loading.rejected r with
                 | Some e0 => Some e0
                 | None =>
                     if negb (truthy_opt (Loading.csv_ad_id data))
                     then Some (JsError "ad_id column missing from adUrlList")
                     else if negb (truthy_opt (Loading.csv_url data))
                          then Some (JsError "url column missing from adUrlList")
                          else None
                 end).
    { unfold Loading.on_data. cbn [Loading.rejected].
      destruct (negb (truthy_opt (Loading.csv_url data)));
        destruct (negb (truthy_opt (Loading.csv_ad_id data)));
        rewrite ?reject_rejected; now destruct (Loading.rejected r). }
    split; [rewrite Lu, Eu, length_app; cbn [length]; lia|].
    split; [rewrite La, Ea; lia|].
    split; [|split].
    + intros H. destruct (Hnone H) as (H1 & Hrows & us & Hus & Hall).
      rewrite Er in H1. destruct (Loading.rejected r); [discriminate|].
      destruct (truthy_opt (Loading.csv_ad_id data)) eqn:Ead; [|discriminate].
      destruct (truthy_opt (Loading.csv_url data)) eqn:Eurl; [|discriminate].
      split; [reflexivity|]. split; [constructor; [now split | assumption]|].
      destruct (Loading.csv_url data) as [u|]; [|discriminate].
      exists (u :: us). split; [rewrite Hus, Eu, <- app_assoc; reflexivity|].
      constructor; assumption.
    + intros e He. apply Hsome. now rewrite Er, He.
    + intros Hr Hall. inversion Hall as [|? ? [Had Hurl] Hrest]; subst.
      apply Hgood; [|assumption]. now rewrite Er, Hr, Had, Hurl.
Qed.

Ltac not_ok :=
  let H := fresh in
  unfold log, emit, modify, process_exit; cbn [bind Monad_M raise Exc_M];
  intros H; discriminate H.

Lemma check_outputDir_ok (s s' : State W) :
  Loading.check_outputDir flags s = (s', Ok tt) ->
  s' = s
  /\ Loading.fs_existsSync (Loading.outputDir flags) (world s) = true
  /\ Loading.fs_accessSync (Loading.outputDir flags) (world s) = inr tt.
Proof.
  unfold Loading.check_outputDir. rewrite bind_run. cbn [get].
  destruct (Loading.fs_existsSync (Loading.outputDir flags) (world s)) eqn:Ef;
    cbn [negb when]; [|not_ok].
  rewrite bind_run. cbn [ret Monad_M]. rewrite catch_run. unfold Loading.sync at 1.
  destruct (Loading.fs_accessSync (Loading.outputDir flags) (world s)) as [e|[]] eqn:Ea.
  - unfold log, emit, modify, Loading.sync. cbn [bind Monad_M world set_trace].
    destruct (Loading.os_userInfo (world s)); cbn [bind Monad_M world set_trace];
      [not_ok|].
    destruct (Loading.fs_statSync (Loading.outputDir flags) (world s));
      cbn [bind Monad_M world set_trace]; not_ok.
  - intros H. inversion H. now repeat split.
Qed.

Lemma check_outputDir_stops (s : State W) :
  Loading.fs_existsSync (Loading.outputDir flags) (world s) = false
  \/ (exists e, Loading.fs_accessSync (Loading.outputDir flags) (world s) = inl e) ->
  exists s' o evs,
    Loading.check_outputDir flags s = (s', o)
    /\ world s' = world s /\ db s' = db s
    /\ (o = Exit 1%Z \/ exists e, o = Throw e)
    /\ trace s' = trace s ++ evs /\ diagnostics evs <> [].
Proof.
  intros Hwhy. unfold Loading.check_outputDir. rewrite bind_run. cbn [get].
  destruct (Loading.fs_existsSync (Loading.outputDir flags) (world s)) eqn:Ef;
    cbn [negb when].
  - destruct Hwhy as [Hwhy | [e Ha]]; [discriminate|].
    rewrite bind_run. cbn [ret Monad_M]. rewrite catch_run. unfold Loading.sync at 1.
    rewrite Ha. unfold log, emit, modify, Loading.sync.
    cbn [bind Monad_M world set_trace].
    destruct (Loading.os_userInfo (world s)) as [e1|user];
      cbn [bind Monad_M world set_trace].
    { eexists. eexists. eexists (_ :: _ :: nil). split; [reflexivity|].
      cbn [world db trace set_trace]. rewrite <- app_assoc.
      repeat split; [right; now eexists | discriminate]. }
    destruct (Loading.fs_statSync (Loading.outputDir flags) (world s)) as [e2|stat];
      cbn [bind Monad_M world set_trace].
    { eexists. eexists. eexists (_ :: _ :: _ :: _ :: nil). split; [reflexivity|].
      cbn [world db trace set_trace]. rewrite <- !app_assoc.
      repeat split; [right; now eexists | discriminate]. }
    eexists. eexists. eexists (_ :: _ :: _ :: _ :: _ :: nil). split; [reflexivity|].
    cbn [world db trace set_trace]. rewrite <- !app_assoc.
    repeat split; [now left | discriminate].
  - eexists. eexists. eexists (_ :: nil). split; [reflexivity|].
    cbn [world db trace set_trace].
    repeat split; [now left | discriminate].
Qed.

(** X15. The output directory is checked before anything else: when it
    does not exist, or cannot be read and written, the process exits with
    code 1 after a diagnostic (or throws, if the diagnostic itself cannot
    be produced); the store client has not been initialised and nothing
    has been read. *)
Theorem output_dir_is_checked_first (s : State W) :
  Loading.fs_existsSync (Loading.outputDir flags) (world s) = false
  \/ (exists e, Loading.fs_accessSync (Loading.outputDir flags) (world s) = inl e) ->
  exists s' o evs,
    Loading.load FLAGS flags s = (s', o)
    /\ world s' = world s /\ db s' = db s
    /\ (o = Exit 1%Z \/ exists e, o = Throw e)
    /\ trace s' = trace s ++ evs /\ diagnostics evs <> [].
Proof.
  intros Hwhy.
  destruct (check_outputDir_stops s Hwhy) as (s' & o & evs & E & Hw & Hd & Ho & Ht & Hn).
  unfold Loading.load. rewrite bind_run, E.
  destruct Ho as [-> | [e ->]].
  - exists s', (Exit 1%Z), evs. repeat split; try assumption. now left.
  - exists s', (Throw e), evs. repeat split; try assumption. right. now exists e.
Qed.

Lemma read_ad_urls_ok file (s s' : State W) r :
  Loading.read_ad_urls file s = (s', Ok r) ->
  length (Loading.adIds r) = length (Loading.urls r)
  /\ Forall (fun u => truthy u = true) (Loading.urls r)
  /\ length (Loading.urls r) = length (Loading.csv_rows file (world s)).
Proof.
  unfold Loading.read_ad_urls. rewrite bind_run. cbn [get].
  set (start := {| Loading.rejected := None; Loading.urls := [];
                   Loading.adIds := [] |}).
  destruct (fold_on_data (Loading.csv_rows file (world s)) start)
    as (Lu & La & Hnone & _).
  destruct (Loading.rejected
              (fold_left (fun r data => Loading.on_data data r)
                         (Loading.csv_rows file (world s)) start)) eqn:Er;
    [not_ok|].
  intros H. inversion H; subst. clear H.
  destruct (Hnone eq_refl) as (_ & _ & us & Hus & Hall).
  cbn [Loading.urls Loading.adIds start length Nat.add app] in *.
  repeat split; [congruence | now rewrite Hus | assumption].
Qed.

Lemma read_crawl_list_ok (s s' : State W) l :
  Loading.read_crawl_list FLAGS flags s = (s', Ok l) ->
  Forall (fun url => truthy url = true) (Loading.crawlList l)
  /\ (if Loading.isAdUrlCrawl l
      then length (Loading.crawlListAdIds l) = length (Loading.crawlList l)
      else Loading.crawlListAdIds l = []).
Proof.
  unfold Loading.read_crawl_list.
  destruct (Loading.given (url_flag FLAGS)) as [url|] eqn:Eurl.
  { apply given_truthy in Eurl. destruct Eurl as [_ Hu].
    intros H. inversion H; subst. clear H. cbn [Loading.crawlList Loading.isAdUrlCrawl
                                                Loading.crawlListAdIds].
    split; [now repeat constructor|]. now destruct (Loading.truthy_number _). }
  destruct (Loading.given (Loading.urlList flags)) as [file|] eqn:Elist.
  { rewrite bind_run. cbn [get].
    destruct (Loading.fs_existsSync file (world s)); cbn [negb when];
      [|not_ok].
    rewrite bind_run. cbn [ret Monad_M]. rewrite bind_run. unfold Loading.sync.
    destruct (Loading.fs_readFileSync file (world s)) as [e|content]; [not_ok|].
    intros H. inversion H; subst. clear H.
    cbn [Loading.crawlList Loading.isAdUrlCrawl Loading.crawlListAdIds].
    split; [|reflexivity]. apply Forall_forall. intros u Hu.
    apply filter_In in Hu. destruct Hu as [_ Hu]. now destruct u. }
  destruct (Loading.given (Loading.adUrlList flags)) as [file|] eqn:Eads;
    [|not_ok].
  rewrite bind_run. cbn [get].
  destruct (Loading.fs_existsSync file (world s)); cbn [negb when]; [|not_ok].
  rewrite bind_run. cbn [ret Monad_M]. rewrite bind_run.
  destruct (Loading.read_ad_urls file s) as [s1 [r|e|code| ]] eqn:Er; try not_ok.
  intros H. inversion H; subst. clear H.
  cbn [Loading.crawlList Loading.isAdUrlCrawl Loading.crawlListAdIds].
  destruct (read_ad_urls_ok _ _ _ _ Er) as (Hl & Hall & _). now split.
Qed.

(** X16. What the rest of [crawl] can rely on once the crawl list is
    loaded, in each of the three input modes: no url of the list is empty;
    in an ad-url crawl there is one ad id per url, so that
    [crawlListAdIds[i]] is defined for every index of the list, and
    otherwise there are no ad ids; and the output directory exists and can
    be read and written. *)
Theorem loaded_list_is_well_formed (s s' : State W) l :
  Loading.load FLAGS flags s = (s', Ok l) ->
  Forall (fun url => truthy url = true) (Loading.crawlList l)
  /\ (if Loading.isAdUrlCrawl l
      then length (Loading.crawlListAdIds l) = length (Loading.crawlList l)
      else Loading.crawlListAdIds l = [])
  /\ Loading.fs_existsSync (Loading.outputDir flags) (world s) = true
  /\ Loading.fs_accessSync (Loading.outputDir flags) (world s) = inr tt.
Proof.
  unfold Loading.load. rewrite bind_run.
  destruct (Loading.check_outputDir flags s) as [s1 [[]|e|code| ]] eqn:E1;
    try not_ok.
  destruct (check_outputDir_ok _ _ E1) as (-> & Hf & Ha).
  rewrite bind_run.
  destruct (await Loading.DbClient_initialize s) as [s2 [[]|e|code| ]] eqn:E2;
    try not_ok.
  intros E3. destruct (read_crawl_list_ok _ _ _ E3) as [H1 H2]. now repeat split.
Qed.

(** X17. A list of urls read from a file: the run is tied to that file,
    it is not an ad-url crawl, and the entries of the crawl list are the
    lines that are left of the file: none is empty and none contains a
    line break.  The file given as [adUrlList], if any, is not used. *)
Theorem url_list_gives_its_lines file (s s' : State W) l :
  Loading.given (url_flag FLAGS) = None ->
  Loading.given (Loading.urlList flags) = Some file ->
  Loading.load FLAGS flags s = (s', Ok l) ->
  Loading.crawlListFile l = file
  /\ Loading.isAdUrlCrawl l = false
  /\ Forall (fun url => url <> ""%string /\ contains newline url = false)
            (Loading.crawlList l)
  /\ exists content,
       Loading.fs_readFileSync file (world s') = inr content
       /\ Loading.crawlList l =
          filter (fun url => Nat.ltb 0 (String.length url))
                 (split_lines (Loading.String_trimEnd content)).
Proof.
  intros Hurl Hlist. unfold Loading.load. rewrite bind_run.
  destruct (Loading.check_outputDir flags s) as [s1 [[]|e|code| ]] eqn:E1;
    try not_ok.
  rewrite bind_run.
  destruct (await Loading.DbClient_initialize s1) as [s2 [[]|e|code| ]] eqn:E2;
    try not_ok.
  unfold Loading.read_crawl_list. rewrite Hurl, Hlist.
  rewrite bind_run. cbn [get].
  destruct (Loading.fs_existsSync file (world s2)); cbn [negb when]; [|not_ok].
  rewrite bind_run. cbn [ret Monad_M]. rewrite bind_run. unfold Loading.sync.
  destruct (Loading.fs_readFileSync file (world s2)) as [e|content] eqn:Er;
    [not_ok|].
  intros H. inversion H; subst. clear H.
  cbn [Loading.crawlListFile Loading.crawlList Loading.isAdUrlCrawl].
  repeat split.
  - apply Forall_forall. intros u Hu. apply filter_In in Hu. destruct Hu as [Hin Hu].
    split; [intros ->; discriminate|].
    pose proof (split_lines_no_newline (Loading.String_trimEnd content)) as Hall.
    rewrite Forall_forall in Hall. now apply Hall.
  - exists content. now split.
Qed.

(** The diagnostic of a missing crawl input, and of a list file that does
    not exist. *)
Lemma read_crawl_list_exits (s : State W) :
  Loading.given (url_flag FLAGS) = None ->
  (Loading.given (Loading.urlList flags) = None
   /\ Loading.given (Loading.adUrlList flags) = None)
  \/ (exists file, Loading.given (Loading.urlList flags) = Some file
                   /\ Loading.fs_existsSync file (world s) = false)
  \/ (exists file, Loading.given (Loading.urlList flags) = None
                   /\ Loading.given (Loading.adUrlList flags) = Some file
                   /\ Loading.fs_existsSync file (world s) = false) ->
  exists f msg,
    Loading.read_crawl_list FLAGS flags s =
    (set_trace (trace s ++ [EvLog f msg]) s, Exit 1%Z).
Proof.
  intros Hurl Hwhy. unfold Loading.read_crawl_list. rewrite Hurl.
  destruct Hwhy as [[Hl Ha] | [(file & Hl & Hf) | (file & Hl & Ha & Hf)]].
  - rewrite Hl, Ha. eexists. eexists. reflexivity.
  - rewrite Hl, bind_run. cbn [get]. rewrite Hf. eexists. eexists. reflexivity.
  - rewrite Hl, Ha, bind_run. cbn [get]. rewrite Hf. eexists. eexists. reflexivity.
Qed.

(** X18. Missing crawl inputs: with no url given, when neither list is
    given, or when the list that is used does not exist (a missing
    [urlList] file is not made up for by an [adUrlList]), the process exits
    with code 1 after one diagnostic; this happens after the store client
    has been initialised. *)
Theorem missing_input_exits_after_store_init (s : State W) w1 :
  racing s = None ->
  Loading.fs_existsSync (Loading.outputDir flags) (world s) = true ->
  Loading.fs_accessSync (Loading.outputDir flags) (world s) = inr tt ->
  Loading.DbClient_initialize (world s) = (w1, inr tt) ->
  Loading.given (url_flag FLAGS) = None ->
  (Loading.given (Loading.urlList flags) = None
   /\ Loading.given (Loading.adUrlList flags) = None)
  \/ (exists file, Loading.given (Loading.urlList flags) = Some file
                   /\ Loading.fs_existsSync file w1 = false)
  \/ (exists file, Loading.given (Loading.urlList flags) = None
                   /\ Loading.given (Loading.adUrlList flags) = Some file
                   /\ Loading.fs_existsSync file w1 = false) ->
  exists f msg,
    Loading.load FLAGS flags s =
    (set_trace (trace s ++ [EvLog f msg]) (set_world w1 s), Exit 1%Z).
Proof.
  intros R Hf Ha Hinit Hurl Hwhy.
  assert (E1 : Loading.check_outputDir flags s = (s, Ok tt)).
  { unfold Loading.check_outputDir. rewrite bind_run. cbn [get]. rewrite Hf.
    cbn [negb when]. rewrite bind_run. cbn [ret Monad_M]. rewrite catch_run.
    unfold Loading.sync. now rewrite Ha. }
  destruct (read_crawl_list_exits (set_world w1 s) Hurl Hwhy) as (f & msg & E3).
  exists f, msg. unfold Loading.load.
  rewrite bind_run, E1, bind_run, (await_run _ s R), Hinit. cbn [fst snd].
  exact E3.
Qed.

(** X19. A csv row that lacks a column makes [crawl] throw, where every
    other defect of the inputs makes it exit: when the first such row of
    the ad url list lacks its [ad_id], the error says so, and otherwise it
    names the [url]; nothing is printed. *)
Theorem csv_row_without_column_throws file good bad rest (s : State W) w1 :
  racing s = None ->
  Loading.fs_existsSync (Loading.outputDir flags) (world s) = true ->
  Loading.fs_accessSync (Loading.outputDir flags) (world s) = inr tt ->
  Loading.DbClient_initialize (world s) = (w1, inr tt) ->
  Loading.given (url_flag FLAGS) = None ->
  Loading.given (Loading.urlList flags) = None ->
  Loading.given (Loading.adUrlList flags) = Some file ->
  Loading.fs_existsSync file w1 = true ->
  Loading.csv_rows file w1 = good ++ bad :: rest ->
  Forall Loading.complete good -> ~ Loading.complete bad ->
  Loading.load FLAGS flags s =
  (set_world w1 s,
   Throw (JsError (if truthy_opt (Loading.csv_ad_id bad)
                   then "url column missing from adUrlList"
                   else "ad_id column missing from adUrlList"))).
Proof.
  intros R Hf Ha Hinit Hurl Hlist Hads Hfile Hrows Hgood Hbad.
  assert (E1 : Loading.check_outputDir flags s = (s, Ok tt)).
  { unfold Loading.check_outputDir. rewrite bind_run. cbn [get]. rewrite Hf.
    cbn [negb when]. rewrite bind_run. cbn [ret Monad_M]. rewrite catch_run.
    unfold Loading.sync. now rewrite Ha. }
  unfold Loading.load.
  rewrite bind_run, E1, bind_run, (await_run _ s R), Hinit. cbn [fst snd].
  unfold Loading.read_crawl_list. rewrite Hurl, Hlist, Hads.
  rewrite bind_run. cbn [get world set_world]. rewrite Hfile. cbn [negb when].
  rewrite bind_run. cbn [ret Monad_M]. rewrite bind_run.
  unfold Loading.read_ad_urls. rewrite bind_run. cbn [get world set_world].
  rewrite Hrows, fold_left_app. cbn [fold_left].
  set (start := {| Loading.rejected := None; Loading.urls := [];
                   Loading.adIds := [] |}).
  destruct (fold_on_data good start) as (_ & _ & _ & _ & Hnone).
  specialize (Hnone eq_refl Hgood). cbn zeta in Hnone.
  set (r1 := fold_left (fun r data => Loading.on_data data r) good start) in *.
  assert (Er : Loading.rejected (Loading.on_data bad r1) =
               Some (JsError (if truthy_opt (Loading.csv_ad_id bad)
                              then "url column missing from adUrlList"
                              else "ad_id column missing from adUrlList"))).
  { unfold Loading.on_data. cbn [Loading.rejected].
    destruct (truthy_opt (Loading.csv_ad_id bad)) eqn:Ead; cbn [negb].
    - destruct (truthy_opt (Loading.csv_url bad)) eqn:Eu; cbn [negb].
      + exfalso. apply Hbad. now split.
      + now rewrite reject_rejected, Hnone.
    - destruct (truthy_opt (Loading.csv_url bad)); cbn [negb];
        now rewrite ?reject_rejected, Hnone. }
  destruct (fold_on_data rest (Loading.on_data bad r1)) as (_ & _ & _ & Hsome & _).
  rewrite (Hsome _ Er). reflexivity.
Qed.

End Loading_properties.

(** ** The role of a page visit *)

Section Roles.

Context {W : Type} {driver : Driver W} {runtime : Runtime}.
Variable FLAGS : CrawlerFlags.
Variable inputs : CrawlInputs.
Variable Q : page_row -> Prop.

Lemma pipeline_stored e : pipeline e -> stored_as Q e.
Proof. destruct e as [| |[]| | | | | | | | | |]; simpl; tauto. Qed.

(** A call of [loadAndHandlePage] records one page visit, with the
    fields of its metadata. *)
Lemma task_loadAndHandlePage_stored url page metadata :
  (forall i t c,
     Q {| page_id := i; page_timestamp := t; page_job_id := jobId FLAGS;
          page_crawl_id := c; original_url := url;
          page_type := pageType metadata;
          referrer_page := referrerPageId metadata;
          referrer_page_url := referrerPageUrl metadata;
          referrer_ad := referrerAd metadata;
          page_reload := reload metadata;
          page_url := None; page_error := None |}) ->
  task (stored_as Q) (loadAndHandlePage FLAGS url page metadata).
Proof.
  intros HQ. unfold loadAndHandlePage.
  task_step; [apply task_log; exact I|].
  task_step; [apply task_now|].
  task_step; [apply task_get|].
  task_step; [apply task_archivePage; intros i; apply HQ|].
  task_step.
  - apply task_visit, pipeline_stored.
  - task_step; [apply task_updatePage, pipeline_stored | apply task_raise].
Qed.

End Roles.

Section Roles_of_a_turn.

Context {W : Type} {driver : Driver W} {runtime : Runtime}.
Variable FLAGS : CrawlerFlags.
Variable inputs : CrawlInputs.

(** Splits a goal about the page visits of the work on one target. *)
Ltac role_step :=
  lazymatch goal with
  | |- task _ BROWSER_newPage => apply task_BROWSER_newPage; intros ?; exact I
  | |- task _ (subpageExplorer _ _) =>
      unfold subpageExplorer;
      apply task_bind; [apply task_emit; exact I | intros; apply task_await]
  | |- task _ (page_url_now _) => apply task_page_url_now
  | |- task _ (page_await _ _ _) =>
      apply task_page_await_in_pipeline; apply pipeline_stored
  | |- task _ (loadAndHandlePage _ _ _ _) =>
      apply task_loadAndHandlePage_stored; intros; unfold in_role; simpl;
      repeat split; auto; discriminate
  | |- task _ (log _ _) => apply task_log; exact I
  | |- task _ (modify _) =>
      apply task_assign; intros ?; split; [reflexivity | kept_same]
  | |- task _ (when false _) => apply task_ret
  | |- task _ (when true ?c) => change (when true c) with c
  | |- _ => task_step
  end.

Lemma task_crawl_work_roles url prevAdId :
  task (stored_as (in_role FLAGS inputs prevAdId))
       (crawl_work FLAGS inputs url prevAdId).
Proof.
  unfold crawl_work, visit_seed, find_page_with_ads, visit_subpage.
  destruct (isAdUrlCrawl inputs) eqn:Ead;
    destruct (refreshPage (crawlOptions FLAGS)) eqn:Eref;
    repeat role_step.
Qed.

(** X20. The page visits recorded by the work on one target keep to
    their roles: a seed visit is a landing page with the ad of the target
    in an ad-url crawl and a main page with no ad otherwise, and has no
    referrer page; a subpage visit has a referrer page and a referrer url,
    and no ad; every visit carries the job id of the flags; and the reload
    counter is 0, or 1 if pages are to be refreshed. *)
Theorem page_visits_keep_to_their_roles url prevAdId (s : State W) :
  exists s' o evs,
    crawl_work FLAGS inputs url prevAdId s = (s', o)
    /\ trace s' = trace s ++ evs
    /\ Forall (stored_as (in_role FLAGS inputs prevAdId)) evs.
Proof.
  destruct (crawl_work FLAGS inputs url prevAdId s) as [s' o] eqn:E.
  destruct (run_task (task_crawl_work_roles url prevAdId) E) as ([evs [T F]] & _).
  now exists s', o, evs.
Qed.

End Roles_of_a_turn.

(** ** The scrape options *)

Section Gated.

Context {W : Type} {driver : Driver W} {runtime : Runtime}.
Variable FLAGS : CrawlerFlags.
Variable inputs : CrawlInputs.

Lemma filtering_gated e : filtering e -> gated FLAGS e.
Proof. destruct e as [[]| | | | | | | | | | | |]; simpl; tauto. Qed.

Lemma gated_page_await page a :
  gated FLAGS (EvPage page a) -> task (gated FLAGS) (page_await FLAGS page a).
Proof. intros Ha. apply task_page_await; [apply filtering_gated | exact Ha]. Qed.

Lemma gated_page_evaluate page q : task (gated FLAGS) (page_evaluate page q : M W Q).
Proof.
  unfold page_evaluate. apply task_bind; [apply task_emit; exact I|].
  intros _. apply task_await.
Qed.

Lemma gated_scroll_loop left page innerHeight scrollY scrollHeight :
  task (gated FLAGS) (scroll_loop FLAGS left page innerHeight scrollY scrollHeight).
Proof.
  revert scrollY. induction left as [|left IH]; intros scrollY; cbn [scroll_loop].
  - apply task_ret.
  - repeat lazymatch goal with
           | |- task _ (scroll_loop _ _ _ _ _ _) => apply IH
           | |- task _ (page_await _ _ _) => apply gated_page_await; exact I
           | |- task _ (page_evaluate _ _) => apply gated_page_evaluate
           | |- _ => task_step
           end.
Qed.

Lemma gated_scrollDownPage page : task (gated FLAGS) (scrollDownPage FLAGS page).
Proof.
  unfold scrollDownPage.
  repeat lazymatch goal with
         | |- task _ (scroll_loop _ _ _ _ _ _) => apply gated_scroll_loop
         | |- task _ (page_evaluate _ _) => apply gated_page_evaluate
         | |- task _ (page_url_now _) => apply task_get
         | |- task _ (log _ _) => apply task_log; exact I
         | |- _ => task_step
         end.
Qed.

Lemma gated_updatePage pageId u :
  gated FLAGS (EvDb (UpdatePage pageId u)) ->
  task (gated FLAGS) (updatePage pageId u : M W unit).
Proof.
  intros Hu. unfold updatePage. apply task_bind; [now apply task_emit|]. intros _.
  apply task_assign. intros s. split; [reflexivity|].
  apply kept_set_db; [reflexivity|]. simpl. rewrite map_map.
  erewrite map_ext; [apply incl_refl|]. intros r. simpl.
  now destruct (page_id r =? pageId)%Z.
Qed.

Lemma gated_archiveRequest r :
  captureThirdPartyRequests_enabled (scrapeOptions FLAGS) = true ->
  task (gated FLAGS) (archiveRequest r : M W unit).
Proof.
  intros Hc. unfold archiveRequest.
  apply task_bind; [now apply task_emit|]. intros _.
  apply task_assign. intros s. split; [reflexivity|].
  apply kept_set_db; [reflexivity | apply incl_refl].
Qed.

Lemma gated_page_on_request page : task (gated FLAGS) (page_on_request page : M W unit).
Proof.
  unfold page_on_request. apply task_bind; [|intros _; apply task_bind; [|intros _]].
  - apply task_assign. intros s. split; [reflexivity | kept_same].
  - apply task_emit. exact I.
  - apply task_assign. intros s. split; [reflexivity | kept_same].
Qed.

Lemma gated_visit url page metadata pageId :
  task (gated FLAGS) (visit FLAGS url page metadata pageId).
Proof.
  unfold visit.
  pose proof gated_archiveRequest as Harchive.
  assert (Hawait : forall a,
             match a with
             | ScrapePage _ _ _ => scrapeSite (scrapeOptions FLAGS) = true
             | ScrapeAdsOnPage _ _ _ => scrapeAds (scrapeOptions FLAGS) = true
             | _ => True
             end -> task (gated FLAGS) (page_await FLAGS page a))
    by (intros a; apply gated_page_await).
  assert (Hupdate : forall u,
             match u with
             | SetUrl _ _ => scrapeSite (scrapeOptions FLAGS) = false
             | _ => True
             end -> task (gated FLAGS) (updatePage pageId u : M W unit))
    by (intros u; apply gated_updatePage).
  destruct (captureThirdPartyRequests_enabled (scrapeOptions FLAGS)) eqn:Ecap;
    destruct (scrapeSite (scrapeOptions FLAGS)) eqn:Esite;
    destruct (scrapeAds (scrapeOptions FLAGS)) eqn:Eads.
  all: repeat lazymatch goal with
         | |- task _ (page_await _ _ _) => apply Hawait; first [exact I | reflexivity]
         | |- task _ (page_on_request _) => apply gated_page_on_request
         | |- task _ (scrollDownPage _ _) => apply gated_scrollDownPage
         | |- task _ (updatePage _ _) => apply Hupdate; first [exact I | reflexivity]
         | |- task _ (archiveRequest _) => apply Harchive; reflexivity
         | |- task _ (when false _) => apply task_ret
         | |- task _ (page_url_now _) => apply task_get
         | |- task _ (log _ _) => apply task_log; exact I
         | |- _ => task_step
         end.
Qed.

Lemma gated_loadAndHandlePage url page metadata :
  task (gated FLAGS) (loadAndHandlePage FLAGS url page metadata).
Proof.
  unfold loadAndHandlePage.
  task_step; [apply task_log; exact I|].
  task_step; [apply task_now|].
  task_step; [apply task_get|].
  task_step; [apply task_archivePage; intros i; exact I|].
  task_step; [apply gated_visit|].
  task_step; [apply gated_updatePage; exact I | apply task_raise].
Qed.

Lemma gated_crawl_work url prevAdId :
  task (gated FLAGS) (crawl_work FLAGS inputs url prevAdId).
Proof.
  unfold crawl_work, visit_seed, find_page_with_ads, visit_subpage.
  repeat lazymatch goal with
         | |- task _ BROWSER_newPage => apply task_BROWSER_newPage; intros ?; exact I
         | |- task _ (subpageExplorer _ _) =>
             unfold subpageExplorer;
             apply task_bind; [apply task_emit; exact I | intros; apply task_await]
         | |- task _ (page_url_now _) => apply task_get
         | |- task _ (page_await _ _ _) => apply gated_page_await; exact I
         | |- task _ (loadAndHandlePage _ _ _ _) => apply gated_loadAndHandlePage
         | |- task _ (log _ _) => apply task_log; exact I
         | |- task _ (modify _) =>
             apply task_assign; intros ?; split; [reflexivity | kept_same]
         | |- _ => task_step
         end.
Qed.

(** X21. The scrape options gate their effects throughout the work on a
    target: [scrapePage] is called only if [scrapeSite] is set, and the
    crawler itself records the url of the page only if it is not;
    [scrapeAdsOnPage] is called only if [scrapeAds] is set; and a captured
    request is saved only if [captureThirdPartyRequests] is set. *)
Theorem scrape_options_gate_their_effects url prevAdId (s : State W) :
  exists s' o evs,
    crawl_work FLAGS inputs url prevAdId s = (s', o)
    /\ trace s' = trace s ++ evs
    /\ Forall (gated FLAGS) evs.
Proof.
  destruct (crawl_work FLAGS inputs url prevAdId s) as [s' o] eqn:E.
  destruct (run_task (gated_crawl_work url prevAdId) E) as ([evs [T F]] & _).
  now exists s', o, evs.
Qed.

End Gated.

(** * Runs on the simulated browser *)

#[local] Existing Instance Sim.driver.
#[local] Existing Instance Sim.runtime.
#[local] Existing Instance Sim_network.online.

Lemma sim_browser_starts : browser_starts Sim.World.
Proof. split; intros; eexists; try eexists; reflexivity. Qed.

Lemma sim_tabs_open : tabs_open Sim.World.
Proof. intros w. eexists _, _. reflexivity. Qed.

Lemma sim_tabs_close : ~ close_rejected Sim.World.
Proof. intros (p & w & e & H). discriminate H. Qed.

(** ** The driver loop *)


(** All five are attempted, the second with its error recorded, and the
    run is complete. *)
Example failure_isolation :
  let s' := fst (main_loop Sim.flags0 Sim.five 0
                   (Sim.running 1 Sim.b_down
                      (Sim.runs [Sim.run_row 1 None "/data/list.txt" 0 5 false]))) in
  attempted (trace s') = crawlList Sim.five
  /\ map page_error (page_table (db s')) =
     [None; Some "net::ERR_FAILED at https://b.example/"%string; None; None; None]
  /\ crawl_table (db s') = [Sim.run_row 1 None "/data/list.txt" 5 5 true].
Proof. vm_compute. repeat split. Qed.

(** A tab that rejects [close]: the process ends with code 1 after the
    first target, whose index is persisted; the run is not completed. *)
Example rejected_close_ends_the_process :
  let r := main_loop (driver := Sim_cases.no_close) Sim.flags0 Sim.five 0
             (Sim.running 1 Sim.world0
                (Sim.runs [Sim.run_row 1 None "/data/list.txt" 0 5 false])) in
  snd r = Exit 1%Z
  /\ attempted (trace (fst r)) = ["https://a.example/"%string]
  /\ persisted (trace (fst r)) = [(1, 1%Z)]
  /\ crawl_table (db (fst r)) = [Sim.run_row 1 None "/data/list.txt" 1 5 false].
Proof. vm_compute. repeat split. Qed.

Lemma timer_armed_anew_each_turn_witness :
  OVERALL_TIMEOUT Sim.two = (Z.of_nat 2 * (15 * 60 * 1000))%Z
  /\ exists s' o evs,
       crawl_item Sim.flags0 Sim.two 1 (Sim.running 1 Sim.first_hangs Sim.empty_db)
       = (s', o)
       /\ trace s' =
          [] ++ EvSetTimeout (timeout_message (crawlList Sim.two) 1)
                             (OVERALL_TIMEOUT Sim.two) 0
             :: evs
       /\ Forall (in_turn (timeout_message (crawlList Sim.two) 1)) evs.
Proof.
  exact (timer_armed_anew_each_turn Sim.flags0 Sim.two 1
           (Sim.running 1 Sim.first_hangs Sim.empty_db) eq_refl).
Defined.

(** C4, as stated, fails: the timer of the first target fires, the timer
    of the second does not. *)
Lemma timer_not_shared :
  ~ fired_for_all_later (crawlList Sim.two)
      (trace (fst (main_loop Sim.flags0 Sim.two 0
                     (Sim.running 1 Sim.first_hangs
                        (Sim.runs [Sim.run_row 1 None "/data/list.txt" 0 2 false]))))).
Proof.
  intros H. specialize (H 0 1).
  assert (E : fired (trace (fst (main_loop Sim.flags0 Sim.two 0
                     (Sim.running 1 Sim.first_hangs
                        (Sim.runs [Sim.run_row 1 None "/data/list.txt" 0 2 false])))))
              = ["https://slow.example/: overall site timeout reached"%string])
    by (vm_compute; reflexivity).
  rewrite E in H. clear E.
  destruct H as [H | []].
  - simpl. lia.
  - left. reflexivity.
  - discriminate H.
Qed.

(** ** The run state machine *)

(** A run named R stopped at index 3 of 5; the same list, now under
    another directory, resumes at index 3 with identity 7. *)
Lemma resume_at_stored_index_witness :
  let prior := Sim.run_row 7 (Some "R"%string) "/old/place/list.txt" 3 5 false in
  let s := Sim.start Sim.world0 (Sim.runs [prior]) in
  let FLAGS := Sim.named "R" true Sim.flags0 in
  let resumed := set_CRAWL_ID 7 (set_trace [EvDb (SelectCrawlByName "R")] s) in
  resume_or_create FLAGS Sim.five s = (resumed, Ok 3)
  /\ db resumed = db s
  /\ exists s' o v evs m,
       crawl FLAGS Sim.five s = (s', o)
       /\ trace s' =
          trace s ++ EvDb (SelectCrawlByName "R")
                  :: EvLog log_info "Launching browser..."
                  :: EvLaunch (chromeArgs FLAGS)
                  :: EvLog log_info ("Running " ++ v)%string
                  :: evs
       /\ (3 < length (crawlList Sim.five) ->
           exists t evs',
             evs = EvSetTimeout (timeout_message (crawlList Sim.five) 3)
                                (OVERALL_TIMEOUT Sim.five) t :: evs')
       /\ attempted evs = firstn m (skipn 3 (crawlList Sim.five))
       /\ persisted evs = map (fun i => (i + 1, 7%Z)) (seq 3 m)
       /\ (o = Ok tt -> attempted evs = skipn 3 (crawlList Sim.five))
       /\ map id (crawl_table (db s')) = map id (crawl_table (db s)).
Proof.
  pose proof (resume_at_stored_index (Sim.named "R" true Sim.flags0) Sim.five
                (Sim.start Sim.world0
                   (Sim.runs [Sim.run_row 7 (Some "R"%string) "/old/place/list.txt" 3 5 false]))
                "R"%string
                (Sim.run_row 7 (Some "R"%string) "/old/place/list.txt" 3 5 false)
                "/old/place/list.txt"%string) as H.
  specialize (H eq_refl eq_refl eq_refl eq_refl eq_refl eq_refl eq_refl eq_refl).
  destruct H as (E & D & H).
  split; [exact E|]. split; [exact D|].
  exact (H eq_refl sim_browser_starts eq_refl).
Defined.

(** The resumed run visits the targets at index 3 and 4 and completes the
    record of the prior run. *)
Example resumed_run_visits_the_rest :
  let prior := Sim.run_row 7 (Some "R"%string) "/old/place/list.txt" 3 5 false in
  let r := crawl (Sim.named "R" true Sim.flags0) Sim.five
                 (Sim.start Sim.world0 (Sim.runs [prior])) in
  snd r = Ok tt
  /\ attempted (trace (fst r)) = ["https://d.example/"%string; "https://e.example/"%string]
  /\ persisted (trace (fst r)) = [(4, 7%Z); (5, 7%Z)]
  /\ crawl_table (db (fst r))
     = [Sim.run_row 7 (Some "R"%string) "/old/place/list.txt" 5 5 true].
Proof. vm_compute. repeat split. Qed.

(** The same run against a list of 4 entries where 5 are given. *)
Lemma resume_rejected_before_launch_witness :
  let prior := Sim.run_row 7 (Some "R"%string) "/old/place/list.txt" 3 4 false in
  let s := Sim.start Sim.world0 (Sim.runs [prior]) in
  exists s' evs,
    crawl (Sim.named "R" true Sim.flags0) Sim.five s = (s', Exit 1%Z)
    /\ db s' = db s /\ world s' = world s
    /\ trace s' = trace s ++ evs
    /\ Forall (fun e => touches e = false) evs
    /\ diagnostics evs <> [].
Proof.
  apply (resume_rejected_before_launch (Sim.named "R" true Sim.flags0) Sim.five
           (Sim.start Sim.world0
              (Sim.runs [Sim.run_row 7 (Some "R"%string) "/old/place/list.txt" 3 4 false]))
           "R"%string
           (Sim.run_row 7 (Some "R"%string) "/old/place/list.txt" 3 4 false)
           "/old/place/list.txt"%string);
    try reflexivity.
  right. left. simpl. discriminate.
Defined.

Example resume_rejected_diagnostic :
  let prior := Sim.run_row 7 (Some "R"%string) "/old/place/list.txt" 3 4 false in
  let s := Sim.start Sim.world0 (Sim.runs [prior]) in
  diagnostics (trace (fst (crawl (Sim.named "R" true Sim.flags0) Sim.five s))) =
  ["Crawl list file provided does not the have same number of URLs as the original crawl. Expected: 4, actual: 5"%string].
Proof. vm_compute. reflexivity. Qed.

(** The same name without resume: a second record named R. *)
Lemma same_name_without_resume_creates_witness :
  let prior := Sim.run_row 7 (Some "R"%string) "/old/place/list.txt" 3 5 false in
  let s := Sim.start Sim.world0 (Sim.runs [prior]) in
  exists s' row,
    resume_or_create (network := Sim_network.v6_only)
                     (Sim.named "R" false Sim.flags0) Sim.five s = (s', Ok 0)
    /\ crawl_table (db s') = crawl_table (db s) ++ [row]
    /\ name row = Some "R"%string /\ crawl_list_current_index row = 0
    /\ completed row = false
    /\ ~ In (id row) (map id (crawl_table (db s)))
    /\ id row <> id prior
    /\ CRAWL_ID s' = id row
    /\ trace s' = trace s ++ EvDb (SelectCrawlByName "R")
                          :: [EvLog console_log "Query timed out"]
                          ++ [EvDb (InsertCrawl row)]
    /\ length [JsError "Query timed out"] <= 2
    /\ 2 <= length (filter (name_is "R") (crawl_table (db s'))).
Proof.
  apply (same_name_without_resume_creates (network := Sim_network.v6_only)
           (Sim.named "R" false Sim.flags0) Sim.five
           (Sim.start Sim.world0
              (Sim.runs [Sim.run_row 7 (Some "R"%string) "/old/place/list.txt" 3 5 false]))
           "R"%string
           (Sim.run_row 7 (Some "R"%string) "/old/place/list.txt" 3 5 false));
    reflexivity.
Defined.

(** ** The validation of the crawl list *)

(** C9, where the code departs from it.  The third line of the list is
    the first invalid one; the process exits with code 1 before it
    reaches the store or the browser, and the diagnostic names the list
    file, but it says line 1. *)
Lemma validate_names_line_1 :
  let s := Sim.start Sim.world0 Sim.empty_db in
  let r := crawl Sim.flags0 Sim.third_invalid s in
  first_invalid 1 (crawlList Sim.third_invalid) = Some (3, "not a url"%string)
  /\ snd r = Exit 1%Z
  /\ trace (fst r) =
     [EvLog log_strError "Invalid URL in crawl list /data/list.txt at line 1: not a url"]
  /\ db (fst r) = db s.
Proof. vm_compute. repeat split. Qed.

(** ** The request filter *)

(** The page [https://a.example/] with a script of its own origin and a
    script from [https://cdn.example]: only the latter is recorded, once,
    under the page visit 1. *)
Example one_cross_origin_request :
  let r := crawl Sim.flags0 Sim.one (Sim.start Sim.three_requests Sim.empty_db) in
  snd r = Ok tt
  /\ map (fun q => (target_url q, resource_type q, parent_page q))
         (request_table (db (fst r)))
     = [("https://cdn.example/y.js"%string, "script"%string, 1%Z)]
  /\ length (continues (trace (fst r))) = 3.
Proof. vm_compute. repeat split. Qed.

(** ** The scroll loop *)

Lemma sim_random_unit : random_unit Sim.World.
Proof.
  intros w. unfold Math_random, Sim.driver, Sim.next_random. cbn [snd].
  assert (H : Sim.seed w mod 10 < 10) by (apply Nat.mod_upper_bound; discriminate).
  unfold Qle, Qlt. cbn [Qnum Qden]. lia.
Qed.

Lemma still_random_unit : random_unit (driver := Sim_cases.still) Sim.World.
Proof. exact sim_random_unit. Qed.


(** On the page that never ends, the loop stops after 30 scrolls. *)
Example endless_page_30_scrolls :
  let r := scrollDownPage Sim.flags0 0 (Sim.start Sim.endless Sim.empty_db) in
  snd r = Ok tt /\ length (wheels (trace (fst r))) = 30.
Proof. vm_compute. split; reflexivity. Qed.

(** ** The search for pages with ads *)

(** Three pages with ads requested, none found at the second attempt:
    two attempts. *)
Example three_requested_two_attempts :
  let r := crawl (Sim.with_ads 3 Sim.flags0) Sim.one
                 (Sim.start Sim.second_search_empty Sim.empty_db) in
  snd r = Ok tt /\ ads_attempts (trace (fst r)) = 2.
Proof. vm_compute. split; reflexivity. Qed.

(** ** What one page visit may touch *)

(** The subpage [https://b.example/] cannot be reached: its tab, tab 0,
    stays open. *)
Lemma failed_subpage_visit_leaves_tab_open_witness :
  let s := Sim_cases.raced_until 4500000 (Sim.running 1 Sim.b_down Sim.empty_db) in
  let s2 := fst (visit_subpage Sim.flags0 "https://b.example/" 1 s) in
  visit_subpage Sim.flags0 "https://b.example/" 1 s =
  (s2, Throw (JsError "net::ERR_FAILED at https://b.example/"))
  /\ exists evs, trace s2 = trace s ++ evs
                 /\ Forall (fun ev => ev <> EvPage 0 Close) evs.
Proof.
  apply (failed_subpage_visit_leaves_tab_open Sim.flags0 "https://b.example/" 1
           (Sim_cases.raced_until 4500000 (Sim.running 1 Sim.b_down Sim.empty_db))
           (fst (visit_subpage Sim.flags0 "https://b.example/" 1
                   (Sim_cases.raced_until 4500000
                      (Sim.running 1 Sim.b_down Sim.empty_db))))
           (fst (Sim.open_tab Sim.b_down)) 0
           (JsError "net::ERR_FAILED at https://b.example/")).
  - simpl. lia.
  - reflexivity.
  - vm_compute. reflexivity.
Defined.

(** ** The pointer while scrolling *)

Lemma scroll_pointer_within_range_witness :
  exists s' o evs,
    scrollDownPage Sim.flags0 0 (Sim.start Sim.endless Sim.empty_db) = (s', o)
    /\ trace s' = [] ++ evs
    /\ length (pick pointer evs) <= 30
    /\ Forall in_pointer_range (pick pointer evs).
Proof.
  exact (scroll_pointer_within_range Sim.flags0 0 (Sim.start Sim.endless Sim.empty_db)
           sim_random_unit).
Defined.

(** A page as high as the window. *)
Lemma page_at_bottom_is_left_alone_witness :
  let s := Sim_cases.raced_until 900000 (Sim.start Sim.world0 Sim.empty_db) in
  exists s',
    scrollDownPage Sim.flags0 0 s = (s', Ok tt)
    /\ trace s' =
       trace s ++ [EvLog log_info (url_of 0 (world s)
                                   ++ ": Scrolling page from top to bottom")%string;
                   EvEvaluate 0 InnerHeight;
                   EvEvaluate 0 ScrollY;
                   EvEvaluate 0 ScrollHeight]
    /\ world s' = Sim.world0.
Proof.
  apply (page_at_bottom_is_left_alone Sim.flags0 0
           (Sim_cases.raced_until 900000 (Sim.start Sim.world0 Sim.empty_db))
           Sim.world0 Sim.world0 Sim.world0 (768 # 1)%Q 0%Q (768 # 1)%Q);
    try reflexivity; try (simpl; lia).
  unfold Qle. simpl. lia.
Defined.

(** ** The life of a run record *)

(** A run named R over five targets stops after two turns; the next
    process resumes at index 2. *)
Lemma interrupted_run_resumes_at_next_index_witness :
  let s := Sim.start Sim.b_down Sim.empty_db in
  exists s1 sk,
    resume_or_create (Sim.named "R" false Sim.flags0) Sim.five s = (s1, Ok 0)
    /\ for_from 2 0 (crawl_item (Sim.named "R" false Sim.flags0) Sim.five) s1
       = (sk, Ok tt)
    /\ forall s2 : State Sim.World,
         crawl_table (db s2) = crawl_table (db sk) ->
         resume_or_create (Sim.named "R" true Sim.flags0) Sim.five s2 =
         (set_CRAWL_ID (CRAWL_ID s1)
            (set_trace (trace s2 ++ [EvDb (SelectCrawlByName "R")]) s2), Ok 2).
Proof.
  destruct (interrupted_run_resumes_at_next_index
              (Sim.named "R" false Sim.flags0) Sim.five
              2 "R"%string (Sim.named "R" true Sim.flags0)
              (Sim.start Sim.b_down Sim.empty_db))
    as (s1 & E1 & Hturns & Hdone); try reflexivity; [simpl; lia|].
  destruct (Hdone sim_tabs_open sim_tabs_close) as [sk Ek].
  destruct (Hturns sk (Ok tt) Ek) as (evs & _ & _ & Hk & Hresume).
  exists s1, sk. split; [exact E1|]. split; [exact Ek|].
  intros s2 D2. rewrite <- (Hk eq_refl). now apply Hresume.
Defined.

(** The same with the single url [https://a.example/]: the next process
    exits. *)
Lemma single_url_run_is_not_resumed_witness :
  let FLAGS := Sim.named "R" false (Sim_cases.with_url "https://a.example/" Sim.flags0) in
  let F' := Sim.named "R" true (Sim_cases.with_url "https://a.example/" Sim.flags0) in
  let inputs := Sim_cases.single "https://a.example/" in
  let s := Sim.start Sim.world0 Sim.empty_db in
  exists s1 sk,
    resume_or_create FLAGS inputs s = (s1, Ok 0)
    /\ for_from 1 0 (crawl_item FLAGS inputs) s1 = (sk, Ok tt)
    /\ forall s2 : State Sim.World,
         crawl_table (db s2) = crawl_table (db sk) ->
         exists msg,
           resume_or_create F' inputs s2 =
           (set_trace ((trace s2 ++ [EvDb (SelectCrawlByName "R")])
                       ++ [EvLog console_log msg]) s2, Exit 1%Z).
Proof.
  destruct (single_url_run_is_not_resumed
              (Sim.named "R" false (Sim_cases.with_url "https://a.example/" Sim.flags0))
              (Sim_cases.single "https://a.example/")
              1 "R"%string "https://a.example/"%string
              (Sim.named "R" true (Sim_cases.with_url "https://a.example/" Sim.flags0))
              (Sim.start Sim.world0 Sim.empty_db))
    as (s1 & E1 & Hturns & Hdone); try reflexivity; [vm_compute; discriminate|].
  destruct (Hdone sim_tabs_open sim_tabs_close) as [sk Ek].
  exists s1, sk. split; [exact E1|]. split; [exact Ek|].
  exact (Hturns sk (Ok tt) Ek).
Defined.

(** No crawl name, and the IPv4 lookup of the address fails. *)
Lemma run_record_created_unless_resuming_witness :
  let s := Sim.start Sim.world0 Sim.empty_db in
  exists s' o,
    resume_or_create (network := Sim_network.v6_only) Sim.flags0 Sim.five s = (s', o)
    /\ o = Ok 0
    /\ crawl_table (db s') = crawl_table (db s) ++ [new_run Sim.flags0 Sim.five (db s)]
    /\ ~ In (id (new_run Sim.flags0 Sim.five (db s))) (map id (crawl_table (db s)))
    /\ CRAWL_ID s' = id (new_run Sim.flags0 Sim.five (db s))
    /\ trace s' = trace s ++ [] ++ [EvLog console_log "Query timed out"]
                          ++ [EvDb (InsertCrawl (new_run Sim.flags0 Sim.five (db s)))].
Proof.
  exact (run_record_created_unless_resuming (network := Sim_network.v6_only)
           Sim.flags0 Sim.five (Sim.start Sim.world0 Sim.empty_db) eq_refl).
Defined.

(** ** The crawl from validation to completion *)

Lemma crawl_completes_or_stops_between_targets_witness :
  let s := Sim.start Sim.b_down Sim.empty_db in
  exists s' evs,
    crawl Sim.flags0 Sim.five s = (s', Ok tt)
    /\ trace s' = trace s ++ evs
    /\ attempted evs = crawlList Sim.five
    /\ crawl_table (db s') =
       crawl_table (db s)
       ++ [set_completed (set_index (length (crawlList Sim.five))
                                    (new_run Sim.flags0 Sim.five (db s)))].
Proof.
  pose proof (crawl_completes_or_stops_between_targets Sim.flags0 Sim.five
                (Sim.start Sim.b_down Sim.empty_db)) as H.
  specialize (H eq_refl eq_refl sim_browser_starts eq_refl).
  destruct H as (s' & o & evs & m & E & T & Hm & A & Ho).
  destruct o as [[]|e|code|].
  - destruct Ho as [-> D]. exists s', evs.
    split; [exact E|]. split; [exact T|]. split; [exact A | exact D].
  - exfalso. destruct Ho as (_ & (w & w' & Hw) & _).
    destruct (sim_tabs_open w) as (w2 & p & Hp). congruence.
  - exfalso. destruct Ho as (_ & _ & Hc & _). exact (sim_tabs_close Hc).
  - contradiction.
Defined.

(** With target 2 of 5 failing in navigation the crawl ends normally,
    the run complete; with tabs that reject [close] it ends with code 1
    after the first target. *)
Example crawl_to_completion_or_exit :
  let r := crawl Sim.flags0 Sim.five (Sim.start Sim.b_down Sim.empty_db) in
  let r' := crawl (driver := Sim_cases.no_close) Sim.flags0 Sim.five
                  (Sim.start Sim.world0 Sim.empty_db) in
  snd r = Ok tt
  /\ attempted (trace (fst r)) = crawlList Sim.five
  /\ crawl_table (db (fst r)) = [Sim.run_row 1 None "/data/list.txt" 5 5 true]
  /\ snd r' = Exit 1%Z
  /\ attempted (trace (fst r')) = ["https://a.example/"%string]
  /\ crawl_table (db (fst r')) = [Sim.run_row 1 None "/data/list.txt" 1 5 false].
Proof. vm_compute. repeat split. Qed.

(** An empty list, with no connectivity for the lookup of the address. *)
Lemma empty_list_completes_at_once_witness :
  let inputs := Sim.list_of "/data/empty.txt" [] in
  let s := Sim.start Sim.world0 Sim.empty_db in
  exists s' v time,
    crawl (network := Sim_network.offline) Sim.flags0 inputs s = (s', Ok tt)
    /\ trace s' =
       trace s ++ lookup_events Sim.flags0
               ++ [EvLog console_log "Query timed out";
                   EvLog console_log "Query timed out"]
               ++ [EvDb (InsertCrawl (new_run Sim.flags0 inputs (db s)));
                   EvLog log_info "Launching browser...";
                   EvLaunch (chromeArgs Sim.flags0);
                   EvLog log_info ("Running " ++ v)%string;
                   EvDb (UpdateCrawlCompleted time (id (new_run Sim.flags0 inputs (db s))))]
    /\ crawl_table (db s') =
       crawl_table (db s) ++ [set_completed (new_run Sim.flags0 inputs (db s))]
    /\ crawl_list_length (new_run Sim.flags0 inputs (db s)) = 0.
Proof.
  exact (empty_list_completes_at_once (network := Sim_network.offline)
           Sim.flags0 (Sim.list_of "/data/empty.txt" [])
           (Sim.start Sim.world0 Sim.empty_db)
           eq_refl eq_refl sim_browser_starts eq_refl).
Defined.

(** The browser opens no tab: the crawl ends at the first target. *)
Lemma unopened_seed_tab_ends_the_crawl_witness :
  let s := Sim.running 1 Sim.world0
             (Sim.runs [Sim.run_row 1 None "/data/list.txt" 0 5 false]) in
  main_loop (driver := Sim_cases.no_tabs) Sim.flags0 Sim.five 0 s =
  (set_world Sim.world0
     (set_trace (trace s ++ [EvSetTimeout (timeout_message (crawlList Sim.five) 0)
                                          (OVERALL_TIMEOUT Sim.five) 0]) s),
   Throw (JsError "Target closed")).
Proof.
  apply (unopened_seed_tab_ends_the_crawl (driver := Sim_cases.no_tabs)
           Sim.flags0 Sim.five 0
           (Sim.running 1 Sim.world0
              (Sim.runs [Sim.run_row 1 None "/data/list.txt" 0 5 false]))
           Sim.world0 (JsError "Target closed")).
  - simpl. lia.
  - reflexivity.
  - reflexivity.
Defined.

(** The browser does not launch: the record of the run is there. *)
Lemma failed_launch_leaves_the_run_record_witness :
  let s := Sim.start Sim.world0 Sim.empty_db in
  exists s',
    crawl (driver := Sim_cases.no_browser) (network := Sim_network.v6_only)
          Sim.flags0 Sim.five s =
    (s', Throw (JsError "Failed to launch the browser process"))
    /\ trace s' =
       trace s ++ lookup_events Sim.flags0
               ++ [EvLog console_log "Query timed out"]
               ++ [EvDb (InsertCrawl (new_run Sim.flags0 Sim.five (db s)));
                   EvLog log_info "Launching browser...";
                   EvLaunch (chromeArgs Sim.flags0)]
    /\ crawl_table (db s') = crawl_table (db s) ++ [new_run Sim.flags0 Sim.five (db s)].
Proof.
  exact (failed_launch_leaves_the_run_record (driver := Sim_cases.no_browser)
           (network := Sim_network.v6_only)
           Sim.flags0 Sim.five (Sim.start Sim.world0 Sim.empty_db)
           Sim.world0 (JsError "Failed to launch the browser process")
           eq_refl eq_refl eq_refl eq_refl).
Defined.

(** ** The public address of the crawler *)

(** No connectivity at all. *)
Lemma getPublicIp_never_throws_witness :
  let s := Sim.start Sim.world0 Sim.empty_db in
  exists s' r,
    getPublicIp (network := Sim_network.offline) s = (s', Ok r)
    /\ db s' = db s
    /\ (r = Ip_null <->
        exists w1 e w2 e',
          publicIpv4 (Network := Sim_network.offline) (world s) = (w1, inl e)
          /\ publicIpv6 (Network := Sim_network.offline) w1 = (w2, inl e'))
    /\ (forall a, r = Ip a -> truthy a = true).
Proof.
  exact (getPublicIp_never_throws (network := Sim_network.offline)
           (Sim.start Sim.world0 Sim.empty_db) eq_refl).
Defined.

Example offline_gives_null :
  snd (getPublicIp (network := Sim_network.offline)
         (Sim.start Sim.world0 Sim.empty_db)) = Ok Ip_null
  /\ snd (getPublicIp (network := Sim_network.v6_only)
            (Sim.start Sim.world0 Sim.empty_db)) = Ok (Ip "2001:db8::1").
Proof. vm_compute. split; reflexivity. Qed.

(** The IPv4 lookup answers the empty string. *)
Lemma ipv6_only_after_ipv4_throws_witness :
  let s := Sim.start Sim.world0 Sim.empty_db in
  getPublicIp (network := Sim_network.empty_v4) s =
  (set_world Sim.world0 s, Ok (if truthy "" then Ip "" else Ip_undefined)).
Proof.
  exact (ipv6_only_after_ipv4_throws (network := Sim_network.empty_v4)
           (Sim.start Sim.world0 Sim.empty_db) Sim.world0 ""%string eq_refl eq_refl).
Defined.

(** ** The crawl list, from the flags *)

(** The output directory cannot be written. *)
Lemma output_dir_is_checked_first_witness :
  let s := Sim.start Sim.world0 Sim.empty_db in
  exists s' o evs,
    Loading.load (host := Sim_host.host) Sim.flags0 (Sim_host.to_dir "/locked") s = (s', o)
    /\ world s' = world s /\ db s' = db s
    /\ (o = Exit 1%Z \/ exists e, o = Throw e)
    /\ trace s' = trace s ++ evs /\ diagnostics evs <> [].
Proof.
  apply (output_dir_is_checked_first (host := Sim_host.host) Sim.flags0
           (Sim_host.to_dir "/locked") (Sim.start Sim.world0 Sim.empty_db)).
  right. eexists. reflexivity.
Defined.

(** An ad url list of two rows. *)
Lemma loaded_list_is_well_formed_witness :
  let s := Sim.start Sim.world0 Sim.empty_db in
  let l := {| Loading.crawlListFile := "/data/ads.csv";
              Loading.crawlList := ["https://ad.example/x"; "https://ad.example/y"];
              Loading.crawlListAdIds := [Some 17%Z; Some 18%Z];
              Loading.isAdUrlCrawl := true |} in
  Forall (fun url => truthy url = true) (Loading.crawlList l)
  /\ (if Loading.isAdUrlCrawl l
      then length (Loading.crawlListAdIds l) = length (Loading.crawlList l)
      else Loading.crawlListAdIds l = [])
  /\ Loading.fs_existsSync (Host := Sim_host.host) "/out" (world s) = true
  /\ Loading.fs_accessSync (Host := Sim_host.host) "/out" (world s) = inr tt.
Proof.
  apply (loaded_list_is_well_formed (host := Sim_host.host) Sim.flags0
           (Sim_host.from_ads "/data/ads.csv") (Sim.start Sim.world0 Sim.empty_db)
           (fst (Loading.load (host := Sim_host.host) Sim.flags0
                   (Sim_host.from_ads "/data/ads.csv")
                   (Sim.start Sim.world0 Sim.empty_db)))).
  vm_compute. reflexivity.
Defined.

(** A list file of two urls with a blank line between them. *)
Lemma url_list_gives_its_lines_witness :
  let s := Sim.start Sim.world0 Sim.empty_db in
  let s' := fst (Loading.load (host := Sim_host.host) Sim.flags0
                   (Sim_host.from_list "/data/list.txt") s) in
  let l := {| Loading.crawlListFile := "/data/list.txt";
              Loading.crawlList := ["https://a.example/"; "https://b.example/"];
              Loading.crawlListAdIds := [];
              Loading.isAdUrlCrawl := false |} in
  Loading.crawlListFile l = "/data/list.txt"%string
  /\ Loading.isAdUrlCrawl l = false
  /\ Forall (fun url => url <> ""%string /\ contains newline url = false)
            (Loading.crawlList l)
  /\ exists content,
       Loading.fs_readFileSync (Host := Sim_host.host) "/data/list.txt" (world s')
       = inr content
       /\ Loading.crawlList l =
          filter (fun url => Nat.ltb 0 (String.length url))
                 (split_lines (Loading.String_trimEnd (Host := Sim_host.host) content)).
Proof.
  apply (url_list_gives_its_lines (host := Sim_host.host) Sim.flags0
           (Sim_host.from_list "/data/list.txt") "/data/list.txt"%string
           (Sim.start Sim.world0 Sim.empty_db)).
  - reflexivity.
  - reflexivity.
  - vm_compute. reflexivity.
Defined.

(** The list file does not exist; the ad url list that does is not
    used. *)
Lemma missing_input_exits_after_store_init_witness :
  let s := Sim.start Sim.world0 Sim.empty_db in
  exists f msg,
    Loading.load (host := Sim_host.host) Sim.flags0
                 (Sim_host.from_list "/data/nowhere.txt") s =
    (set_trace (trace s ++ [EvLog f msg]) (set_world (Sim.tick 5 Sim.world0) s),
     Exit 1%Z).
Proof.
  apply (missing_input_exits_after_store_init (host := Sim_host.host) Sim.flags0
           (Sim_host.from_list "/data/nowhere.txt")
           (Sim.start Sim.world0 Sim.empty_db) (Sim.tick 5 Sim.world0));
    try reflexivity.
  right. left. exists "/data/nowhere.txt"%string. split; reflexivity.
Defined.

(** The second row of the csv file has no [ad_id], the third no [url]. *)
Lemma csv_row_without_column_throws_witness :
  let s := Sim.start Sim.world0 Sim.empty_db in
  Loading.load (host := Sim_host.host) Sim.flags0 (Sim_host.from_ads "/data/bad.csv") s =
  (set_world (Sim.tick 5 Sim.world0) s,
   Throw (JsError "ad_id column missing from adUrlList")).
Proof.
  apply (csv_row_without_column_throws (host := Sim_host.host) Sim.flags0
           (Sim_host.from_ads "/data/bad.csv") "/data/bad.csv"%string
           [{| Loading.csv_ad_id := Some "17"%string;
               Loading.csv_url := Some "https://ad.example/x"%string |}]
           {| Loading.csv_ad_id := None;
              Loading.csv_url := Some "https://ad.example/y"%string |}
           [{| Loading.csv_ad_id := Some "19"%string; Loading.csv_url := None |}]
           (Sim.start Sim.world0 Sim.empty_db) (Sim.tick 5 Sim.world0));
    try reflexivity.
  - repeat constructor.
  - intros [H _]. discriminate H.
Defined.
